(** * The GD-ROM drive controller of [src/guest/gdrom/gdrom.c]

    A shallow embedding of the controller's state machine (ATA command
    dispatcher, SPI packet processor, sector reader, PIO and DMA transfer
    engines) together with the properties of it that the specification
    states.

    Conventions.
    - C [int] values are [Z].  Every quantity the controller computes is
      bounded by the buffer size or by a 24-bit packet field, so no
      arithmetic of the source leaves the range of [int].
    - [uint8_t] is [byte]; a C array or struct seen through a [uint8_t *]
      is a [buffer], a map from offsets to bytes; the bounds of the object
      are checked where the source relies on them.
    - [CHECK*] failures and [LOG_FATAL] abort the emulator: [Err Fatal].
      An access outside a C object is [Err Undefined]. *)

From Stdlib.Strings Require Import String Byte.
From Stdlib Require Import ZArith List Bool Lia.
Import ListNotations.
Local Open Scope Z_scope.

(** ** Outcomes of a controller operation *)

Inductive fault : Type :=
| Fatal       (* CHECK / LOG_FATAL: the emulator aborts *)
| Undefined   (* access outside a C object *)
| OutOfFuel.  (* the model's dispatch depth was exhausted (never happens,
                 see [gdrom_event_fuel]) *)

Inductive result (A : Type) : Type :=
| Ok (a : A)
| Err (f : fault).

Arguments Ok {A} a.
Arguments Err {A} f.

Definition bind {A B : Type} (m : result A) (k : A -> result B) : result B :=
  match m with
  | Ok a => k a
  | Err f => Err f
  end.

Declare Scope gd_scope.
Delimit Scope gd_scope with gd.
Notation "x <- m ;; k" := (bind m (fun x => k))
  (at level 61, m at next level, right associativity) : gd_scope.
Notation "'CHECK' b ;; k" := (if b then k else Err Fatal)
  (at level 61, b at next level, right associativity) : gd_scope.
Notation "'DEFINED' b ;; k" := (if b then k else Err Undefined)
  (at level 61, b at next level, right associativity) : gd_scope.
Local Open Scope gd_scope.

(** ** Bytes and byte buffers *)

Definition Z_of_byte (b : byte) : Z := Z.of_N (Byte.to_N b).

Definition byte_of_Z (z : Z) : byte :=
  match Byte.of_N (Z.to_N (z mod 256)) with
  | Some b => b
  | None => x00
  end.

Definition buffer : Type := Z -> byte.

Definition len (l : list byte) : Z := Z.of_nat (length l).

(** [memcpy dst off src]: the bytes of [src] stored at [dst + off]. *)
Definition memcpy (dst : buffer) (off : Z) (src : list byte) : buffer :=
  fun i =>
    if (off <=? i) && (i <? off + len src)
    then nth (Z.to_nat (i - off)) src x00
    else dst i.

(** [load src off n]: the [n] bytes at [src + off]. *)
Definition load (src : buffer) (off : Z) (n : Z) : list byte :=
  map (fun k => src (off + Z.of_nat k)) (seq 0 (Z.to_nat n)).

(** [sizeof(gd->pio_buffer)] and [sizeof(gd->dma_buffer)]. *)
Definition sizeof_pio_buffer : Z := 0x10000.
Definition sizeof_dma_buffer : Z := 0x10000.

(** Modelled from the spec: [GD_SPI_CMD_SIZE] is declared in
    gdrom_types.h, which is not among the sources; the specification fixes
    the command packet at 12 bytes. *)
Definition GD_SPI_CMD_SIZE : Z := 12.

(** Modelled from the spec: [bswap24] is declared in core/math.h, which is
    not among the sources; it swaps a 24-bit value to big-endian order. *)
Definition bswap24 (v : Z) : Z :=
  Z.lor (Z.shiftl (Z.land v 0xff) 16)
        (Z.lor (Z.land v 0xff00) (Z.land (Z.shiftr v 16) 0xff)).

(** ** The state machine's enumerations *)

Inductive gd_event : Type :=
| EVENT_ATA_CMD
| EVENT_PIO_WRITE
| EVENT_SPI_CMD
| EVENT_PIO_READ
| EVENT_SPI_DATA.

Inductive gd_state : Type :=
| STATE_READ_ATA_CMD
| STATE_READ_ATA_DATA
| STATE_READ_SPI_DATA
| STATE_WRITE_SPI_DATA
| STATE_WRITE_DMA_DATA.

(** The five handlers a table entry can point to. *)
Inductive gd_event_cb : Type :=
| cb_gdrom_ata_cmd
| cb_gdrom_pio_write
| cb_gdrom_spi_cmd
| cb_gdrom_pio_read
| cb_gdrom_spi_data.

(** [gd_transitions[state][event]]; [None] is the table's [NULL]. *)
Definition gd_transitions (s : gd_state) (ev : gd_event) : option gd_event_cb :=
  match s, ev with
  | STATE_READ_ATA_CMD, EVENT_ATA_CMD => Some cb_gdrom_ata_cmd
  | STATE_READ_ATA_CMD, _ => None
  | STATE_READ_ATA_DATA, EVENT_ATA_CMD => Some cb_gdrom_ata_cmd
  | STATE_READ_ATA_DATA, EVENT_PIO_WRITE => Some cb_gdrom_pio_write
  | STATE_READ_ATA_DATA, EVENT_SPI_CMD => Some cb_gdrom_spi_cmd
  | STATE_READ_ATA_DATA, _ => None
  | STATE_READ_SPI_DATA, EVENT_ATA_CMD => Some cb_gdrom_ata_cmd
  | STATE_READ_SPI_DATA, EVENT_PIO_WRITE => Some cb_gdrom_pio_write
  | STATE_READ_SPI_DATA, EVENT_SPI_DATA => Some cb_gdrom_spi_data
  | STATE_READ_SPI_DATA, _ => None
  | STATE_WRITE_SPI_DATA, EVENT_ATA_CMD => Some cb_gdrom_ata_cmd
  | STATE_WRITE_SPI_DATA, EVENT_PIO_READ => Some cb_gdrom_pio_read
  | STATE_WRITE_SPI_DATA, _ => None
  | STATE_WRITE_DMA_DATA, EVENT_ATA_CMD => Some cb_gdrom_ata_cmd
  | STATE_WRITE_DMA_DATA, EVENT_PIO_READ => Some cb_gdrom_pio_read
  | STATE_WRITE_DMA_DATA, _ => None
  end.

(** ** Protocol enumerations of gdrom_types.h

    The header is not among the sources.  The case labels of the source's
    [switch] statements are kept as constructors; which numeric code
    selects which label is a parameter ([gd_types] below). *)

Inductive gd_ata_cmd : Type :=
| GD_ATA_NOP
| GD_ATA_SOFT_RESET
| GD_ATA_EXEC_DIAG
| GD_ATA_PACKET_CMD
| GD_ATA_IDENTIFY_DEV
| GD_ATA_SET_FEATURES.

Inductive gd_spi_cmd : Type :=
| GD_SPI_TEST_UNIT
| GD_SPI_REQ_STAT
| GD_SPI_REQ_MODE
| GD_SPI_SET_MODE
| GD_SPI_REQ_ERROR
| GD_SPI_GET_TOC
| GD_SPI_REQ_SES
| GD_SPI_CD_OPEN
| GD_SPI_CD_PLAY
| GD_SPI_CD_SEEK
| GD_SPI_CD_SCAN
| GD_SPI_CD_READ
| GD_SPI_CD_READ2
| GD_SPI_GET_SCD
| GD_SPI_CHK_SECU
| GD_SPI_REQ_SECU.

Inductive gd_seek_type : Type :=
| GD_SEEK_FAD
| GD_SEEK_MSF
| GD_SEEK_STOP
| GD_SEEK_PAUSE.

(** ** Registers

    Each register is a union of [full] with named bit-fields.  A register
    is kept as the record of the fields the source names plus the
    remaining bits; [X.full = 0] is the all-zero record. *)

Record gd_error : Type := mk_error {
  ABRT : bool;
  error_rest : Z
}.

Definition error_zero : gd_error := mk_error false 0.

Record gd_intreason : Type := mk_intreason {
  CoD : bool;
  IO : bool;
  ireason_rest : Z
}.

Record gd_sectnum : Type := mk_sectnum {
  sectnum_status : Z;    (* sectnum.status *)
  sectnum_format : Z;    (* sectnum.format *)
  sectnum_rest : Z
}.

Definition sectnum_zero : gd_sectnum := mk_sectnum 0 0 0.

Record gd_status : Type := mk_status {
  CHECK_ : bool;         (* status.CHECK *)
  DRQ : bool;
  DRDY : bool;
  BSY : bool;
  status_rest : Z
}.

Definition status_zero : gd_status := mk_status false false false false 0.

Definition set_ABRT (v : bool) (r : gd_error) : gd_error :=
  mk_error v (error_rest r).

Definition set_CoD (v : bool) (r : gd_intreason) : gd_intreason :=
  mk_intreason v (IO r) (ireason_rest r).
Definition set_IO (v : bool) (r : gd_intreason) : gd_intreason :=
  mk_intreason (CoD r) v (ireason_rest r).

Definition set_sectnum_status (v : Z) (r : gd_sectnum) : gd_sectnum :=
  mk_sectnum v (sectnum_format r) (sectnum_rest r).
Definition set_sectnum_format (v : Z) (r : gd_sectnum) : gd_sectnum :=
  mk_sectnum (sectnum_status r) v (sectnum_rest r).

Definition set_CHECK (v : bool) (r : gd_status) : gd_status :=
  mk_status v (DRQ r) (DRDY r) (BSY r) (status_rest r).
Definition set_DRQ (v : bool) (r : gd_status) : gd_status :=
  mk_status (CHECK_ r) v (DRDY r) (BSY r) (status_rest r).
Definition set_DRDY (v : bool) (r : gd_status) : gd_status :=
  mk_status (CHECK_ r) (DRQ r) v (BSY r) (status_rest r).
Definition set_BSY (v : bool) (r : gd_status) : gd_status :=
  mk_status (CHECK_ r) (DRQ r) (DRDY r) v (status_rest r).

(** [byte_count] is the union of the 16-bit [full] with its halves [lo]
    and [hi]. *)
Definition byte_count_lo (full : Z) : Z := full mod 256.
Definition byte_count_hi (full : Z) : Z := (full / 256) mod 256.
Definition byte_count_of (lo hi : Z) : Z := (hi mod 256) * 256 + lo mod 256.

(** ** The disc collaborator (guest/gdrom/disc.h) *)

Record track : Type := mk_track {
  track_num : Z;
  track_adr : Z;
  track_ctrl : Z;
  track_fad : Z
}.

Record session : Type := mk_session {
  first_track : Z;
  leadin_fad : Z;
  leadout_fad : Z
}.

(** A disc handle: the pointer value, by which the source compares discs,
    and the answers of the collaborator's functions.  A function returning
    a pointer may return [NULL], here [None]. *)
Record disc_t : Type := mk_disc {
  disc_ptr : Z;
  disc_get_format : Z;
  disc_read_sector : Z -> Z -> Z -> list byte;   (* fad, fmt, mask *)
  disc_get_num_sessions : Z;
  disc_get_session : Z -> option session;
  disc_get_track : Z -> option track;
  disc_get_toc : Z -> option track * option track * Z * Z
}.

Definition same_disc (a b : option disc_t) : bool :=
  match a, b with
  | None, None => true
  | Some x, Some y => disc_ptr x =? disc_ptr y
  | _, _ => false
  end.

(** ** SPI reply structures (gdrom_types.h) *)

Record gd_spi_status : Type := mk_spi_status {
  stat_status : Z;
  stat_repeat : Z;
  stat_format : Z;
  stat_control : Z;
  stat_address : Z;
  stat_scd_track : Z;
  stat_scd_index : Z;
  stat_fad : Z
}.

Record gd_spi_error : Type := mk_spi_error {
  err_one : Z;
  err_rest : Z
}.

Record gd_spi_toc_entry : Type := mk_toc_entry {
  entry_adr : Z;
  entry_ctrl : Z;
  entry_fad : Z
}.

Record gd_spi_toc_track : Type := mk_toc_track {
  tt_adr : Z;
  tt_ctrl : Z;
  tt_track_num : Z;
  tt_rest : Z
}.

Record gd_spi_toc : Type := mk_toc {
  toc_entries : list gd_spi_toc_entry;
  toc_first : gd_spi_toc_track;
  toc_last : gd_spi_toc_track;
  toc_leadout_fad : Z;
  toc_leadout_rest : Z
}.

Record gd_spi_session : Type := mk_spi_session {
  ses_status : Z;
  ses_track : Z;
  ses_fad : Z
}.

(** [struct gd_hw_info], as far as [gdrom_init] names its fields; the
    strings are padded with spaces to the width of their field. *)
Record gd_hw_info : Type := mk_hw_info {
  hw_speed : Z;
  hw_standby_hi : Z;
  hw_standby_lo : Z;
  hw_read_flags : Z;
  hw_read_retry : Z;
  hw_drive_info : String.string;
  hw_system_version : String.string;
  hw_system_date : String.string
}.

(** ** What the missing headers fix

    Numeric codes, field widths and struct layouts are declared in
    gdrom_types.h, gdrom_replies.inc and disc.h.  The controller is
    modelled for any choice of them. *)
Class gd_types : Type := {
  (* the case label of [switch (cmd)] that a code selects; [None] is
     [default] *)
  ata_cmd_of : Z -> option gd_ata_cmd;
  spi_cmd_of : Z -> option gd_spi_cmd;
  seek_type_of : Z -> option gd_seek_type;
  (* enum gd_drive_status, enum gd_audio_status *)
  GD_STATUS_PAUSE : Z;
  GD_STATUS_STANDBY : Z;
  GD_STATUS_NODISC : Z;
  GD_AUDIO_NOSTATUS : byte;
  GD_SPI_SCD_SIZE : Z;
  (* features.dma *)
  features_dma : Z -> Z;
  (* struct layouts: the bytes of a struct, [sizeof] being their number *)
  sizeof_hw_info : Z;
  bytes_of_status : gd_spi_status -> list byte;
  bytes_of_error : gd_spi_error -> list byte;
  bytes_of_toc : gd_spi_toc -> list byte;
  bytes_of_session : gd_spi_session -> list byte;
  (* the struct after memset(toc, 0xff, sizeof toc[0]) *)
  toc_ones : gd_spi_toc;
  (* gdrom_replies.inc *)
  reply_71 : list byte;
  bytes_of_hw_info : gd_hw_info -> list byte;
  (* disc.h *)
  DISC_MAX_SECTOR_SIZE : Z;
  (* whether disc_get_meta accepts the handle it is given, which is null
     when the disc is detached *)
  disc_get_meta_defined : option disc_t -> bool
}.

(** ** The interrupt sink (guest/holly): the calls made on line
    [HOLLY_INT_G1GDINT], most recent first *)

Inductive holly_call : Type :=
| holly_raise_interrupt
| holly_clear_interrupt.

(** ** [struct gdrom] *)

Record gdrom : Type := mk_gdrom {
  state : gd_state;
  hw_info : buffer;
  disc : option disc_t;
  (* internal registers *)
  error : gd_error;
  features : Z;
  ireason : gd_intreason;
  sectnum : gd_sectnum;
  byte_count : Z;
  status : gd_status;
  (* cdread state *)
  cdr_dma : Z;
  cdr_secfmt : Z;
  cdr_secmask : Z;
  cdr_first_sector : Z;
  cdr_num_sectors : Z;
  (* pio state *)
  pio_buffer : buffer;
  pio_head : Z;
  pio_size : Z;
  pio_offset : Z;
  (* dma state *)
  dma_buffer : buffer;
  dma_head : Z;
  dma_size : Z;
  (* gd->holly *)
  holly : list holly_call
}.

(** Field assignment [gd->f = v]. *)
Definition set_state (v : gd_state) (gd : gdrom) : gdrom :=
  mk_gdrom v (hw_info gd) (disc gd) (error gd) (features gd) (ireason gd)
    (sectnum gd) (byte_count gd) (status gd) (cdr_dma gd) (cdr_secfmt gd)
    (cdr_secmask gd) (cdr_first_sector gd) (cdr_num_sectors gd)
    (pio_buffer gd) (pio_head gd) (pio_size gd) (pio_offset gd)
    (dma_buffer gd) (dma_head gd) (dma_size gd) (holly gd).

Definition set_hw_info (v : buffer) (gd : gdrom) : gdrom :=
  mk_gdrom (state gd) v (disc gd) (error gd) (features gd) (ireason gd)
    (sectnum gd) (byte_count gd) (status gd) (cdr_dma gd) (cdr_secfmt gd)
    (cdr_secmask gd) (cdr_first_sector gd) (cdr_num_sectors gd)
    (pio_buffer gd) (pio_head gd) (pio_size gd) (pio_offset gd)
    (dma_buffer gd) (dma_head gd) (dma_size gd) (holly gd).

Definition set_disc (v : option disc_t) (gd : gdrom) : gdrom :=
  mk_gdrom (state gd) (hw_info gd) v (error gd) (features gd) (ireason gd)
    (sectnum gd) (byte_count gd) (status gd) (cdr_dma gd) (cdr_secfmt gd)
    (cdr_secmask gd) (cdr_first_sector gd) (cdr_num_sectors gd)
    (pio_buffer gd) (pio_head gd) (pio_size gd) (pio_offset gd)
    (dma_buffer gd) (dma_head gd) (dma_size gd) (holly gd).

Definition set_error (v : gd_error) (gd : gdrom) : gdrom :=
  mk_gdrom (state gd) (hw_info gd) (disc gd) v (features gd) (ireason gd)
    (sectnum gd) (byte_count gd) (status gd) (cdr_dma gd) (cdr_secfmt gd)
    (cdr_secmask gd) (cdr_first_sector gd) (cdr_num_sectors gd)
    (pio_buffer gd) (pio_head gd) (pio_size gd) (pio_offset gd)
    (dma_buffer gd) (dma_head gd) (dma_size gd) (holly gd).

Definition set_features (v : Z) (gd : gdrom) : gdrom :=
  mk_gdrom (state gd) (hw_info gd) (disc gd) (error gd) v (ireason gd)
    (sectnum gd) (byte_count gd) (status gd) (cdr_dma gd) (cdr_secfmt gd)
    (cdr_secmask gd) (cdr_first_sector gd) (cdr_num_sectors gd)
    (pio_buffer gd) (pio_head gd) (pio_size gd) (pio_offset gd)
    (dma_buffer gd) (dma_head gd) (dma_size gd) (holly gd).

Definition set_ireason (v : gd_intreason) (gd : gdrom) : gdrom :=
  mk_gdrom (state gd) (hw_info gd) (disc gd) (error gd) (features gd) v
    (sectnum gd) (byte_count gd) (status gd) (cdr_dma gd) (cdr_secfmt gd)
    (cdr_secmask gd) (cdr_first_sector gd) (cdr_num_sectors gd)
    (pio_buffer gd) (pio_head gd) (pio_size gd) (pio_offset gd)
    (dma_buffer gd) (dma_head gd) (dma_size gd) (holly gd).

Definition set_sectnum (v : gd_sectnum) (gd : gdrom) : gdrom :=
  mk_gdrom (state gd) (hw_info gd) (disc gd) (error gd) (features gd)
    (ireason gd) v (byte_count gd) (status gd) (cdr_dma gd) (cdr_secfmt gd)
    (cdr_secmask gd) (cdr_first_sector gd) (cdr_num_sectors gd)
    (pio_buffer gd) (pio_head gd) (pio_size gd) (pio_offset gd)
    (dma_buffer gd) (dma_head gd) (dma_size gd) (holly gd).

Definition set_byte_count (v : Z) (gd : gdrom) : gdrom :=
  mk_gdrom (state gd) (hw_info gd) (disc gd) (error gd) (features gd)
    (ireason gd) (sectnum gd) v (status gd) (cdr_dma gd) (cdr_secfmt gd)
    (cdr_secmask gd) (cdr_first_sector gd) (cdr_num_sectors gd)
    (pio_buffer gd) (pio_head gd) (pio_size gd) (pio_offset gd)
    (dma_buffer gd) (dma_head gd) (dma_size gd) (holly gd).

Definition set_status (v : gd_status) (gd : gdrom) : gdrom :=
  mk_gdrom (state gd) (hw_info gd) (disc gd) (error gd) (features gd)
    (ireason gd) (sectnum gd) (byte_count gd) v (cdr_dma gd) (cdr_secfmt gd)
    (cdr_secmask gd) (cdr_first_sector gd) (cdr_num_sectors gd)
    (pio_buffer gd) (pio_head gd) (pio_size gd) (pio_offset gd)
    (dma_buffer gd) (dma_head gd) (dma_size gd) (holly gd).

Definition set_cdr_dma (v : Z) (gd : gdrom) : gdrom :=
  mk_gdrom (state gd) (hw_info gd) (disc gd) (error gd) (features gd)
    (ireason gd) (sectnum gd) (byte_count gd) (status gd) v (cdr_secfmt gd)
    (cdr_secmask gd) (cdr_first_sector gd) (cdr_num_sectors gd)
    (pio_buffer gd) (pio_head gd) (pio_size gd) (pio_offset gd)
    (dma_buffer gd) (dma_head gd) (dma_size gd) (holly gd).

Definition set_cdr_secfmt (v : Z) (gd : gdrom) : gdrom :=
  mk_gdrom (state gd) (hw_info gd) (disc gd) (error gd) (features gd)
    (ireason gd) (sectnum gd) (byte_count gd) (status gd) (cdr_dma gd) v
    (cdr_secmask gd) (cdr_first_sector gd) (cdr_num_sectors gd)
    (pio_buffer gd) (pio_head gd) (pio_size gd) (pio_offset gd)
    (dma_buffer gd) (dma_head gd) (dma_size gd) (holly gd).

Definition set_cdr_secmask (v : Z) (gd : gdrom) : gdrom :=
  mk_gdrom (state gd) (hw_info gd) (disc gd) (error gd) (features gd)
    (ireason gd) (sectnum gd) (byte_count gd) (status gd) (cdr_dma gd)
    (cdr_secfmt gd) v (cdr_first_sector gd) (cdr_num_sectors gd)
    (pio_buffer gd) (pio_head gd) (pio_size gd) (pio_offset gd)
    (dma_buffer gd) (dma_head gd) (dma_size gd) (holly gd).

Definition set_cdr_first_sector (v : Z) (gd : gdrom) : gdrom :=
  mk_gdrom (state gd) (hw_info gd) (disc gd) (error gd) (features gd)
    (ireason gd) (sectnum gd) (byte_count gd) (status gd) (cdr_dma gd)
    (cdr_secfmt gd) (cdr_secmask gd) v (cdr_num_sectors gd) (pio_buffer gd)
    (pio_head gd) (pio_size gd) (pio_offset gd) (dma_buffer gd) (dma_head gd)
    (dma_size gd) (holly gd).

Definition set_cdr_num_sectors (v : Z) (gd : gdrom) : gdrom :=
  mk_gdrom (state gd) (hw_info gd) (disc gd) (error gd) (features gd)
    (ireason gd) (sectnum gd) (byte_count gd) (status gd) (cdr_dma gd)
    (cdr_secfmt gd) (cdr_secmask gd) (cdr_first_sector gd) v (pio_buffer gd)
    (pio_head gd) (pio_size gd) (pio_offset gd) (dma_buffer gd) (dma_head gd)
    (dma_size gd) (holly gd).

Definition set_pio_buffer (v : buffer) (gd : gdrom) : gdrom :=
  mk_gdrom (state gd) (hw_info gd) (disc gd) (error gd) (features gd)
    (ireason gd) (sectnum gd) (byte_count gd) (status gd) (cdr_dma gd)
    (cdr_secfmt gd) (cdr_secmask gd) (cdr_first_sector gd)
    (cdr_num_sectors gd) v (pio_head gd) (pio_size gd) (pio_offset gd)
    (dma_buffer gd) (dma_head gd) (dma_size gd) (holly gd).

Definition set_pio_head (v : Z) (gd : gdrom) : gdrom :=
  mk_gdrom (state gd) (hw_info gd) (disc gd) (error gd) (features gd)
    (ireason gd) (sectnum gd) (byte_count gd) (status gd) (cdr_dma gd)
    (cdr_secfmt gd) (cdr_secmask gd) (cdr_first_sector gd)
    (cdr_num_sectors gd) (pio_buffer gd) v (pio_size gd) (pio_offset gd)
    (dma_buffer gd) (dma_head gd) (dma_size gd) (holly gd).

Definition set_pio_size (v : Z) (gd : gdrom) : gdrom :=
  mk_gdrom (state gd) (hw_info gd) (disc gd) (error gd) (features gd)
    (ireason gd) (sectnum gd) (byte_count gd) (status gd) (cdr_dma gd)
    (cdr_secfmt gd) (cdr_secmask gd) (cdr_first_sector gd)
    (cdr_num_sectors gd) (pio_buffer gd) (pio_head gd) v (pio_offset gd)
    (dma_buffer gd) (dma_head gd) (dma_size gd) (holly gd).

Definition set_pio_offset (v : Z) (gd : gdrom) : gdrom :=
  mk_gdrom (state gd) (hw_info gd) (disc gd) (error gd) (features gd)
    (ireason gd) (sectnum gd) (byte_count gd) (status gd) (cdr_dma gd)
    (cdr_secfmt gd) (cdr_secmask gd) (cdr_first_sector gd)
    (cdr_num_sectors gd) (pio_buffer gd) (pio_head gd) (pio_size gd) v
    (dma_buffer gd) (dma_head gd) (dma_size gd) (holly gd).

Definition set_dma_buffer (v : buffer) (gd : gdrom) : gdrom :=
  mk_gdrom (state gd) (hw_info gd) (disc gd) (error gd) (features gd)
    (ireason gd) (sectnum gd) (byte_count gd) (status gd) (cdr_dma gd)
    (cdr_secfmt gd) (cdr_secmask gd) (cdr_first_sector gd)
    (cdr_num_sectors gd) (pio_buffer gd) (pio_head gd) (pio_size gd)
    (pio_offset gd) v (dma_head gd) (dma_size gd) (holly gd).

Definition set_dma_head (v : Z) (gd : gdrom) : gdrom :=
  mk_gdrom (state gd) (hw_info gd) (disc gd) (error gd) (features gd)
    (ireason gd) (sectnum gd) (byte_count gd) (status gd) (cdr_dma gd)
    (cdr_secfmt gd) (cdr_secmask gd) (cdr_first_sector gd)
    (cdr_num_sectors gd) (pio_buffer gd) (pio_head gd) (pio_size gd)
    (pio_offset gd) (dma_buffer gd) v (dma_size gd) (holly gd).

Definition set_dma_size (v : Z) (gd : gdrom) : gdrom :=
  mk_gdrom (state gd) (hw_info gd) (disc gd) (error gd) (features gd)
    (ireason gd) (sectnum gd) (byte_count gd) (status gd) (cdr_dma gd)
    (cdr_secfmt gd) (cdr_secmask gd) (cdr_first_sector gd)
    (cdr_num_sectors gd) (pio_buffer gd) (pio_head gd) (pio_size gd)
    (pio_offset gd) (dma_buffer gd) (dma_head gd) v (holly gd).

Definition set_holly (v : list holly_call) (gd : gdrom) : gdrom :=
  mk_gdrom (state gd) (hw_info gd) (disc gd) (error gd) (features gd)
    (ireason gd) (sectnum gd) (byte_count gd) (status gd) (cdr_dma gd)
    (cdr_secfmt gd) (cdr_secmask gd) (cdr_first_sector gd)
    (cdr_num_sectors gd) (pio_buffer gd) (pio_head gd) (pio_size gd)
    (pio_offset gd) (dma_buffer gd) (dma_head gd) (dma_size gd) v.

Definition raise_interrupt (gd : gdrom) : gdrom :=
  set_holly (holly_raise_interrupt :: holly gd) gd.

Definition clear_interrupt (gd : gdrom) : gdrom :=
  set_holly (holly_clear_interrupt :: holly gd) gd.

(** [data[k]] for [uint8_t *data = gd->pio_buffer]. *)
Definition pio_data (gd : gdrom) (k : Z) : Z := Z_of_byte (pio_buffer gd k).

(** ** The controller *)

Section Gdrom.

Context {T : gd_types}.

Definition gdrom_get_fad (a b c : byte) (msf : Z) : Z :=
  let a := Z_of_byte a in
  let b := Z_of_byte b in
  let c := Z_of_byte c in
  if negb (msf =? 0) then
    (* MSF mode *)
    (a * 60 * 75) + (b * 75) + c
  else
    (* FAD mode *)
    Z.lor (Z.lor (Z.shiftl a 16) (Z.shiftl b 8)) c.

Definition gdrom_spi_end (gd : gdrom) : gdrom :=
  let gd := set_ireason (set_IO true (ireason gd)) gd in
  let gd := set_ireason (set_CoD true (ireason gd)) gd in
  let gd := set_status (set_DRDY true (status gd)) gd in
  let gd := set_status (set_BSY false (status gd)) gd in
  let gd := set_status (set_DRQ false (status gd)) gd in
  let gd := raise_interrupt gd in
  set_state STATE_READ_ATA_CMD gd.

(** The loop of [gdrom_read_sectors]: [count] iterations are left, [i] is
    the next sector and [read] the bytes stored at [dst] so far.  The
    collaborator writes a sector into [data[DISC_MAX_SECTOR_SIZE]]. *)
Fixpoint read_sectors_loop (d : disc_t) (fmt mask dst_size : Z)
    (count : nat) (i : Z) (read : list byte) : result (list byte) :=
  match count with
  | O => Ok read
  | S count' =>
    let data := disc_read_sector d i fmt mask in
    let n := len data in
    DEFINED (n <=? DISC_MAX_SECTOR_SIZE) ;;
    CHECK (len read + n <=? dst_size) ;;
    read_sectors_loop d fmt mask dst_size count' (i + 1) (read ++ data)
  end.

(** Returns the bytes stored at [dst]; the C function returns their
    number. *)
Definition gdrom_read_sectors (gd : gdrom) (fad fmt mask num_sectors : Z)
    (dst_size : Z) : result (list byte) :=
  match disc gd with
  | None => Ok []
  | Some d =>
    read_sectors_loop d fmt mask dst_size (Z.to_nat num_sectors) fad []
  end.

Definition gdrom_spi_cdread (gd : gdrom) : result gdrom :=
  if negb (cdr_dma gd =? 0) then
    let max_dma_sectors := Z.quot sizeof_dma_buffer DISC_MAX_SECTOR_SIZE in
    (* fill DMA buffer with as many sectors as possible *)
    let num_sectors := Z.min (cdr_num_sectors gd) max_dma_sectors in
    data <- gdrom_read_sectors gd (cdr_first_sector gd) (cdr_secfmt gd)
              (cdr_secmask gd) num_sectors sizeof_dma_buffer ;;
    let gd := set_dma_buffer (memcpy (dma_buffer gd) 0 data) gd in
    let gd := set_dma_size (len data) gd in
    let gd := set_dma_head 0 gd in
    (* update sector read state *)
    let gd := set_cdr_first_sector (cdr_first_sector gd + num_sectors) gd in
    let gd := set_cdr_num_sectors (cdr_num_sectors gd - num_sectors) gd in
    (* gdrom state won't be updated until DMA transfer is completed *)
    Ok (set_state STATE_WRITE_DMA_DATA gd)
  else
    let max_pio_sectors := Z.quot sizeof_pio_buffer DISC_MAX_SECTOR_SIZE in
    (* fill PIO buffer with as many sectors as possible *)
    let num_sectors := Z.min (cdr_num_sectors gd) max_pio_sectors in
    data <- gdrom_read_sectors gd (cdr_first_sector gd) (cdr_secfmt gd)
              (cdr_secmask gd) num_sectors sizeof_pio_buffer ;;
    let gd := set_pio_buffer (memcpy (pio_buffer gd) 0 data) gd in
    let gd := set_pio_size (len data) gd in
    let gd := set_pio_head 0 gd in
    (* update sector read state *)
    let gd := set_cdr_first_sector (cdr_first_sector gd + num_sectors) gd in
    let gd := set_cdr_num_sectors (cdr_num_sectors gd - num_sectors) gd in
    (* update gdrom state *)
    let gd := set_byte_count (pio_size gd) gd in
    let gd := set_ireason (set_IO true (ireason gd)) gd in
    let gd := set_ireason (set_CoD false (ireason gd)) gd in
    let gd := set_status (set_DRQ true (status gd)) gd in
    let gd := set_status (set_BSY false (status gd)) gd in
    let gd := raise_interrupt gd in
    Ok (set_state STATE_WRITE_SPI_DATA gd).

Definition gdrom_spi_read (gd : gdrom) (offset size : Z) : gdrom :=
  let gd := set_cdr_num_sectors 0 gd in
  let gd := set_pio_head 0 gd in
  let gd := set_pio_size size gd in
  let gd := set_pio_offset offset gd in
  let gd := set_byte_count size gd in
  let gd := set_ireason (set_IO true (ireason gd)) gd in
  let gd := set_ireason (set_CoD false (ireason gd)) gd in
  let gd := set_status (set_DRQ true (status gd)) gd in
  let gd := set_status (set_BSY false (status gd)) gd in
  let gd := raise_interrupt gd in
  set_state STATE_READ_SPI_DATA gd.

(** [data] holds the bytes of the source object from the pointer passed
    to the end of the object; [memcpy] must not read past them. *)
Definition gdrom_spi_write (gd : gdrom) (data : list byte) (size : Z)
    : result gdrom :=
  let gd := set_cdr_num_sectors 0 gd in
  CHECK (size <? sizeof_pio_buffer) ;;
  DEFINED ((0 <=? size) && (size <=? len data)) ;;
  let gd :=
    set_pio_buffer (memcpy (pio_buffer gd) 0 (firstn (Z.to_nat size) data)) gd in
  let gd := set_pio_size size gd in
  let gd := set_pio_head 0 gd in
  let gd := set_byte_count (pio_size gd) gd in
  let gd := set_ireason (set_IO true (ireason gd)) gd in
  let gd := set_ireason (set_CoD false (ireason gd)) gd in
  let gd := set_status (set_DRQ true (status gd)) gd in
  let gd := set_status (set_BSY false (status gd)) gd in
  let gd := raise_interrupt gd in
  Ok (set_state STATE_WRITE_SPI_DATA gd).

Definition gdrom_ata_end (gd : gdrom) : gdrom :=
  let gd := set_status (set_DRDY true (status gd)) gd in
  let gd := set_status (set_BSY false (status gd)) gd in
  let gd := raise_interrupt gd in
  set_state STATE_READ_ATA_CMD gd.

Definition gdrom_spi_data (gd : gdrom) (arg : Z) : result gdrom :=
  (* only used by SET_MODE *)
  let offset := pio_offset gd in
  let size := pio_size gd in
  DEFINED ((0 <=? offset) && (0 <=? size)
          && (offset + size <=? sizeof_hw_info)
          && (size <=? sizeof_pio_buffer)) ;;
  let gd :=
    set_hw_info (memcpy (hw_info gd) offset (load (pio_buffer gd) 0 size)) gd in
  Ok (gdrom_spi_end gd).

Definition gdrom_pio_read (gd : gdrom) (arg : Z) : result gdrom :=
  if pio_head gd =? pio_size gd then
    if negb (cdr_num_sectors gd =? 0) then
      gdrom_spi_cdread gd
    else
      Ok (gdrom_spi_end gd)
  else
    Ok gd.

(** *** Reply structures *)

Definition store (b : buffer) (i : Z) (v : byte) : buffer :=
  fun j => if j =? i then v else b j.

Definition gdrom_get_subcode (gd : gdrom) (format size : Z)
    : result (list byte) :=
  CHECK (match disc gd with Some _ => true | None => false end) ;;
  CHECK (size >=? GD_SPI_SCD_SIZE) ;;
  (* FIXME implement *)
  let data : buffer := fun _ => x00 in
  DEFINED (1 <? GD_SPI_SCD_SIZE) ;;
  let data := store data 1 GD_AUDIO_NOSTATUS in
  data <-
    (if format =? 0 then
       DEFINED (3 <? GD_SPI_SCD_SIZE) ;;
       Ok (store (store data 2 x00) 3 x64)
     else if format =? 1 then
       DEFINED (3 <? GD_SPI_SCD_SIZE) ;;
       Ok (store (store data 2 x00) 3 x0e)
     else Ok data) ;;
  Ok (load data 0 GD_SPI_SCD_SIZE).

Definition gdrom_get_session (gd : gdrom) (session_num : Z)
    : result gd_spi_session :=
  match disc gd with
  | None => Err Fatal
  | Some d =>
    let status := sectnum_status (sectnum gd) in
    if session_num =? 0 then
      let num_sessions := disc_get_num_sessions d in
      match disc_get_session d (num_sessions - 1) with
      | None => Err Undefined
      | Some last_session =>
        Ok (mk_spi_session status num_sessions (leadout_fad last_session))
      end
    else
      match disc_get_session d (session_num - 1) with
      | None => Err Undefined
      | Some session =>
        match disc_get_track d (first_track session) with
        | None => Err Undefined
        | Some first_track =>
          Ok (mk_spi_session status (track_num first_track)
                (track_fad first_track))
        end
      end
  end.

Fixpoint list_set {A : Type} (l : list A) (i : nat) (v : A) : list A :=
  match l, i with
  | [], _ => []
  | _ :: l', O => v :: l'
  | x :: l', S i' => x :: list_set l' i' v
  end.

(** The loop of [gdrom_get_toc] writing one entry per track. *)
Fixpoint toc_entries_loop (d : disc_t) (count : nat) (i : Z)
    (entries : list gd_spi_toc_entry) : result (list gd_spi_toc_entry) :=
  match count with
  | O => Ok entries
  | S count' =>
    match disc_get_track d (i - 1) with
    | None => Err Undefined
    | Some track =>
      DEFINED ((0 <=? i - 1) && (i - 1 <? Z.of_nat (length entries))) ;;
      let entry :=
        mk_toc_entry (track_adr track) (track_ctrl track) (track_fad track) in
      toc_entries_loop d count' (i + 1)
        (list_set entries (Z.to_nat (i - 1)) entry)
    end
  end.

Definition gdrom_get_toc (gd : gdrom) (area : Z) : result gd_spi_toc :=
  match disc gd with
  | None => Err Fatal
  | Some d =>
    match disc_get_toc d area with
    | (Some first_track, Some last_track, leadin_fad, leadout_fad) =>
      (* 0xffffffff represents an invalid track *)
      let toc := toc_ones in
      (* write out entries for each track *)
      entries <-
        toc_entries_loop d
          (Z.to_nat (track_num last_track - track_num first_track + 1))
          (track_num first_track) (toc_entries toc) ;;
      Ok (mk_toc entries
            (mk_toc_track (track_adr first_track) (track_ctrl first_track)
               (track_num first_track) (tt_rest (toc_first toc)))
            (mk_toc_track (track_adr last_track) (track_ctrl last_track)
               (track_num last_track) (tt_rest (toc_last toc)))
            leadout_fad (toc_leadout_rest toc))
    | _ => Err Undefined
    end
  end.

Definition gdrom_get_error (gd : gdrom) : result gd_spi_error :=
  CHECK (match disc gd with Some _ => true | None => false end) ;;
  let err := mk_spi_error 0xf 0 in
  (* TODO implement the sense key / code information *)
  CHECK (len (bytes_of_error err) =? 10) ;;
  Ok err.

Definition gdrom_get_status (gd : gdrom) : result gd_spi_status :=
  CHECK (match disc gd with Some _ => true | None => false end) ;;
  Ok (mk_spi_status (sectnum_status (sectnum gd)) 0
        (sectnum_format (sectnum gd)) 0x4 0 2 0 0x0).

(** *** The SPI packet processor *)

Definition gdrom_spi_cmd (gd : gdrom) (arg : Z) : result gdrom :=
  let data := pio_data gd in
  let cmd := data 0 in
  let gd := set_status (set_DRQ false (status gd)) gd in
  let gd := set_status (set_BSY true (status gd)) gd in
  match spi_cmd_of cmd with
  (*
   * packet command flow for pio data to host
   *)
  | Some GD_SPI_REQ_STAT =>
    let offset := data 2 in
    let size := data 4 in
    stat <- gdrom_get_status gd ;;
    (* bswap multibyte values to BE *)
    let stat :=
      mk_spi_status (stat_status stat) (stat_repeat stat) (stat_format stat)
        (stat_control stat) (stat_address stat) (stat_scd_track stat)
        (stat_scd_index stat) (bswap24 (stat_fad stat)) in
    gdrom_spi_write gd (skipn (Z.to_nat offset) (bytes_of_status stat)) size
  | Some GD_SPI_REQ_MODE =>
    let offset := data 2 in
    let size := data 4 in
    gdrom_spi_write gd (load (hw_info gd) offset (sizeof_hw_info - offset)) size
  | Some GD_SPI_REQ_ERROR =>
    let size := data 4 in
    err <- gdrom_get_error gd ;;
    gdrom_spi_write gd (bytes_of_error err) size
  | Some GD_SPI_GET_TOC =>
    let area := Z.land (data 1) 0x1 in
    let size := Z.lor (Z.shiftl (data 3) 8) (data 4) in
    toc <- gdrom_get_toc gd area ;;
    (* bswap multibyte values to BE *)
    let toc :=
      mk_toc
        (map (fun entry =>
                mk_toc_entry (entry_adr entry) (entry_ctrl entry)
                  (bswap24 (entry_fad entry)))
             (toc_entries toc))
        (toc_first toc) (toc_last toc)
        (bswap24 (toc_leadout_fad toc)) (toc_leadout_rest toc) in
    gdrom_spi_write gd (bytes_of_toc toc) size
  | Some GD_SPI_REQ_SES =>
    let session := data 2 in
    let size := data 4 in
    ses <- gdrom_get_session gd session ;;
    (* bswap multibyte values to BE *)
    let ses :=
      mk_spi_session (ses_status ses) (ses_track ses) (bswap24 (ses_fad ses)) in
    gdrom_spi_write gd (bytes_of_session ses) (len (bytes_of_session ses))
  | Some GD_SPI_GET_SCD =>
    let format := Z.land (data 1) 0xf in
    let size := Z.lor (Z.shiftl (data 3) 8) (data 4) in
    scd <- gdrom_get_subcode gd format GD_SPI_SCD_SIZE ;;
    gdrom_spi_write gd scd size
  | Some GD_SPI_CD_READ =>
    let msf := Z.land (data 1) 0x1 in
    let gd := set_cdr_dma (features_dma (features gd)) gd in
    let gd := set_cdr_secfmt (Z.shiftr (Z.land (data 1) 0xe) 1) gd in
    let gd := set_cdr_secmask (Z.land (Z.shiftr (data 1) 4) 0xff) gd in
    let gd :=
      set_cdr_first_sector
        (gdrom_get_fad (pio_buffer gd 2) (pio_buffer gd 3) (pio_buffer gd 4)
           msf) gd in
    let gd :=
      set_cdr_num_sectors
        (Z.lor (Z.lor (Z.shiftl (data 8) 16) (Z.shiftl (data 9) 8)) (data 10))
        gd in
    gdrom_spi_cdread gd
  | Some GD_SPI_CD_READ2 => Err Fatal
  (*
   * packet command flow for pio data from host
   *)
  | Some GD_SPI_SET_MODE =>
    let offset := data 2 in
    let size := data 4 in
    Ok (gdrom_spi_read gd offset size)
  (*
   * non-data command flow
   *)
  | Some GD_SPI_TEST_UNIT => Ok (gdrom_spi_end gd)
  | Some GD_SPI_CD_OPEN => Err Fatal
  | Some GD_SPI_CD_PLAY =>
    let gd := set_sectnum (set_sectnum_status GD_STATUS_PAUSE (sectnum gd)) gd in
    Ok (gdrom_spi_end gd)
  | Some GD_SPI_CD_SEEK =>
    let param_type := Z.land (data 1) 0xf in
    let gd :=
      match seek_type_of param_type with
      | Some GD_SEEK_FAD | Some GD_SEEK_MSF | Some GD_SEEK_PAUSE =>
        set_sectnum (set_sectnum_status GD_STATUS_PAUSE (sectnum gd)) gd
      | Some GD_SEEK_STOP =>
        set_sectnum (set_sectnum_status GD_STATUS_STANDBY (sectnum gd)) gd
      | None => gd
      end in
    Ok (gdrom_spi_end gd)
  | Some GD_SPI_CD_SCAN =>
    let gd := set_sectnum (set_sectnum_status GD_STATUS_PAUSE (sectnum gd)) gd in
    Ok (gdrom_spi_end gd)
  | Some GD_SPI_CHK_SECU => Ok (gdrom_spi_end gd)
  | Some GD_SPI_REQ_SECU => gdrom_spi_write gd reply_71 (len reply_71)
  | None => Err Fatal
  end.

(** *** Disc attach and soft reset *)

Definition gdrom_set_disc (gd : gdrom) (d : option disc_t) : result gdrom :=
  gd <-
    (if negb (same_disc (disc gd) d) then
       (* disc_destroy(gd->disc) releases the previous disc *)
       let gd := set_disc d gd in
       (* print meta info *)
       DEFINED (disc_get_meta_defined (disc gd)) ;;
       Ok gd
     else Ok gd) ;;
  (* perform "soft reset" of internal state *)
  let gd := set_error error_zero gd in
  let gd := set_status status_zero gd in
  let gd := set_status (set_DRDY true (status gd)) gd in
  let gd := set_status (set_BSY false (status gd)) gd in
  let gd := set_sectnum sectnum_zero gd in
  match disc gd with
  | Some _ =>
    let gd := set_sectnum (set_sectnum_status GD_STATUS_PAUSE (sectnum gd)) gd in
    match d with
    | Some disc =>
      Ok (set_sectnum (set_sectnum_format (disc_get_format disc) (sectnum gd)) gd)
    | None => Err Undefined
    end
  | None =>
    Ok (set_sectnum (set_sectnum_status GD_STATUS_NODISC (sectnum gd)) gd)
  end.

(** *** The ATA command processor *)

Definition gdrom_ata_cmd (gd : gdrom) (cmd : Z) : result gdrom :=
  let read_data := false in
  let gd := set_status (set_DRDY false (status gd)) gd in
  let gd := set_status (set_BSY true (status gd)) gd in
  (* error bits represent the status of the most recent command, clear
     before processing a new command *)
  let gd := set_error error_zero gd in
  let gd := set_status (set_CHECK false (status gd)) gd in
  r <-
    match ata_cmd_of cmd with
    | Some GD_ATA_NOP =>
      (* terminates the current command *)
      let gd := set_error (set_ABRT true (error gd)) gd in
      let gd := set_status (set_CHECK true (status gd)) gd in
      Ok (gd, read_data)
    | Some GD_ATA_SOFT_RESET =>
      gd <- gdrom_set_disc gd (disc gd) ;;
      Ok (gd, read_data)
    | Some GD_ATA_EXEC_DIAG => Err Fatal
    | Some GD_ATA_PACKET_CMD => Ok (gd, true)
    | Some GD_ATA_IDENTIFY_DEV => Err Fatal
    | Some GD_ATA_SET_FEATURES =>
      (* transfer mode settings are ignored *)
      Ok (gd, read_data)
    | None => Err Fatal
    end ;;
  let '(gd, read_data) := r in
  if read_data then
    let gd := set_pio_head 0 gd in
    let gd := set_ireason (set_CoD true (ireason gd)) gd in
    let gd := set_ireason (set_IO false (ireason gd)) gd in
    let gd := set_status (set_DRQ true (status gd)) gd in
    let gd := set_status (set_BSY false (status gd)) gd in
    Ok (set_state STATE_READ_ATA_DATA gd)
  else
    Ok (gdrom_ata_end gd).

(** *** Event dispatch

    [gdrom_pio_write] re-enters [gdrom_event]; the handlers it reaches
    that way do not, so the nesting is two deep.  [event] is the
    dispatcher to re-enter. *)

Definition gd_state_eqb (a b : gd_state) : bool :=
  match a, b with
  | STATE_READ_ATA_CMD, STATE_READ_ATA_CMD
  | STATE_READ_ATA_DATA, STATE_READ_ATA_DATA
  | STATE_READ_SPI_DATA, STATE_READ_SPI_DATA
  | STATE_WRITE_SPI_DATA, STATE_WRITE_SPI_DATA
  | STATE_WRITE_DMA_DATA, STATE_WRITE_DMA_DATA => true
  | _, _ => false
  end.

Definition gdrom_pio_write
    (event : gdrom -> gd_event -> Z -> result gdrom)
    (gd : gdrom) (arg : Z) : result gdrom :=
  if gd_state_eqb (state gd) STATE_READ_ATA_DATA
     && (pio_head gd =? GD_SPI_CMD_SIZE) then
    event gd EVENT_SPI_CMD 0
  else if gd_state_eqb (state gd) STATE_READ_SPI_DATA
          && (pio_head gd =? pio_size gd) then
    event gd EVENT_SPI_DATA 0
  else
    Ok gd.

(** [cb(gd, arg)]. *)
Definition gd_call (event : gdrom -> gd_event -> Z -> result gdrom)
    (cb : gd_event_cb) (gd : gdrom) (arg : Z) : result gdrom :=
  match cb with
  | cb_gdrom_ata_cmd => gdrom_ata_cmd gd arg
  | cb_gdrom_pio_write => gdrom_pio_write event gd arg
  | cb_gdrom_spi_cmd => gdrom_spi_cmd gd arg
  | cb_gdrom_pio_read => gdrom_pio_read gd arg
  | cb_gdrom_spi_data => gdrom_spi_data gd arg
  end.

Fixpoint gdrom_event_fuel (fuel : nat) (gd : gdrom) (ev : gd_event) (arg : Z)
    : result gdrom :=
  match fuel with
  | O => Err OutOfFuel
  | S fuel' =>
    match gd_transitions (state gd) ev with
    | None => Err Fatal                          (* CHECK(cb) *)
    | Some cb => gd_call (gdrom_event_fuel fuel') cb gd arg
    end
  end.

Definition gdrom_event : gdrom -> gd_event -> Z -> result gdrom :=
  gdrom_event_fuel 2.

(** *** Sector access for the BIOS, drive mode, initialisation *)

(** The loop of [gdrom_copy_sectors]; the result is what is copied to
    the guest at [dst]. *)
Fixpoint copy_sectors_loop (gd : gdrom) (fmt mask : Z) (count : nat) (i : Z)
    (read : list byte) : result (list byte) :=
  match count with
  | O => Ok read
  | S count' =>
    tmp <- gdrom_read_sectors gd i fmt mask 1 DISC_MAX_SECTOR_SIZE ;;
    copy_sectors_loop gd fmt mask count' (i + 1) (read ++ tmp)
  end.

Definition gdrom_copy_sectors (gd : gdrom) (fad fmt mask num_sectors : Z)
    : result (list byte) :=
  match disc gd with
  | None => Ok []
  | Some _ => copy_sectors_loop gd fmt mask (Z.to_nat num_sectors) fad []
  end.

Definition gdrom_init (gd : gdrom) : result gdrom :=
  (* set default hardware information *)
  let info :=
    mk_hw_info 0x0 0x00 0xb4 0x19 0x08 "SE"%string "Rev 6.43"%string
      "990408"%string in
  let gd := set_hw_info (memcpy (hw_info gd) 0 (bytes_of_hw_info info)) gd in
  gdrom_set_disc gd None.

Definition gdrom_set_drive_mode (gd : gdrom) (info : buffer) : gdrom :=
  set_hw_info info gd.

Definition gdrom_get_drive_mode (gd : gdrom) : buffer := hw_info gd.

(** *** The DMA transfer engine *)

Definition gdrom_dma_end (gd : gdrom) : gdrom := gd.

(** Returns [n], the bytes copied to [data] and the new state. *)
Definition gdrom_dma_read (gd : gdrom) (n : Z)
    : result (Z * list byte * gdrom) :=
  (* try to read more if the current dma buffer has been completely read *)
  gd <- (if dma_head gd >=? dma_size gd then gdrom_spi_cdread gd else Ok gd) ;;
  let remaining := dma_size gd - dma_head gd in
  let n := Z.min n remaining in
  CHECK (n >? 0) ;;
  DEFINED ((0 <=? dma_head gd) && (dma_head gd + n <=? sizeof_dma_buffer)) ;;
  let data := load (dma_buffer gd) (dma_head gd) n in
  let gd := set_dma_head (dma_head gd + n) gd in
  let gd :=
    if dma_head gd >=? dma_size gd then
      (* CD_READ command is now done *)
      gdrom_spi_end gd
    else gd in
  Ok (n, data, gd).

Definition gdrom_dma_begin (gd : gdrom) : result gdrom :=
  CHECK (negb (dma_size gd =? 0)) ;;
  Ok gd.

(** *** Register handlers

    [X_r] is [REG_R32(holly_cb, X)] and [X_w] is [REG_W32(holly_cb, X)].
    The 16-bit access to the PIO buffer is little-endian, as on the hosts
    the emulator runs on. *)

Definition GD_ALTSTAT_DEVCTRL_r (gd : gdrom) : gd_status * gdrom :=
  (status gd, gd).

Definition GD_ALTSTAT_DEVCTRL_w (gd : gdrom) (value : Z) : gdrom := gd.

Definition GD_DATA_r (gd : gdrom) : result (Z * gdrom) :=
  DEFINED ((0 <=? pio_head gd) && (pio_head gd + 2 <=? sizeof_pio_buffer)) ;;
  let value :=
    Z_of_byte (pio_buffer gd (pio_head gd))
    + 256 * Z_of_byte (pio_buffer gd (pio_head gd + 1)) in
  let gd := set_pio_head (pio_head gd + 2) gd in
  gd <- gdrom_event gd EVENT_PIO_READ 0 ;;
  Ok (value, gd).

Definition GD_DATA_w (gd : gdrom) (value : Z) : result gdrom :=
  DEFINED ((0 <=? pio_head gd) && (pio_head gd + 2 <=? sizeof_pio_buffer)) ;;
  let v := Z.land value 0xffff in
  let gd :=
    set_pio_buffer
      (memcpy (pio_buffer gd) (pio_head gd)
         [byte_of_Z v; byte_of_Z (Z.shiftr v 8)]) gd in
  let gd := set_pio_head (pio_head gd + 2) gd in
  gdrom_event gd EVENT_PIO_WRITE 0.

Definition GD_ERROR_FEATURES_r (gd : gdrom) : gd_error * gdrom :=
  (error gd, gd).

Definition GD_ERROR_FEATURES_w (gd : gdrom) (value : Z) : gdrom :=
  set_features value gd.

Definition GD_INTREASON_r (gd : gdrom) : gd_intreason * gdrom :=
  (ireason gd, gd).

Definition GD_INTREASON_w (gd : gdrom) (value : Z) : result gdrom :=
  Err Fatal.

Definition GD_SECTNUM_r (gd : gdrom) : gd_sectnum * gdrom :=
  (sectnum gd, gd).

Definition GD_SECTNUM_w (gd : gdrom) (value : Z) : result gdrom :=
  Err Fatal.

Definition GD_BYCTLLO_r (gd : gdrom) : Z * gdrom :=
  (byte_count_lo (byte_count gd), gd).

Definition GD_BYCTLLO_w (gd : gdrom) (value : Z) : gdrom :=
  set_byte_count (byte_count_of value (byte_count_hi (byte_count gd))) gd.

Definition GD_BYCTLHI_r (gd : gdrom) : Z * gdrom :=
  (byte_count_hi (byte_count gd), gd).

Definition GD_BYCTLHI_w (gd : gdrom) (value : Z) : gdrom :=
  set_byte_count (byte_count_of (byte_count_lo (byte_count gd)) value) gd.

Definition GD_DRVSEL_r (gd : gdrom) : Z * gdrom := (0, gd).

Definition GD_DRVSEL_w (gd : gdrom) (value : Z) : gdrom := gd.

Definition GD_STATUS_COMMAND_r (gd : gdrom) : gd_status * gdrom :=
  let value := status gd in
  (value, clear_interrupt gd).

Definition GD_STATUS_COMMAND_w (gd : gdrom) (value : Z) : result gdrom :=
  gdrom_event gd EVENT_ATA_CMD value.

(** ** Controller operations

    Everything the rest of the emulator can ask of the controller: the
    guest's register accesses, the DMA pump, and disc attach. *)

Inductive gd_op : Type :=
| op_read_ALTSTAT
| op_write_DEVCTRL (value : Z)
| op_read_DATA
| op_write_DATA (value : Z)
| op_read_ERROR
| op_write_FEATURES (value : Z)
| op_read_INTREASON
| op_write_INTREASON (value : Z)
| op_read_SECTNUM
| op_write_SECTNUM (value : Z)
| op_read_BYCTLLO
| op_write_BYCTLLO (value : Z)
| op_read_BYCTLHI
| op_write_BYCTLHI (value : Z)
| op_read_DRVSEL
| op_write_DRVSEL (value : Z)
| op_read_STATUS
| op_write_COMMAND (value : Z)
| op_dma_begin
| op_dma_read (n : Z)
| op_dma_end
| op_set_disc (d : option disc_t)
| op_set_drive_mode (info : buffer)
| op_copy_sectors (fad fmt mask num_sectors : Z).

Definition gd_step (gd : gdrom) (op : gd_op) : result gdrom :=
  match op with
  | op_read_ALTSTAT => Ok (snd (GD_ALTSTAT_DEVCTRL_r gd))
  | op_write_DEVCTRL v => Ok (GD_ALTSTAT_DEVCTRL_w gd v)
  | op_read_DATA => r <- GD_DATA_r gd ;; Ok (snd r)
  | op_write_DATA v => GD_DATA_w gd v
  | op_read_ERROR => Ok (snd (GD_ERROR_FEATURES_r gd))
  | op_write_FEATURES v => Ok (GD_ERROR_FEATURES_w gd v)
  | op_read_INTREASON => Ok (snd (GD_INTREASON_r gd))
  | op_write_INTREASON v => GD_INTREASON_w gd v
  | op_read_SECTNUM => Ok (snd (GD_SECTNUM_r gd))
  | op_write_SECTNUM v => GD_SECTNUM_w gd v
  | op_read_BYCTLLO => Ok (snd (GD_BYCTLLO_r gd))
  | op_write_BYCTLLO v => Ok (GD_BYCTLLO_w gd v)
  | op_read_BYCTLHI => Ok (snd (GD_BYCTLHI_r gd))
  | op_write_BYCTLHI v => Ok (GD_BYCTLHI_w gd v)
  | op_read_DRVSEL => Ok (snd (GD_DRVSEL_r gd))
  | op_write_DRVSEL v => Ok (GD_DRVSEL_w gd v)
  | op_read_STATUS => Ok (snd (GD_STATUS_COMMAND_r gd))
  | op_write_COMMAND v => GD_STATUS_COMMAND_w gd v
  | op_dma_begin => gdrom_dma_begin gd
  | op_dma_read n => r <- gdrom_dma_read gd n ;; Ok (snd r)
  | op_dma_end => Ok (gdrom_dma_end gd)
  | op_set_disc d => gdrom_set_disc gd d
  | op_set_drive_mode info => Ok (gdrom_set_drive_mode gd info)
  | op_copy_sectors fad fmt mask n =>
    _ <- gdrom_copy_sectors gd fad fmt mask n ;; Ok gd
  end.

(** A sequence of operations, stopping at the first fault. *)
Fixpoint gd_run (gd : gdrom) (ops : list gd_op) : result gdrom :=
  match ops with
  | [] => Ok gd
  | op :: ops' => gd <- gd_step gd op ;; gd_run gd ops'
  end.

End Gdrom.

(** ** Notions the properties are stated with *)

(** The SPI commands that start a PIO data transfer: the data-to-host
    commands and SET_MODE. *)
Definition starts_pio_transfer (c : gd_spi_cmd) : bool :=
  match c with
  | GD_SPI_REQ_STAT | GD_SPI_REQ_MODE | GD_SPI_REQ_ERROR | GD_SPI_GET_TOC
  | GD_SPI_REQ_SES | GD_SPI_GET_SCD | GD_SPI_REQ_SECU => true
  | GD_SPI_SET_MODE => true
  | _ => false
  end.

(** The data-to-host commands among them. *)
Definition data_to_host (c : gd_spi_cmd) : bool :=
  match c with
  | GD_SPI_REQ_STAT | GD_SPI_REQ_MODE | GD_SPI_REQ_ERROR | GD_SPI_GET_TOC
  | GD_SPI_REQ_SES | GD_SPI_GET_SCD | GD_SPI_REQ_SECU => true
  | _ => false
  end.

(** The sectors [fad .. fad + n - 1] of the attached disc, nothing
    without a disc. *)
Definition disc_sectors (gd : gdrom) (fad n : Z) : list byte :=
  match disc gd with
  | None => []
  | Some d =>
    flat_map
      (fun k => disc_read_sector d (fad + Z.of_nat k) (cdr_secfmt gd)
                  (cdr_secmask gd))
      (seq 0 (Z.to_nat n))
  end.

(** What the controller keeps true of its two buffers. *)
Definition dma_buffer_ok (gd : gdrom) : Prop :=
  0 <= dma_head gd <= dma_size gd /\ dma_size gd <= sizeof_dma_buffer.

Definition pio_buffer_ok (gd : gdrom) : Prop :=
  0 <= pio_head gd <= sizeof_pio_buffer
  /\ 0 <= pio_size gd <= sizeof_pio_buffer.

Definition buffers_ok (gd : gdrom) : Prop :=
  dma_buffer_ok gd /\ pio_buffer_ok gd.

(** The controller's own code never reports [OutOfFuel]. *)
Definition fueled {A : Type} (r : result A) : Prop := r <> Err OutOfFuel.

Section Notions.

Context {T : gd_types}.

(** What [gdrom_ata_cmd] does to the registers before it looks at the
    command. *)
Definition ata_cmd_entry (gd : gdrom) : gdrom :=
  let gd := set_status (set_DRDY false (status gd)) gd in
  let gd := set_status (set_BSY true (status gd)) gd in
  let gd := set_error error_zero gd in
  set_status (set_CHECK false (status gd)) gd.

(** [sizeof(buffer) / DISC_MAX_SECTOR_SIZE], the same for both buffers. *)
Definition max_sectors : Z := Z.quot sizeof_pio_buffer DISC_MAX_SECTOR_SIZE.

(** The disc hands out no sector larger than [DISC_MAX_SECTOR_SIZE] in
    the format and mask of the CD_READ. *)
Definition sectors_fit (gd : gdrom) : Prop :=
  match disc gd with
  | None => True
  | Some d =>
    forall fad : Z,
      len (disc_read_sector d fad (cdr_secfmt gd) (cdr_secmask gd))
      <= DISC_MAX_SECTOR_SIZE
  end.

End Notions.

(** ** A concrete header and disc, for running the model

    One admissible choice of what the missing headers declare: the
    command codes of the GD-ROM protocol, 2352-byte raw sectors, and a
    byte layout for each reply structure.  Only the closed examples below
    use it; every other statement holds for all headers. *)

Definition example_ata_cmd_of (v : Z) : option gd_ata_cmd :=
  if v =? 0x00 then Some GD_ATA_NOP
  else if v =? 0x08 then Some GD_ATA_SOFT_RESET
  else if v =? 0x90 then Some GD_ATA_EXEC_DIAG
  else if v =? 0xa0 then Some GD_ATA_PACKET_CMD
  else if v =? 0xa1 then Some GD_ATA_IDENTIFY_DEV
  else if v =? 0xef then Some GD_ATA_SET_FEATURES
  else None.

Definition example_spi_cmd_of (v : Z) : option gd_spi_cmd :=
  if v =? 0x00 then Some GD_SPI_TEST_UNIT
  else if v =? 0x10 then Some GD_SPI_REQ_STAT
  else if v =? 0x11 then Some GD_SPI_REQ_MODE
  else if v =? 0x12 then Some GD_SPI_SET_MODE
  else if v =? 0x13 then Some GD_SPI_REQ_ERROR
  else if v =? 0x14 then Some GD_SPI_GET_TOC
  else if v =? 0x15 then Some GD_SPI_REQ_SES
  else if v =? 0x16 then Some GD_SPI_CD_OPEN
  else if v =? 0x20 then Some GD_SPI_CD_PLAY
  else if v =? 0x21 then Some GD_SPI_CD_SEEK
  else if v =? 0x22 then Some GD_SPI_CD_SCAN
  else if v =? 0x30 then Some GD_SPI_CD_READ
  else if v =? 0x31 then Some GD_SPI_CD_READ2
  else if v =? 0x40 then Some GD_SPI_GET_SCD
  else if v =? 0x70 then Some GD_SPI_CHK_SECU
  else if v =? 0x71 then Some GD_SPI_REQ_SECU
  else None.

Definition example_seek_type_of (v : Z) : option gd_seek_type :=
  if v =? 1 then Some GD_SEEK_FAD
  else if v =? 2 then Some GD_SEEK_MSF
  else if v =? 3 then Some GD_SEEK_STOP
  else if v =? 4 then Some GD_SEEK_PAUSE
  else None.

(** A 24-bit field as it lies in memory, low byte first. *)
Definition le24 (v : Z) : list byte :=
  [byte_of_Z v; byte_of_Z (Z.shiftr v 8); byte_of_Z (Z.shiftr v 16)].

Definition example_bytes_of_status (s : gd_spi_status) : list byte :=
  [byte_of_Z (stat_status s + 16 * stat_repeat s);
   byte_of_Z (stat_control s + 16 * stat_format s);
   byte_of_Z (stat_address s); byte_of_Z (stat_scd_track s);
   byte_of_Z (stat_scd_index s)] ++ le24 (stat_fad s) ++ [x00; x00].

Definition example_bytes_of_error (e : gd_spi_error) : list byte :=
  [byte_of_Z (err_one e)] ++ repeat x00 9.

Definition example_bytes_of_toc_entry (e : gd_spi_toc_entry) : list byte :=
  byte_of_Z (entry_adr e + 16 * entry_ctrl e) :: le24 (entry_fad e).

Definition example_bytes_of_toc_track (t : gd_spi_toc_track) : list byte :=
  [byte_of_Z (tt_adr t + 16 * tt_ctrl t); byte_of_Z (tt_track_num t);
   byte_of_Z (tt_rest t); byte_of_Z (Z.shiftr (tt_rest t) 8)].

Definition example_bytes_of_toc (t : gd_spi_toc) : list byte :=
  flat_map example_bytes_of_toc_entry (toc_entries t)
  ++ example_bytes_of_toc_track (toc_first t)
  ++ example_bytes_of_toc_track (toc_last t)
  ++ byte_of_Z (toc_leadout_rest t) :: le24 (toc_leadout_fad t).

Definition example_bytes_of_session (s : gd_spi_session) : list byte :=
  [byte_of_Z (ses_status s); x00; byte_of_Z (ses_track s)] ++ le24 (ses_fad s).

Definition pad_spaces (size : nat) (s : String.string) : list byte :=
  firstn size (String.list_byte_of_string s ++ repeat x20 size).

Definition example_bytes_of_hw_info (i : gd_hw_info) : list byte :=
  [x00; x00; byte_of_Z (hw_speed i); x00; byte_of_Z (hw_standby_hi i);
   byte_of_Z (hw_standby_lo i); byte_of_Z (hw_read_flags i); x00; x00;
   byte_of_Z (hw_read_retry i)]
  ++ pad_spaces 8 (hw_drive_info i) ++ pad_spaces 8 (hw_system_version i)
  ++ pad_spaces 6 (hw_system_date i).

Definition example_toc_ones : gd_spi_toc :=
  mk_toc (repeat (mk_toc_entry 0xf 0xf 0xffffff) 99)
    (mk_toc_track 0xf 0xf 0xff 0xffff) (mk_toc_track 0xf 0xf 0xff 0xffff)
    0xffffff 0xff.

Definition example_types : gd_types := {|
  ata_cmd_of := example_ata_cmd_of;
  spi_cmd_of := example_spi_cmd_of;
  seek_type_of := example_seek_type_of;
  GD_STATUS_PAUSE := 1;
  GD_STATUS_STANDBY := 2;
  GD_STATUS_NODISC := 7;
  GD_AUDIO_NOSTATUS := x15;
  GD_SPI_SCD_SIZE := 100;
  features_dma := fun full => full mod 2;
  sizeof_hw_info := 32;
  bytes_of_status := example_bytes_of_status;
  bytes_of_error := example_bytes_of_error;
  bytes_of_toc := example_bytes_of_toc;
  bytes_of_session := example_bytes_of_session;
  toc_ones := example_toc_ones;
  reply_71 := repeat x00 16;
  bytes_of_hw_info := example_bytes_of_hw_info;
  DISC_MAX_SECTOR_SIZE := 2352;
  disc_get_meta_defined := fun d => match d with Some _ => true | None => false end
|}.

(** A disc of one session and one track whose sectors are 2048 bytes, each
    byte of sector [fad] being [fad mod 256]. *)
Definition example_track : track := mk_track 1 1 4 150.

Definition example_disc : disc_t := {|
  disc_ptr := 1;
  disc_get_format := 8;
  disc_read_sector := fun fad fmt mask => repeat (byte_of_Z fad) 2048;
  disc_get_num_sessions := 1;
  disc_get_session := fun i =>
    if i =? 0 then Some (mk_session 0 0 1000) else None;
  disc_get_track := fun i => if i =? 0 then Some example_track else None;
  disc_get_toc := fun area => (Some example_track, Some example_track, 0, 1000)
|}.

(** Zeroed device memory, as [gdrom_init] receives it. *)
Definition gd_zero : gdrom := {|
  state := STATE_READ_ATA_CMD;
  hw_info := fun _ => x00;
  disc := None;
  error := error_zero;
  features := 0;
  ireason := mk_intreason false false 0;
  sectnum := sectnum_zero;
  byte_count := 0;
  status := status_zero;
  cdr_dma := 0;
  cdr_secfmt := 0;
  cdr_secmask := 0;
  cdr_first_sector := 0;
  cdr_num_sectors := 0;
  pio_buffer := fun _ => x00;
  pio_head := 0;
  pio_size := 0;
  pio_offset := 0;
  dma_buffer := fun _ => x00;
  dma_head := 0;
  dma_size := 0;
  holly := []
|}.

(** The guest's register writes that send a 12-byte packet: the packet
    command, then the packet two bytes at a time. *)
Fixpoint packet_words (p : list Z) : list gd_op :=
  match p with
  | lo :: hi :: p' => op_write_DATA (lo + 256 * hi) :: packet_words p'
  | _ => []
  end.

Definition send_packet (p : list Z) : list gd_op :=
  op_write_COMMAND 0xa0 :: packet_words p.

(** Observing a result: [f] of the state reached, [None] after a fault. *)
Definition on_ok {A : Type} (r : result gdrom) (f : gdrom -> A) : option A :=
  match r with
  | Ok gd => Some (f gd)
  | Err _ => None
  end.

(** A CD_READ in PIO mode of 28 sectors from frame 150 of the example
    disc, as [gdrom_spi_cmd] sets it up. *)
Definition example_cdread : gdrom :=
  set_cdr_num_sectors 28
    (set_cdr_first_sector 150 (set_disc (Some example_disc) gd_zero)).

(** A REQ_MODE packet for 4 bytes received while a chunked CD_READ still
    has 5 sectors to go. *)
Definition example_req_mode : gdrom :=
  set_state STATE_READ_ATA_DATA
    (set_cdr_num_sectors 5
       (set_pio_head 12
          (set_pio_buffer
             (memcpy (fun _ => x00) 0 [x11; x00; x00; x00; x04]) gd_zero))).

(** The guest's accesses for a DMA-mode CD_READ of 28 sectors from frame
    150, and for a REQ_SES of session 0 asking for 2 bytes. *)
Definition example_dma_cdread : list gd_op :=
  op_set_disc (Some example_disc) :: op_write_FEATURES 1
  :: send_packet [0x30; 0; 0; 0; 150; 0; 0; 0; 0; 0; 28; 0].

Definition example_req_ses : list gd_op :=
  op_set_disc (Some example_disc)
  :: send_packet [0x15; 0; 0; 0; 2; 0; 0; 0; 0; 0; 0; 0].

(** ** Notions for the transfer paths *)

(** The two bytes the data register stores for a written value, low byte
    first. *)
Definition word_bytes (value : Z) : list byte :=
  let v := Z.land value 0xffff in
  [byte_of_Z v; byte_of_Z (Z.shiftr v 8)].

(** The 16-bit value the data register returns for two bytes. *)
Definition bytes_word (lo hi : byte) : Z := Z_of_byte lo + 256 * Z_of_byte hi.

(** [g'] differs from [g] at most in the PIO buffer and the PIO head. *)
Definition pio_frame (g g' : gdrom) : Prop :=
  state g' = state g /\ hw_info g' = hw_info g /\ disc g' = disc g
  /\ error g' = error g /\ features g' = features g
  /\ ireason g' = ireason g /\ sectnum g' = sectnum g
  /\ byte_count g' = byte_count g /\ status g' = status g
  /\ cdr_dma g' = cdr_dma g /\ cdr_secfmt g' = cdr_secfmt g
  /\ cdr_secmask g' = cdr_secmask g
  /\ cdr_first_sector g' = cdr_first_sector g
  /\ cdr_num_sectors g' = cdr_num_sectors g
  /\ pio_size g' = pio_size g /\ pio_offset g' = pio_offset g
  /\ dma_buffer g' = dma_buffer g /\ dma_head g' = dma_head g
  /\ dma_size g' = dma_size g /\ holly g' = holly g.

(** The 16-bit words of a byte sequence, as the data register returns
    them. *)
Fixpoint words_of (l : list byte) : list Z :=
  match l with
  | lo :: hi :: l' => bytes_word lo hi :: words_of l'
  | _ => []
  end.

Section TransferNotions.

Context {T : gd_types}.

(** [k] reads of the data register: the values returned and the state
    reached. *)
Fixpoint read_words (k : nat) (gd : gdrom) : result (list Z * gdrom) :=
  match k with
  | O => Ok ([], gd)
  | S k' =>
    r <- GD_DATA_r gd ;;
    r' <- read_words k' (snd r) ;;
    Ok (fst r :: fst r', snd r')
  end.

End TransferNotions.

(** The sectors [fad .. fad + n - 1] of disc [d] in format [fmt] under
    mask [mask], one after the other. *)
Definition sectors_of (d : disc_t) (fad fmt mask n : Z) : list byte :=
  flat_map (fun k => disc_read_sector d (fad + Z.of_nat k) fmt mask)
    (seq 0 (Z.to_nat n)).

(** The SPI commands whose reply is built from the disc. *)
Definition needs_disc (c : gd_spi_cmd) : bool :=
  match c with
  | GD_SPI_REQ_STAT | GD_SPI_REQ_ERROR | GD_SPI_GET_TOC | GD_SPI_REQ_SES
  | GD_SPI_GET_SCD => true
  | _ => false
  end.

(** The table-of-contents entry of a track. *)
Definition toc_entry_of (t : track) : gd_spi_toc_entry :=
  mk_toc_entry (track_adr t) (track_ctrl t) (track_fad t).

(** BSY is reported only while a DMA transfer is pending, and never
    together with DRQ. *)
Definition busy_only_in_dma (gd : gdrom) : Prop :=
  BSY (status gd) = true ->
  state gd = STATE_WRITE_DMA_DATA /\ DRQ (status gd) = false.

(** The CD_READ session never points below frame 0 nor owes a negative
    number of sectors. *)
Definition cdread_nonneg (gd : gdrom) : Prop :=
  0 <= cdr_num_sectors gd /\ 0 <= cdr_first_sector gd.

(** The SPI commands that carry no data. *)
Definition non_data (c : gd_spi_cmd) : bool :=
  match c with
  | GD_SPI_TEST_UNIT | GD_SPI_CD_PLAY | GD_SPI_CD_SEEK | GD_SPI_CD_SCAN
  | GD_SPI_CHK_SECU => true
  | _ => false
  end.

(** The ATA and SPI codes the controller refuses: the cases of the two
    [switch] statements that end in [LOG_FATAL]. *)
Definition ata_unsupported (c : option gd_ata_cmd) : bool :=
  match c with
  | Some GD_ATA_EXEC_DIAG | Some GD_ATA_IDENTIFY_DEV | None => true
  | _ => false
  end.

Definition spi_unsupported (c : option gd_spi_cmd) : bool :=
  match c with
  | Some GD_SPI_CD_READ2 | Some GD_SPI_CD_OPEN | None => true
  | _ => false
  end.

Section CommandNotions.

Context {T : gd_types}.

(** The drive status a non-data command leaves in the sector-number
    register. *)
Definition non_data_status (c : gd_spi_cmd) (param_type old : Z) : Z :=
  match c with
  | GD_SPI_CD_PLAY | GD_SPI_CD_SCAN => GD_STATUS_PAUSE
  | GD_SPI_CD_SEEK =>
    match seek_type_of param_type with
    | Some GD_SEEK_STOP => GD_STATUS_STANDBY
    | Some _ => GD_STATUS_PAUSE
    | None => old
    end
  | _ => old
  end.

End CommandNotions.

(** The operations other than the host's disc change. *)
Definition not_set_disc (op : gd_op) : bool :=
  match op with
  | op_set_disc _ => false
  | _ => true
  end.

(** ** Further concrete states *)

(** The payload phase of a SET_MODE for bytes 10 to 13 of the hardware
    information block, and a PIO reply of 4 bytes, resp. 3 bytes, about
    to be read. *)
Definition example_set_mode : gdrom :=
  set_state STATE_READ_SPI_DATA (set_pio_size 4 (set_pio_offset 10 gd_zero)).

Definition example_reply : gdrom :=
  set_state STATE_WRITE_SPI_DATA
    (set_pio_size 4
       (set_pio_buffer (memcpy (fun _ => x00) 0 [x01; x02; x03; x04]) gd_zero)).

Definition example_odd_reply : gdrom :=
  set_state STATE_WRITE_SPI_DATA (set_pio_size 3 gd_zero).

(** The words of a SET_MODE and of a REQ_MODE packet for offset 10 and
    size 4, and of a CD_OPEN packet. *)
Definition example_set_mode_packet : list Z := [0x0012; 0x000a; 0x0004; 0; 0; 0].
Definition example_req_mode_packet : list Z := [0x0011; 0x000a; 0x0004; 0; 0; 0].
Definition example_cd_open_packet : list Z := [0x0016; 0; 0; 0; 0; 0].

(** A CD_READ of 28 sectors in DMA mode and one of a single sector in PIO
    mode, from frame 150 of the example disc; 8 bytes left in the DMA
    buffer; a CD_SEEK packet of type STOP received while a CD_READ has 5
    sectors to go. *)
Definition example_dma : gdrom := set_cdr_dma 1 example_cdread.

Definition example_pio_one : gdrom := set_cdr_num_sectors 1 example_cdread.

Definition example_dma_left : gdrom := set_dma_size 8 gd_zero.

Definition example_cd_seek : gdrom :=
  set_pio_buffer (memcpy (fun _ => x00) 0 [x21; x03]) example_req_mode.

(** A CD_READ packet for 28 sectors from frame 150 and a GET_SCD packet
    asking for 512 bytes, received with the example disc attached. *)
Definition example_cd_read : gdrom :=
  set_pio_buffer
    (memcpy (fun _ => x00) 0
       [x30; x00; x00; x00; x96; x00; x00; x00; x00; x00; x1c; x00])
    (set_disc (Some example_disc) gd_zero).

Definition example_get_scd : gdrom :=
  set_pio_buffer (memcpy (fun _ => x00) 0 [x40; x00; x00; x02; x00])
    (set_disc (Some example_disc) gd_zero).

(** The guest's accesses for a CD_READ of 28 sectors from frame 150. *)
Definition example_guest_cdread : list gd_op :=
  send_packet [0x30; 0; 0; 0; 150; 0; 0; 0; 0; 0; 28; 0].

(** * Properties *)

(** ** Bytes *)

Lemma Z_of_byte_range (b : byte) : 0 <= Z_of_byte b < 256.
Proof.
  unfold Z_of_byte. pose proof (Byte.to_N_bounded b) as H.
  split; [apply N2Z.is_nonneg|]. lia.
Qed.

Lemma len_nonneg (l : list byte) : 0 <= len l.
Proof. unfold len. lia. Qed.

Lemma len_app (l1 l2 : list byte) : len (l1 ++ l2) = len l1 + len l2.
Proof. unfold len. rewrite length_app. lia. Qed.

(** ** Results *)

Lemma bind_ok {A B : Type} (m : result A) (k : A -> result B) (b : B) :
  bind m k = Ok b -> exists a, m = Ok a /\ k a = Ok b.
Proof. destruct m as [a|f]; simpl; [eauto|discriminate]. Qed.

(** ** Frame addresses *)

(** C7: [gdrom_get_fad] returns [a*4500 + b*75 + c] when the MSF bit is
    set and [(a << 16) | (b << 8) | c] otherwise; two seconds in MSF mode
    are frame 150, and byte 1 of a linear address weighs [0x010000]. *)
Theorem gdrom_get_fad_decode :
  (forall (a b c : byte) (msf : Z),
      gdrom_get_fad a b c msf =
      if msf =? 0
      then Z.lor (Z.lor (Z.shiftl (Z_of_byte a) 16) (Z.shiftl (Z_of_byte b) 8))
                 (Z_of_byte c)
      else Z_of_byte a * 4500 + Z_of_byte b * 75 + Z_of_byte c)
  /\ gdrom_get_fad x00 x02 x00 1 = 150
  /\ gdrom_get_fad x01 x00 x00 0 = 0x010000.
Proof.
  split; [|split; reflexivity].
  intros a b c msf. unfold gdrom_get_fad.
  destruct (msf =? 0); cbn [negb]; [reflexivity|]. lia.
Qed.

(** ** Event dispatch *)

Section Dispatch.

Context {T : gd_types}.

Lemma gd_state_eqb_eq (a b : gd_state) : gd_state_eqb a b = true -> a = b.
Proof. destruct a, b; simpl; congruence. Qed.

(** The handlers re-entered by [gdrom_pio_write] do not dispatch again:
    any dispatcher with fuel left runs them alike. *)
Lemma gdrom_pio_write_fuel (n m : nat) (gd : gdrom) (arg : Z) :
  gdrom_pio_write (gdrom_event_fuel (S n)) gd arg =
  gdrom_pio_write (gdrom_event_fuel (S m)) gd arg.
Proof.
  unfold gdrom_pio_write.
  destruct (state gd) eqn:E; cbn [gd_state_eqb andb]; try reflexivity.
  - destruct (pio_head gd =? GD_SPI_CMD_SIZE); [|reflexivity].
    cbn [gdrom_event_fuel]. rewrite E. reflexivity.
  - destruct (pio_head gd =? pio_size gd); [|reflexivity].
    cbn [gdrom_event_fuel]. rewrite E. reflexivity.
Qed.

(** Two levels of dispatch are all the controller ever nests: more fuel
    changes nothing. *)
Lemma gdrom_event_fuel_enough (n : nat) (gd : gdrom) (ev : gd_event) (arg : Z) :
  gdrom_event_fuel (S (S n)) gd ev arg = gdrom_event gd ev arg.
Proof.
  unfold gdrom_event.
  change (gdrom_event_fuel (S (S n)) gd ev arg)
    with (match gd_transitions (state gd) ev with
          | Some cb => gd_call (gdrom_event_fuel (S n)) cb gd arg
          | None => Err Fatal
          end).
  change (gdrom_event_fuel 2 gd ev arg)
    with (match gd_transitions (state gd) ev with
          | Some cb => gd_call (gdrom_event_fuel 1) cb gd arg
          | None => Err Fatal
          end).
  destruct (gd_transitions (state gd) ev) as [cb|]; [|reflexivity].
  destruct cb; try reflexivity.
  apply gdrom_pio_write_fuel.
Qed.

Lemma gdrom_event_unfold (gd : gdrom) (ev : gd_event) (arg : Z) :
  gdrom_event gd ev arg =
  match gd_transitions (state gd) ev with
  | Some cb => gd_call (gdrom_event_fuel 1) cb gd arg
  | None => Err Fatal
  end.
Proof.
  unfold gdrom_event. cbn [gdrom_event_fuel].
  destruct (gd_transitions (state gd) ev); reflexivity.
Qed.

Lemma gdrom_event_ata_cmd (gd : gdrom) (arg : Z) :
  gdrom_event gd EVENT_ATA_CMD arg = gdrom_ata_cmd gd arg.
Proof. rewrite gdrom_event_unfold. destruct (state gd); reflexivity. Qed.

(** C5: dispatching event [ev] in state [s] runs the handler that
    [gd_transitions] holds for [(s, ev)], or is fatal when the entry is
    empty.  Cell by cell: [EVENT_ATA_CMD] runs [gdrom_ata_cmd] in each of
    the five states; [EVENT_PIO_WRITE] runs [gdrom_pio_write] in the two
    reception states, [EVENT_SPI_CMD] runs [gdrom_spi_cmd] while a packet
    is received, [EVENT_SPI_DATA] runs [gdrom_spi_data] while a payload
    is received, [EVENT_PIO_READ] runs [gdrom_pio_read] in the two
    delivery states, and the fourteen other cells are fatal.  The
    dispatch nested in [gdrom_pio_write] lands on [gdrom_spi_cmd] and
    [gdrom_spi_data], which the table allows in the states it tests.
    The table is the 5 x 5 table of the source. *)
Theorem gdrom_event_table :
  (forall (gd : gdrom) (ev : gd_event) (arg : Z),
      gdrom_event gd ev arg =
      match gd_transitions (state gd) ev with
      | Some cb => gd_call (gdrom_event_fuel 1) cb gd arg
      | None => Err Fatal
      end)
  /\ map (fun s =>
            map (gd_transitions s)
              [EVENT_ATA_CMD; EVENT_PIO_WRITE; EVENT_SPI_CMD; EVENT_PIO_READ;
               EVENT_SPI_DATA])
       [STATE_READ_ATA_CMD; STATE_READ_ATA_DATA; STATE_READ_SPI_DATA;
        STATE_WRITE_SPI_DATA; STATE_WRITE_DMA_DATA]
     = [ [Some cb_gdrom_ata_cmd; None; None; None; None];
         [Some cb_gdrom_ata_cmd; Some cb_gdrom_pio_write;
          Some cb_gdrom_spi_cmd; None; None];
         [Some cb_gdrom_ata_cmd; Some cb_gdrom_pio_write; None; None;
          Some cb_gdrom_spi_data];
         [Some cb_gdrom_ata_cmd; None; None; Some cb_gdrom_pio_read; None];
         [Some cb_gdrom_ata_cmd; None; None; Some cb_gdrom_pio_read; None] ]
  /\ (forall s : gd_state,
         gd_transitions s EVENT_ATA_CMD = Some cb_gdrom_ata_cmd)
  /\ (forall (gd : gdrom) (arg : Z),
         gdrom_event gd EVENT_ATA_CMD arg = gdrom_ata_cmd gd arg)
  /\ (forall (gd : gdrom) (ev : gd_event) (arg : Z),
         gdrom_event gd ev arg =
         match state gd, ev with
         | _, EVENT_ATA_CMD => gdrom_ata_cmd gd arg
         | STATE_READ_ATA_DATA, EVENT_PIO_WRITE
         | STATE_READ_SPI_DATA, EVENT_PIO_WRITE =>
           gdrom_pio_write gdrom_event gd arg
         | STATE_READ_ATA_DATA, EVENT_SPI_CMD => gdrom_spi_cmd gd arg
         | STATE_READ_SPI_DATA, EVENT_SPI_DATA => gdrom_spi_data gd arg
         | STATE_WRITE_SPI_DATA, EVENT_PIO_READ
         | STATE_WRITE_DMA_DATA, EVENT_PIO_READ => gdrom_pio_read gd arg
         | _, _ => Err Fatal
         end)
  /\ (forall (gd : gdrom) (arg : Z),
         gdrom_pio_write gdrom_event gd arg =
         match state gd with
         | STATE_READ_ATA_DATA =>
           if pio_head gd =? GD_SPI_CMD_SIZE then gdrom_spi_cmd gd 0
           else Ok gd
         | STATE_READ_SPI_DATA =>
           if pio_head gd =? pio_size gd then gdrom_spi_data gd 0 else Ok gd
         | _ => Ok gd
         end).
Proof.
  split; [|split; [|split; [|split; [|split]]]].
  - exact gdrom_event_unfold.
  - reflexivity.
  - intros s. destruct s; reflexivity.
  - exact gdrom_event_ata_cmd.
  - intros gd ev arg. rewrite gdrom_event_unfold.
    destruct (state gd), ev; cbn [gd_transitions gd_call]; try reflexivity;
      apply (gdrom_pio_write_fuel 0 1).
  - intros gd arg. unfold gdrom_pio_write.
    destruct (state gd) eqn:E; cbn [gd_state_eqb andb]; try reflexivity.
    + destruct (pio_head gd =? GD_SPI_CMD_SIZE); [|reflexivity].
      rewrite gdrom_event_unfold, E. reflexivity.
    + destruct (pio_head gd =? pio_size gd); [|reflexivity].
      rewrite gdrom_event_unfold, E. reflexivity.
Qed.

End Dispatch.

(** ** Dispatch depth *)

Section Fuel.

Context {T : gd_types}.

Lemma fueled_bind {A B : Type} (m : result A) (k : A -> result B) :
  fueled m -> (forall a, fueled (k a)) -> fueled (bind m k).
Proof.
  unfold fueled. intros Hm Hk. destruct m as [a|f]; cbn; [apply Hk|].
  intros E. apply Hm. injection E as ->. reflexivity.
Qed.

Lemma fueled_ok {A : Type} (a : A) : fueled (Ok a).
Proof. discriminate. Qed.

Lemma fueled_fatal {A : Type} : fueled (@Err A Fatal).
Proof. discriminate. Qed.

Lemma fueled_undefined {A : Type} : fueled (@Err A Undefined).
Proof. discriminate. Qed.

Ltac fuel_cases :=
  repeat first
    [ apply fueled_ok | apply fueled_fatal | apply fueled_undefined
    | apply fueled_bind; [|intros ?]
    | match goal with
      | |- fueled (if ?b then _ else _) => destruct b
      | |- fueled (match ?x with _ => _ end) => destruct x
      | |- fueled (let '(_, _) := ?x in _) => destruct x
      end ].

Lemma read_sectors_loop_fueled (d : disc_t) (fmt mask dst_size : Z)
    (count : nat) : forall (i : Z) (read : list byte),
  fueled (read_sectors_loop d fmt mask dst_size count i read).
Proof.
  induction count as [|count IH]; intros i read; cbn [read_sectors_loop].
  - apply fueled_ok.
  - fuel_cases. apply IH.
Qed.

Lemma gdrom_read_sectors_fueled (gd : gdrom) (fad fmt mask n dst_size : Z) :
  fueled (gdrom_read_sectors gd fad fmt mask n dst_size).
Proof.
  unfold gdrom_read_sectors. destruct (disc gd).
  - apply read_sectors_loop_fueled.
  - apply fueled_ok.
Qed.

Lemma gdrom_spi_cdread_fueled (gd : gdrom) : fueled (gdrom_spi_cdread gd).
Proof.
  unfold gdrom_spi_cdread.
  destruct (negb _); (apply fueled_bind;
    [apply gdrom_read_sectors_fueled|intros; apply fueled_ok]).
Qed.

Lemma gdrom_spi_write_fueled (gd : gdrom) (data : list byte) (size : Z) :
  fueled (gdrom_spi_write gd data size).
Proof. unfold gdrom_spi_write. fuel_cases. Qed.

Lemma toc_entries_loop_fueled (d : disc_t) (count : nat) :
  forall (i : Z) (entries : list gd_spi_toc_entry),
    fueled (toc_entries_loop d count i entries).
Proof.
  induction count as [|count IH]; intros i entries; cbn [toc_entries_loop].
  - apply fueled_ok.
  - destruct (disc_get_track d (i - 1)); [|apply fueled_undefined].
    destruct (_ && _); [apply IH|apply fueled_undefined].
Qed.

Lemma gdrom_spi_cmd_fueled (gd : gdrom) (arg : Z) : fueled (gdrom_spi_cmd gd arg).
Proof.
  unfold gdrom_spi_cmd.
  destruct (spi_cmd_of _) as [[]|];
    try apply fueled_ok; try apply fueled_fatal;
    try apply gdrom_spi_write_fueled; try apply gdrom_spi_cdread_fueled;
    (apply fueled_bind; [|intros; apply gdrom_spi_write_fueled]).
  - unfold gdrom_get_status. fuel_cases.
  - unfold gdrom_get_error. fuel_cases.
  - unfold gdrom_get_toc.
    destruct (disc _); [|apply fueled_fatal].
    destruct (disc_get_toc _ _) as [[[[f|] [l|]] li] lo];
      try apply fueled_undefined.
    apply fueled_bind; [apply toc_entries_loop_fueled|intros; apply fueled_ok].
  - unfold gdrom_get_session. fuel_cases.
  - unfold gdrom_get_subcode. fuel_cases.
Qed.

Lemma gdrom_set_disc_fueled (gd : gdrom) (d : option disc_t) :
  fueled (gdrom_set_disc gd d).
Proof. unfold gdrom_set_disc. fuel_cases. Qed.

Lemma gdrom_ata_cmd_fueled (gd : gdrom) (cmd : Z) : fueled (gdrom_ata_cmd gd cmd).
Proof.
  unfold gdrom_ata_cmd. apply fueled_bind.
  - destruct (ata_cmd_of cmd) as [[]|];
      try apply fueled_ok; try apply fueled_fatal.
    apply fueled_bind; [apply gdrom_set_disc_fueled|intros; apply fueled_ok].
  - intros [g rd]. destruct rd; apply fueled_ok.
Qed.

(** Dispatch always comes back with a state, a fatal error or an
    out-of-bounds access: the fuel of the model is never what stops it. *)
Lemma gdrom_event_fueled (gd : gdrom) (ev : gd_event) (arg : Z) :
  fueled (gdrom_event gd ev arg).
Proof.
  rewrite gdrom_event_unfold.
  destruct (gd_transitions (state gd) ev) as [cb|] eqn:Ecb;
    [|apply fueled_fatal].
  destruct cb; cbn [gd_call].
  - apply gdrom_ata_cmd_fueled.
  - unfold gdrom_pio_write.
    destruct (state gd) eqn:Est; cbn [gd_state_eqb andb];
      try apply fueled_ok.
    + destruct (_ =? _); [|apply fueled_ok].
      cbn [gdrom_event_fuel]. rewrite Est. cbn.
      apply gdrom_spi_cmd_fueled.
    + destruct (_ =? _); [|apply fueled_ok].
      cbn [gdrom_event_fuel]. rewrite Est. cbn.
      unfold gdrom_spi_data. fuel_cases.
  - apply gdrom_spi_cmd_fueled.
  - unfold gdrom_pio_read. fuel_cases. apply gdrom_spi_cdread_fueled.
  - unfold gdrom_spi_data. fuel_cases.
Qed.

End Fuel.

(** ** The ATA command processor and the soft reset *)

Section Ata.

Context {T : gd_types}.

(** C8: an ATA [NOP], whatever the state it arrives in and whatever the
    registers held, is not fatal; the error register is cleared before
    its abort bit is set, so that it ends up holding the abort bit alone;
    CHECK and DRDY end up set and BSY clear, the drive interrupt is
    raised once, and the state is back to [STATE_READ_ATA_CMD]. *)
Theorem gdrom_ata_cmd_nop (gd : gdrom) (cmd : Z) :
  ata_cmd_of cmd = Some GD_ATA_NOP ->
  exists gd' : gdrom,
    gdrom_event gd EVENT_ATA_CMD cmd = Ok gd'
    /\ gd' =
       gdrom_ata_end
         (let gd := ata_cmd_entry gd in
          let gd := set_error (set_ABRT true (error gd)) gd in
          set_status (set_CHECK true (status gd)) gd)
    /\ error (ata_cmd_entry gd) = error_zero
    /\ CHECK_ (status (ata_cmd_entry gd)) = false
    /\ error gd' = mk_error true 0
    /\ CHECK_ (status gd') = true
    /\ DRDY (status gd') = true
    /\ BSY (status gd') = false
    /\ holly gd' = holly_raise_interrupt :: holly gd
    /\ state gd' = STATE_READ_ATA_CMD.
Proof.
  intros Hcmd.
  rewrite gdrom_event_ata_cmd. unfold gdrom_ata_cmd. rewrite Hcmd.
  eexists. split; [reflexivity|].
  repeat split.
Qed.

(** Every ATA command that is not fatal has cleared the error register
    and CHECK on the way; only NOP sets them again. *)
Lemma gdrom_ata_cmd_clears_error (gd gd' : gdrom) (cmd : Z) :
  gdrom_ata_cmd gd cmd = Ok gd' ->
  ata_cmd_of cmd <> Some GD_ATA_NOP ->
  error gd' = error_zero /\ CHECK_ (status gd') = false.
Proof.
  unfold gdrom_ata_cmd. intros H Hnop.
  apply bind_ok in H. destruct H as ([g rd] & Hg & H).
  assert (Hc : error g = error_zero /\ CHECK_ (status g) = false).
  { destruct (ata_cmd_of cmd) as [[]|]; try discriminate Hg;
      try (injection Hg as <- _; split; reflexivity).
    - exfalso. apply Hnop. reflexivity.
    - apply bind_ok in Hg. destruct Hg as (g1 & Hg1 & Hg).
      injection Hg as <- _. unfold gdrom_set_disc in Hg1.
      apply bind_ok in Hg1. destruct Hg1 as (g2 & _ & Hg1).
      cbn in Hg1. destruct (disc g2).
      + destruct (disc _); [|discriminate].
        injection Hg1 as <-. split; reflexivity.
      + injection Hg1 as <-. split; reflexivity. }
  destruct rd; injection H as <-; exact Hc.
Qed.

(** The soft reset's effect once the disc handle is settled. *)
Lemma gdrom_set_disc_same (gd : gdrom) (d : option disc_t) :
  same_disc (disc gd) d = true \/ disc_get_meta_defined d = true ->
  exists gd' : gdrom,
    gdrom_set_disc gd d = Ok gd'
    /\ disc gd' = (if same_disc (disc gd) d then disc gd else d)
    /\ error gd' = error_zero
    /\ byte_count gd' = byte_count gd
    /\ status gd' = mk_status false false true false 0
    /\ sectnum gd' =
       match d with
       | Some x => mk_sectnum GD_STATUS_PAUSE (disc_get_format x) 0
       | None => mk_sectnum GD_STATUS_NODISC 0 0
       end.
Proof.
  intros H. unfold gdrom_set_disc.
  destruct (same_disc (disc gd) d) eqn:Esame; cbn [negb].
  - unfold same_disc in Esame.
    destruct (disc gd) as [x|] eqn:Ed, d as [y|]; try discriminate;
      cbn; rewrite Ed; eexists; (split; [reflexivity|]); repeat split;
      cbn; assumption.
  - destruct H as [H|H]; [discriminate|].
    cbn. rewrite H.
    destruct d as [y|]; cbn; eexists; (split; [reflexivity|]); repeat split.
Qed.

(** C3 (as the code has it): the soft reset of [gdrom_set_disc] with no
    disc leaves the drive status NO-DISC and the error register zero,
    the byte-count register keeping the value it had; with a disc it
    leaves the drive status PAUSE and the format field equal to the
    format the disc reports.  The reset is reached whenever the handle
    is the one already attached (as in the ATA soft reset) or
    [disc_get_meta] accepts the new one. *)
Theorem gdrom_set_disc_soft_reset (gd : gdrom) (d : option disc_t) :
  same_disc (disc gd) d = true \/ disc_get_meta_defined d = true ->
  exists gd' : gdrom,
    gdrom_set_disc gd d = Ok gd'
    /\ match d with
       | None =>
         sectnum_status (sectnum gd') = GD_STATUS_NODISC
         /\ error gd' = error_zero
         /\ byte_count gd' = byte_count gd
       | Some x =>
         sectnum_status (sectnum gd') = GD_STATUS_PAUSE
         /\ sectnum_format (sectnum gd') = disc_get_format x
       end.
Proof.
  intros H.
  destruct (gdrom_set_disc_same gd d H) as (gd' & Hr & _ & He & Hb & _ & Hs).
  exists gd'. split; [exact Hr|].
  destruct d; rewrite Hs; cbn; auto.
Qed.

End Ata.

(** ** The SPI packet processor *)

Section Spi.
Context {T : gd_types}.

(** What a successful [gdrom_spi_write] leaves behind. *)
Lemma gdrom_spi_write_ok (gd gd' : gdrom) (data : list byte) (size : Z) :
  gdrom_spi_write gd data size = Ok gd' ->
  0 <= size < sizeof_pio_buffer
  /\ size <= len data
  /\ cdr_num_sectors gd' = 0
  /\ pio_size gd' = size
  /\ pio_head gd' = 0
  /\ byte_count gd' = size
  /\ state gd' = STATE_WRITE_SPI_DATA
  /\ dma_head gd' = dma_head gd
  /\ dma_size gd' = dma_size gd.
Proof.
  unfold gdrom_spi_write.
  destruct (size <? sizeof_pio_buffer) eqn:E1; [|discriminate].
  destruct ((0 <=? size) && (size <=? len data)) eqn:E2; [|discriminate].
  intros H. injection H as <-. cbn.
  apply andb_prop in E2. destruct E2 as [E2 E3].
  repeat split; lia.
Qed.

Lemma gdrom_pio_read_end (g : gdrom) (arg : Z) :
  cdr_num_sectors g = 0 -> pio_head g = pio_size g ->
  gdrom_pio_read g arg = Ok (gdrom_spi_end g).
Proof.
  intros Hn Hh. unfold gdrom_pio_read.
  rewrite Hh, Z.eqb_refl, Hn. reflexivity.
Qed.

(** Reading a PIO reply to its end when no sectors remain: the last read
    completes the SPI phase, the buffer is not refilled. *)
Lemma read_DATA_to_end (k : nat) : forall g : gdrom,
  state g = STATE_WRITE_SPI_DATA ->
  cdr_num_sectors g = 0 ->
  0 <= pio_head g ->
  pio_size g = pio_head g + 2 * Z.of_nat (S k) ->
  pio_size g <= sizeof_pio_buffer ->
  gd_run g (repeat op_read_DATA (S k)) =
  Ok (gdrom_spi_end (set_pio_head (pio_size g) g)).
Proof.
  induction k as [|k IH]; intros g Hst Hn Hh Hsz Hcap.
  - cbn [repeat gd_run gd_step]. unfold GD_DATA_r.
    replace ((0 <=? pio_head g) && (pio_head g + 2 <=? sizeof_pio_buffer))
      with true by (symmetry; apply andb_true_intro; split; lia).
    rewrite gdrom_event_unfold. cbn.
    rewrite Hst. cbn. unfold gdrom_pio_read. cbn.
    replace (pio_head g + 2 =? pio_size g) with true by (symmetry; lia).
    rewrite Hn. cbn. replace (pio_head g + 2) with (pio_size g) by lia.
    reflexivity.
  - change (repeat op_read_DATA (S (S k)))
      with (op_read_DATA :: repeat op_read_DATA (S k)).
    cbn [gd_run gd_step]. unfold GD_DATA_r.
    replace ((0 <=? pio_head g) && (pio_head g + 2 <=? sizeof_pio_buffer))
      with true by (symmetry; apply andb_true_intro; split; lia).
    rewrite gdrom_event_unfold. cbn - [gd_run repeat].
    rewrite Hst. cbn - [gd_run repeat]. unfold gdrom_pio_read.
    cbn - [gd_run repeat].
    replace (pio_head g + 2 =? pio_size g) with false by (symmetry; lia).
    cbn - [gd_run repeat].
    rewrite IH; cbn; try assumption; try lia.
    reflexivity.
Qed.

(** Reading a PIO chunk to its end while sectors remain: the last read
    runs the sector reader for the next chunk. *)
Lemma read_DATA_to_refill (k : nat) : forall g : gdrom,
  state g = STATE_WRITE_SPI_DATA ->
  cdr_num_sectors g <> 0 ->
  0 <= pio_head g ->
  pio_size g = pio_head g + 2 * Z.of_nat (S k) ->
  pio_size g <= sizeof_pio_buffer ->
  gd_run g (repeat op_read_DATA (S k)) =
  gdrom_spi_cdread (set_pio_head (pio_size g) g).
Proof.
  induction k as [|k IH]; intros g Hst Hn Hh Hsz Hcap.
  - cbn [repeat gd_run gd_step]. unfold GD_DATA_r.
    replace ((0 <=? pio_head g) && (pio_head g + 2 <=? sizeof_pio_buffer))
      with true by (symmetry; apply andb_true_intro; split; lia).
    rewrite gdrom_event_unfold. cbn.
    rewrite Hst. cbn. unfold gdrom_pio_read. cbn.
    replace (pio_head g + 2 =? pio_size g) with true by (symmetry; lia).
    apply Z.eqb_neq in Hn. rewrite Hn. cbn [negb].
    replace (pio_head g + 2) with (pio_size g) by lia.
    destruct (gdrom_spi_cdread (set_pio_head (pio_size g) g)); reflexivity.
  - change (repeat op_read_DATA (S (S k)))
      with (op_read_DATA :: repeat op_read_DATA (S k)).
    cbn [gd_run gd_step]. unfold GD_DATA_r.
    replace ((0 <=? pio_head g) && (pio_head g + 2 <=? sizeof_pio_buffer))
      with true by (symmetry; apply andb_true_intro; split; lia).
    rewrite gdrom_event_unfold. cbn - [gd_run repeat].
    rewrite Hst. cbn - [gd_run repeat]. unfold gdrom_pio_read.
    cbn - [gd_run repeat].
    replace (pio_head g + 2 =? pio_size g) with false by (symmetry; lia).
    cbn - [gd_run repeat].
    rewrite IH; cbn; try assumption; try lia.
    reflexivity.
Qed.

(** The branches of [gdrom_spi_cmd] that start a PIO transfer to the
    host all end in [gdrom_spi_write]. *)
Lemma gdrom_spi_cmd_data_to_host (gd gd' : gdrom) (arg : Z) (c : gd_spi_cmd) :
  spi_cmd_of (pio_data gd 0) = Some c ->
  data_to_host c = true ->
  gdrom_spi_cmd gd arg = Ok gd' ->
  exists (g : gdrom) (data : list byte) (size : Z),
    gdrom_spi_write g data size = Ok gd'
    /\ dma_head g = dma_head gd /\ dma_size g = dma_size gd.
Proof.
  intros Hc Hd. unfold gdrom_spi_cmd. rewrite Hc.
  destruct c; try discriminate Hd; intros H.
  - apply bind_ok in H. destruct H as (stat & _ & H). eauto 10.
  - eauto 10.
  - apply bind_ok in H. destruct H as (err & _ & H). eauto 10.
  - apply bind_ok in H. destruct H as (toc & _ & H). eauto 10.
  - apply bind_ok in H. destruct H as (ses & _ & H). eauto 10.
  - apply bind_ok in H. destruct H as (scd & _ & H). eauto 10.
  - eauto 10.
Qed.

(** C9: each SPI command that starts a PIO data transfer (the
    data-to-host commands and SET_MODE) leaves the remaining CD_READ
    sector count at zero, whatever it was.  A PIO read that then
    exhausts the buffer completes the SPI phase instead of refilling:
    the state is [STATE_READ_ATA_CMD], one interrupt is raised, DRQ and
    BSY are clear, DRDY, IO and CoD are set, and the PIO buffer, the
    first-sector address and the zero sector count are untouched.  So
    does reading a reply of [2 * (k + 1)] bytes word by word through the
    data register. *)
Theorem gdrom_spi_cmd_abandons_cdread
    (gd gd' : gdrom) (arg : Z) (c : gd_spi_cmd) :
  spi_cmd_of (pio_data gd 0) = Some c ->
  starts_pio_transfer c = true ->
  gdrom_spi_cmd gd arg = Ok gd' ->
  cdr_num_sectors gd' = 0
  /\ pio_head gd' = 0
  /\ state gd' =
     (if data_to_host c then STATE_WRITE_SPI_DATA else STATE_READ_SPI_DATA)
  /\ (forall (g : gdrom) (a : Z),
         cdr_num_sectors g = cdr_num_sectors gd' ->
         pio_head g = pio_size g ->
         exists g' : gdrom,
           gdrom_pio_read g a = Ok g'
           /\ g' = gdrom_spi_end g
           /\ state g' = STATE_READ_ATA_CMD
           /\ holly g' = holly_raise_interrupt :: holly g
           /\ DRQ (status g') = false /\ BSY (status g') = false
           /\ DRDY (status g') = true
           /\ IO (ireason g') = true /\ CoD (ireason g') = true
           /\ pio_buffer g' = pio_buffer g /\ pio_size g' = pio_size g
           /\ cdr_first_sector g' = cdr_first_sector g
           /\ cdr_num_sectors g' = 0)
  /\ (forall k : nat,
         data_to_host c = true ->
         pio_size gd' = 2 * Z.of_nat (S k) ->
         exists g' : gdrom,
           gd_run gd' (repeat op_read_DATA (S k)) = Ok g'
           /\ g' = gdrom_spi_end (set_pio_head (pio_size gd') gd')
           /\ state g' = STATE_READ_ATA_CMD
           /\ holly g' = holly_raise_interrupt :: holly gd'
           /\ DRQ (status g') = false /\ BSY (status g') = false
           /\ DRDY (status g') = true
           /\ IO (ireason g') = true /\ CoD (ireason g') = true
           /\ pio_buffer g' = pio_buffer gd' /\ pio_size g' = pio_size gd'
           /\ cdr_first_sector g' = cdr_first_sector gd'
           /\ cdr_num_sectors g' = 0).
Proof.
  intros Hc Hs H.
  assert (Hfacts : cdr_num_sectors gd' = 0 /\ pio_head gd' = 0
                   /\ state gd' =
                      (if data_to_host c then STATE_WRITE_SPI_DATA
                       else STATE_READ_SPI_DATA)
                   /\ pio_size gd' < sizeof_pio_buffer).
  { destruct (data_to_host c) eqn:Hd.
    - destruct (gdrom_spi_cmd_data_to_host gd gd' arg c Hc Hd H)
        as (g & data & size & Hw & _).
      apply gdrom_spi_write_ok in Hw. intuition lia.
    - destruct c; try discriminate Hs; try discriminate Hd.
      unfold gdrom_spi_cmd in H. rewrite Hc in H.
      injection H as <-. cbn.
      pose proof (Z_of_byte_range (pio_buffer gd 4)).
      unfold pio_data, sizeof_pio_buffer. intuition lia. }
  destruct Hfacts as (Hn & Hh & Hst & Hsz).
  split; [exact Hn|]. split; [exact Hh|]. split; [exact Hst|].
  split.
  - intros g a Hg Hx. exists (gdrom_spi_end g).
    split; [apply gdrom_pio_read_end; congruence|].
    split; [reflexivity|].
    cbn [gdrom_spi_end state holly status ireason pio_buffer pio_size
         cdr_first_sector cdr_num_sectors DRQ BSY DRDY IO CoD set_state
         raise_interrupt set_holly set_status set_ireason set_DRQ set_BSY
         set_DRDY set_IO set_CoD].
    repeat split. congruence.
  - intros k Hd Hk. rewrite Hd in Hst.
    exists (gdrom_spi_end (set_pio_head (pio_size gd') gd')).
    split; [apply read_DATA_to_end; try assumption; lia|].
    split; [reflexivity|].
    cbn [gdrom_spi_end state holly status ireason pio_buffer pio_size
         cdr_first_sector cdr_num_sectors DRQ BSY DRDY IO CoD set_state
         raise_interrupt set_holly set_status set_ireason set_DRQ set_BSY
         set_DRDY set_IO set_CoD set_pio_head].
    repeat split. exact Hn.
Qed.

(** The transfer length of REQ_SES is [sizeof(ses)]; byte 4 of the
    packet has no part in it. *)
Lemma gdrom_spi_cmd_req_ses (gd gd' : gdrom) (arg : Z) :
  spi_cmd_of (pio_data gd 0) = Some GD_SPI_REQ_SES ->
  gdrom_spi_cmd gd arg = Ok gd' ->
  exists ses : gd_spi_session,
    pio_size gd' = len (bytes_of_session ses)
    /\ byte_count gd' = len (bytes_of_session ses).
Proof.
  intros Hc. unfold gdrom_spi_cmd. rewrite Hc. intros H.
  apply bind_ok in H. destruct H as (ses & _ & H).
  apply gdrom_spi_write_ok in H.
  eexists. intuition eauto.
Qed.

End Spi.

(** ** The DMA transfer engine *)

Section Dma.
Context {T : gd_types}.

(** A refill that asks for no sector, or finds no disc, stores nothing. *)
Lemma gdrom_read_sectors_none (gd : gdrom) (fad fmt mask num dst_size : Z) :
  num <= 0 \/ disc gd = None ->
  gdrom_read_sectors gd fad fmt mask num dst_size = Ok [].
Proof.
  intros H. unfold gdrom_read_sectors.
  destruct (disc gd) as [d|]; [|reflexivity].
  destruct H as [H|H]; [|discriminate].
  replace (Z.to_nat num) with O by lia. reflexivity.
Qed.

Lemma gdrom_spi_cdread_dma_empty (gd : gdrom) :
  cdr_dma gd <> 0 ->
  cdr_num_sectors gd = 0 \/ disc gd = None ->
  exists gd' : gdrom,
    gdrom_spi_cdread gd = Ok gd' /\ dma_size gd' = 0 /\ dma_head gd' = 0.
Proof.
  intros Hdma H. unfold gdrom_spi_cdread.
  apply Z.eqb_neq in Hdma. rewrite Hdma. cbn [negb].
  rewrite gdrom_read_sectors_none.
  - cbn. eexists. split; [reflexivity|]. split; reflexivity.
  - destruct H as [H|H]; [left; rewrite H; lia|right; exact H].
Qed.

(** An exhausted DMA buffer that the refill leaves exhausted fails the
    assertion of [gdrom_dma_read]. *)
Lemma gdrom_dma_read_assert (gd gd' : gdrom) (n : Z) :
  dma_head gd >= dma_size gd ->
  gdrom_spi_cdread gd = Ok gd' ->
  dma_size gd' - dma_head gd' <= 0 ->
  gdrom_dma_read gd n = Err Fatal.
Proof.
  intros Hex Hfill Hrem. unfold gdrom_dma_read.
  replace (dma_head gd >=? dma_size gd) with true by (symmetry; lia).
  rewrite Hfill. cbn [bind].
  replace (Z.min n (dma_size gd' - dma_head gd') >? 0) with false
    by (symmetry; lia).
  reflexivity.
Qed.

(** The two cases the source runs into: a DMA-mode CD_READ with no
    sectors left, or with no disc. *)
Lemma gdrom_dma_read_fatal_cases (gd : gdrom) (n : Z) :
  dma_head gd >= dma_size gd ->
  cdr_dma gd <> 0 ->
  cdr_num_sectors gd = 0 \/ disc gd = None ->
  gdrom_dma_read gd n = Err Fatal.
Proof.
  intros Hex Hdma H.
  destruct (gdrom_spi_cdread_dma_empty gd Hdma H) as (gd' & H1 & H2 & H3).
  apply (gdrom_dma_read_assert gd gd' n Hex H1). lia.
Qed.

(** C10: a DMA read step that finds the DMA buffer exhausted and whose
    refill leaves nothing to read fails the assertion [n > 0]: it is
    fatal, it does not return zero bytes. *)
Theorem gdrom_dma_read_nothing_is_fatal (gd : gdrom) (n : Z) :
  dma_head gd >= dma_size gd ->
  (exists gd' : gdrom,
      gdrom_spi_cdread gd = Ok gd' /\ dma_size gd' - dma_head gd' <= 0) ->
  gdrom_dma_read gd n = Err Fatal.
Proof.
  intros Hex (gd' & Hfill & Hrem).
  exact (gdrom_dma_read_assert gd gd' n Hex Hfill Hrem).
Qed.

(** A DMA read step runs [gdrom_spi_end] whenever it leaves the DMA
    buffer exhausted; the remaining sector count is not consulted. *)
Lemma gdrom_dma_read_completion (gd gd' : gdrom) (n k : Z) (data : list byte) :
  gdrom_dma_read gd n = Ok (k, data, gd') ->
  dma_head gd' >= dma_size gd' ->
  state gd' = STATE_READ_ATA_CMD
  /\ (exists log, holly gd' = holly_raise_interrupt :: log).
Proof.
  unfold gdrom_dma_read. intros H Hex.
  apply bind_ok in H. destruct H as (g & _ & H).
  destruct (Z.min n (dma_size g - dma_head g) >? 0); [|discriminate].
  destruct ((0 <=? dma_head g) &&
            (dma_head g + Z.min n (dma_size g - dma_head g)
             <=? sizeof_dma_buffer)); [|discriminate].
  injection H as <- <- <-. revert Hex. cbn.
  destruct (dma_head g + Z.min n (dma_size g - dma_head g) >=? dma_size g)
    eqn:E; cbn; intros Hex.
  - split; [reflexivity|eauto].
  - lia.
Qed.

End Dma.

(** ** The sector reader *)

Section Chunks.

Context {T : gd_types}.

Lemma flat_map_seq_shift {A : Type} (f : nat -> list A) (n : nat) :
  flat_map f (seq 1 n) = flat_map (fun k => f (S k)) (seq 0 n).
Proof.
  rewrite <- seq_shift.
  induction (seq 0 n) as [|x l IH]; cbn; [reflexivity|].
  rewrite IH. reflexivity.
Qed.

Lemma read_sectors_loop_ok (d : disc_t) (fmt mask dst_size : Z) (count : nat) :
  forall (i : Z) (read : list byte),
    (forall fad, len (disc_read_sector d fad fmt mask) <= DISC_MAX_SECTOR_SIZE) ->
    len read + Z.of_nat count * DISC_MAX_SECTOR_SIZE <= dst_size ->
    read_sectors_loop d fmt mask dst_size count i read =
    Ok (read ++ flat_map (fun k => disc_read_sector d (i + Z.of_nat k) fmt mask)
                  (seq 0 count)).
Proof.
  induction count as [|count IH]; intros i read Hfit Hroom.
  - cbn. rewrite app_nil_r. reflexivity.
  - cbn [read_sectors_loop].
    pose proof (Hfit i) as Hi.
    replace (len (disc_read_sector d i fmt mask) <=? DISC_MAX_SECTOR_SIZE)
      with true by (symmetry; lia).
    assert (Hstep : len read + len (disc_read_sector d i fmt mask)
                    + Z.of_nat count * DISC_MAX_SECTOR_SIZE <= dst_size)
      by (rewrite Nat2Z.inj_succ in Hroom; lia).
    pose proof (len_nonneg (disc_read_sector d i fmt mask)) as Hn.
    assert (Hc : 0 <= Z.of_nat count * DISC_MAX_SECTOR_SIZE)
      by (pose proof (len_nonneg (disc_read_sector d i fmt mask)); nia).
    replace (len read + len (disc_read_sector d i fmt mask) <=? dst_size)
      with true by (symmetry; lia).
    rewrite IH; [|exact Hfit|rewrite len_app; lia].
    cbn [seq flat_map]. rewrite <- app_assoc, Z.add_0_r.
    f_equal. f_equal. f_equal.
    rewrite flat_map_seq_shift.
    apply flat_map_ext. intros k. f_equal. lia.
Qed.

Lemma load_memcpy (b : buffer) (data : list byte) :
  load (memcpy b 0 data) 0 (len data) = data.
Proof.
  unfold load, len. rewrite Nat2Z.id.
  set (g := fun k : nat => memcpy b 0 data (0 + Z.of_nat k)).
  apply nth_ext with (d := x00) (d' := x00).
  - rewrite length_map, length_seq. reflexivity.
  - rewrite length_map, length_seq. intros k Hk.
    rewrite (nth_indep _ x00 (g O))
      by (rewrite length_map, length_seq; exact Hk).
    rewrite map_nth, seq_nth by exact Hk.
    subst g. cbn beta. unfold memcpy, len. cbn [Nat.add].
    replace ((0 <=? 0 + Z.of_nat k)
             && (0 + Z.of_nat k <? 0 + Z.of_nat (length data)))
      with true by (symmetry; apply andb_true_intro; split; lia).
    f_equal. lia.
Qed.

Lemma max_sectors_room :
  0 < DISC_MAX_SECTOR_SIZE ->
  0 <= max_sectors /\ max_sectors * DISC_MAX_SECTOR_SIZE <= sizeof_pio_buffer.
Proof.
  intros H. unfold max_sectors.
  rewrite Z.quot_div_nonneg by (unfold sizeof_pio_buffer; lia).
  split.
  - apply Z.div_pos; [unfold sizeof_pio_buffer|]; lia.
  - rewrite Z.mul_comm. apply Z.mul_div_le. lia.
Qed.

Lemma gdrom_read_sectors_ok (gd : gdrom) (n : Z) :
  0 < DISC_MAX_SECTOR_SIZE ->
  sectors_fit gd ->
  n <= max_sectors ->
  gdrom_read_sectors gd (cdr_first_sector gd) (cdr_secfmt gd) (cdr_secmask gd)
    n sizeof_pio_buffer
  = Ok (disc_sectors gd (cdr_first_sector gd) n).
Proof.
  intros Hpos Hfit Hn. unfold gdrom_read_sectors, disc_sectors, sectors_fit in *.
  destruct (disc gd) as [d|]; [|reflexivity].
  rewrite read_sectors_loop_ok; [reflexivity|exact Hfit|].
  destruct (max_sectors_room Hpos) as [H0 H1].
  change (len []) with 0. nia.
Qed.

(** At each exhaustion of the PIO buffer with sectors remaining,
    [gdrom_pio_read] is one more run of the sector reader. *)
Lemma gdrom_pio_read_refill (gd : gdrom) (arg : Z) :
  pio_head gd = pio_size gd ->
  cdr_num_sectors gd <> 0 ->
  gdrom_pio_read gd arg = gdrom_spi_cdread gd.
Proof.
  intros Hh Hn. unfold gdrom_pio_read.
  rewrite Hh, Z.eqb_refl.
  apply Z.eqb_neq in Hn. rewrite Hn. reflexivity.
Qed.


End Chunks.

(** ** The buffers *)

Section Invariant.
Context {T : gd_types}.

Ltac inv_unfold :=
  unfold buffers_ok, dma_buffer_ok, pio_buffer_ok,
    sizeof_pio_buffer, sizeof_dma_buffer in *.

Lemma read_sectors_loop_bound (d : disc_t) (fmt mask dst_size : Z)
    (count : nat) : forall (i : Z) (read res : list byte),
  len read <= dst_size ->
  read_sectors_loop d fmt mask dst_size count i read = Ok res ->
  len res <= dst_size.
Proof.
  induction count as [|count IH]; intros i read res Hread H.
  - cbn in H. injection H as <-. exact Hread.
  - cbn [read_sectors_loop] in H.
    destruct (len (disc_read_sector d i fmt mask) <=? DISC_MAX_SECTOR_SIZE);
      [|discriminate].
    destruct (len read + len (disc_read_sector d i fmt mask) <=? dst_size)
      eqn:E; [|discriminate].
    apply Z.leb_le in E.
    apply (IH (i + 1) (read ++ disc_read_sector d i fmt mask) res);
      [rewrite len_app; exact E|exact H].
Qed.

Lemma gdrom_read_sectors_bound (gd : gdrom) (fad fmt mask n dst_size : Z)
    (res : list byte) :
  0 <= dst_size ->
  gdrom_read_sectors gd fad fmt mask n dst_size = Ok res ->
  0 <= len res <= dst_size.
Proof.
  intros Hd H. split; [apply len_nonneg|].
  unfold gdrom_read_sectors in H.
  destruct (disc gd) as [d|].
  - apply (read_sectors_loop_bound d fmt mask dst_size (Z.to_nat n) fad []);
      [exact Hd|exact H].
  - injection H as <-. exact Hd.
Qed.

Lemma gdrom_spi_end_inv (gd : gdrom) : buffers_ok gd -> buffers_ok (gdrom_spi_end gd).
Proof. inv_unfold. cbn. tauto. Qed.

Lemma gdrom_spi_cdread_inv (gd gd' : gdrom) :
  buffers_ok gd -> gdrom_spi_cdread gd = Ok gd' -> buffers_ok gd'.
Proof.
  intros Hinv H. unfold gdrom_spi_cdread in H.
  destruct (cdr_dma gd =? 0); cbn [negb] in H;
    apply bind_ok in H; destruct H as (data & Hrd & H);
    apply gdrom_read_sectors_bound in Hrd;
    try (unfold sizeof_pio_buffer, sizeof_dma_buffer; lia);
    injection H as <-; inv_unfold; cbn; lia.
Qed.

Lemma gdrom_spi_write_inv (gd gd' : gdrom) (data : list byte) (size : Z) :
  buffers_ok gd -> gdrom_spi_write gd data size = Ok gd' -> buffers_ok gd'.
Proof.
  intros Hinv H. apply gdrom_spi_write_ok in H.
  inv_unfold. intuition lia.
Qed.

Lemma gdrom_spi_cmd_inv (gd gd' : gdrom) (arg : Z) :
  buffers_ok gd -> gdrom_spi_cmd gd arg = Ok gd' -> buffers_ok gd'.
Proof.
  intros Hinv H.
  destruct (spi_cmd_of (pio_data gd 0)) as [c|] eqn:Hc.
  - destruct (data_to_host c) eqn:Hd.
    + destruct (gdrom_spi_cmd_data_to_host gd gd' arg c Hc Hd H)
        as (g & data & size & Hw & Hh & Hs).
      apply gdrom_spi_write_ok in Hw. inv_unfold. intuition lia.
    + unfold gdrom_spi_cmd in H. rewrite Hc in H.
      pose proof (Z_of_byte_range (pio_buffer gd 4)) as Hb.
      destruct c; try discriminate Hd; try discriminate H;
        try (injection H as <-; inv_unfold; unfold pio_data; cbn; lia).
      * injection H as <-. destruct (seek_type_of _) as [[]|];
          inv_unfold; cbn; lia.
      * apply gdrom_spi_cdread_inv in H; [exact H|].
        inv_unfold. cbn. lia.
  - unfold gdrom_spi_cmd in H. rewrite Hc in H. discriminate.
Qed.

Lemma gdrom_set_disc_inv (gd gd' : gdrom) (d : option disc_t) :
  buffers_ok gd -> gdrom_set_disc gd d = Ok gd' -> buffers_ok gd'.
Proof.
  intros Hinv H. unfold gdrom_set_disc in H.
  apply bind_ok in H. destruct H as (g & Hg & H).
  assert (Hgi : buffers_ok g).
  { destruct (negb (same_disc (disc gd) d)).
    - destruct (disc_get_meta_defined _); [|discriminate].
      injection Hg as <-. exact Hinv.
    - injection Hg as <-. exact Hinv. }
  cbn in H. destruct (disc g).
  - destruct d; [|discriminate]. injection H as <-. exact Hgi.
  - injection H as <-. exact Hgi.
Qed.

Lemma gdrom_ata_cmd_inv (gd gd' : gdrom) (cmd : Z) :
  buffers_ok gd -> gdrom_ata_cmd gd cmd = Ok gd' -> buffers_ok gd'.
Proof.
  intros Hinv H. unfold gdrom_ata_cmd in H.
  apply bind_ok in H. destruct H as ([g rd] & Hg & H).
  assert (Hgi : buffers_ok g).
  { destruct (ata_cmd_of cmd) as [[]|]; try discriminate Hg;
      try (injection Hg as <- _; exact Hinv).
    apply bind_ok in Hg. destruct Hg as (g1 & Hg1 & Hg).
    injection Hg as <- _.
    eapply gdrom_set_disc_inv; [|exact Hg1]. exact Hinv. }
  destruct rd; injection H as <-; inv_unfold; cbn; lia.
Qed.

Lemma gdrom_spi_data_inv (gd gd' : gdrom) (arg : Z) :
  buffers_ok gd -> gdrom_spi_data gd arg = Ok gd' -> buffers_ok gd'.
Proof.
  intros Hinv H. unfold gdrom_spi_data in H.
  destruct (_ && _); [|discriminate]. injection H as <-. exact Hinv.
Qed.

Lemma gdrom_pio_read_inv (gd gd' : gdrom) (arg : Z) :
  buffers_ok gd -> gdrom_pio_read gd arg = Ok gd' -> buffers_ok gd'.
Proof.
  intros Hinv H. unfold gdrom_pio_read in H.
  destruct (pio_head gd =? pio_size gd).
  - destruct (negb (cdr_num_sectors gd =? 0)).
    + apply (gdrom_spi_cdread_inv _ _ Hinv H).
    + injection H as <-. apply gdrom_spi_end_inv, Hinv.
  - injection H as <-. exact Hinv.
Qed.

Lemma gdrom_event_fuel_inv (fuel : nat) :
  forall (gd gd' : gdrom) (ev : gd_event) (arg : Z),
    buffers_ok gd -> gdrom_event_fuel fuel gd ev arg = Ok gd' -> buffers_ok gd'.
Proof.
  induction fuel as [|fuel IH]; intros gd gd' ev arg Hinv H; [discriminate|].
  cbn [gdrom_event_fuel] in H.
  destruct (gd_transitions (state gd) ev) as [cb|]; [|discriminate].
  destruct cb; cbn [gd_call] in H.
  - apply (gdrom_ata_cmd_inv _ _ _ Hinv H).
  - unfold gdrom_pio_write in H.
    destruct (_ && _); [apply (IH _ _ _ _ Hinv H)|].
    destruct (_ && _); [apply (IH _ _ _ _ Hinv H)|].
    injection H as <-. exact Hinv.
  - apply (gdrom_spi_cmd_inv _ _ _ Hinv H).
  - apply (gdrom_pio_read_inv _ _ _ Hinv H).
  - apply (gdrom_spi_data_inv _ _ _ Hinv H).
Qed.

Lemma gdrom_dma_read_inv (gd gd' : gdrom) (n k : Z) (data : list byte) :
  buffers_ok gd -> gdrom_dma_read gd n = Ok (k, data, gd') -> buffers_ok gd'.
Proof.
  intros Hinv H. unfold gdrom_dma_read in H.
  apply bind_ok in H. destruct H as (g & Hg & H).
  assert (Hgi : buffers_ok g).
  { destruct (dma_head gd >=? dma_size gd).
    - apply (gdrom_spi_cdread_inv _ _ Hinv Hg).
    - injection Hg as <-. exact Hinv. }
  destruct (Z.min n (dma_size g - dma_head g) >? 0) eqn:E; [|discriminate].
  destruct (_ && _); [|discriminate].
  injection H as _ _ <-.
  apply Z.gtb_lt in E.
  inv_unfold. cbn.
  destruct (dma_head g + Z.min n (dma_size g - dma_head g) >=? dma_size g);
    cbn; lia.
Qed.

Lemma gd_step_inv (gd gd' : gdrom) (op : gd_op) :
  buffers_ok gd -> gd_step gd op = Ok gd' -> buffers_ok gd'.
Proof.
  intros Hinv H.
  destruct op; cbn [gd_step] in H;
    try (injection H as <-; exact Hinv); try discriminate H.
  - (* read DATA *)
    apply bind_ok in H. destruct H as ([v g] & Hr & H).
    injection H as <-. unfold GD_DATA_r in Hr.
    destruct (_ && _) eqn:E; [|discriminate].
    apply bind_ok in Hr. destruct Hr as (g1 & Hev & Hr).
    injection Hr as _ <-.
    apply (gdrom_event_fuel_inv _ _ _ _ _) in Hev; [exact Hev|].
    apply andb_prop in E. inv_unfold. cbn. lia.
  - (* write DATA *)
    unfold GD_DATA_w in H.
    destruct (_ && _) eqn:E; [|discriminate].
    apply (gdrom_event_fuel_inv _ _ _ _ _) in H; [exact H|].
    apply andb_prop in E. inv_unfold. cbn. lia.
  - (* write COMMAND *)
    apply (gdrom_event_fuel_inv _ _ _ _ _ Hinv H).
  - (* dma begin *)
    unfold gdrom_dma_begin in H.
    destruct (negb _); [|discriminate]. injection H as <-. exact Hinv.
  - (* dma read *)
    apply bind_ok in H. destruct H as ([[k data] g] & Hr & H).
    injection H as <-. apply (gdrom_dma_read_inv _ _ _ _ _ Hinv Hr).
  - (* set disc *)
    apply (gdrom_set_disc_inv _ _ _ Hinv H).
  - (* copy sectors *)
    apply bind_ok in H. destruct H as (x & _ & H).
    injection H as <-. exact Hinv.
Qed.

(** C2 (as the code has it): after every sequence of controller
    operations that runs to its end, the DMA buffer has
    [0 <= head <= size <= capacity], and the PIO buffer has its head and
    its size between 0 and its capacity. *)
Theorem gd_run_buffers_ok (ops : list gd_op) : forall gd gd' : gdrom,
  buffers_ok gd -> gd_run gd ops = Ok gd' -> buffers_ok gd'.
Proof.
  induction ops as [|op ops IH]; intros gd gd' Hinv H.
  - injection H as <-. exact Hinv.
  - cbn [gd_run] in H. apply bind_ok in H. destruct H as (g & Hs & H).
    apply (IH g gd' (gd_step_inv _ _ _ Hinv Hs) H).
Qed.

End Invariant.

(** ** Bytes in buffers *)

Lemma Z_of_byte_of_Z (z : Z) : Z_of_byte (byte_of_Z z) = z mod 256.
Proof.
  unfold Z_of_byte, byte_of_Z.
  pose proof (Z.mod_pos_bound z 256 ltac:(lia)) as Hm.
  destruct (Byte.of_N (Z.to_N (z mod 256))) as [b|] eqn:E.
  - apply Byte.to_of_N in E. rewrite E. lia.
  - apply Byte.of_N_None_iff in E. lia.
Qed.

Lemma load_length (b : buffer) (off n : Z) :
  length (load b off n) = Z.to_nat n.
Proof. unfold load. rewrite length_map, length_seq. reflexivity. Qed.

Lemma len_load (b : buffer) (off n : Z) : 0 <= n -> len (load b off n) = n.
Proof. intros H. unfold len. rewrite load_length. lia. Qed.

Lemma load_nth (b : buffer) (off n : Z) (k : nat) :
  (k < Z.to_nat n)%nat ->
  nth k (load b off n) x00 = b (off + Z.of_nat k).
Proof.
  intros Hk. unfold load.
  set (g := fun k : nat => b (off + Z.of_nat k)).
  rewrite (nth_indep _ x00 (g O)) by (rewrite length_map, length_seq; exact Hk).
  rewrite map_nth, seq_nth by exact Hk. reflexivity.
Qed.

Lemma load_ext (b b' : buffer) (off n : Z) :
  (forall i, off <= i < off + n -> b i = b' i) ->
  load b off n = load b' off n.
Proof.
  intros H. unfold load. apply map_ext_in. intros k Hk.
  apply in_seq in Hk. apply H. lia.
Qed.

Lemma load_memcpy_at (b : buffer) (off : Z) (data : list byte) :
  load (memcpy b off data) off (len data) = data.
Proof.
  apply nth_ext with (d := x00) (d' := x00).
  - rewrite load_length. unfold len. lia.
  - rewrite load_length. intros k Hk. rewrite load_nth by exact Hk.
    unfold memcpy, len in *.
    replace ((off <=? off + Z.of_nat k)
             && (off + Z.of_nat k <? off + Z.of_nat (length data)))
      with true by (symmetry; apply andb_true_intro; split; lia).
    f_equal. lia.
Qed.

Lemma memcpy_outside (b : buffer) (off : Z) (data : list byte) (i : Z) :
  i < off \/ off + len data <= i -> memcpy b off data i = b i.
Proof.
  intros H. unfold memcpy.
  replace ((off <=? i) && (i <? off + len data)) with false; [reflexivity|].
  symmetry. apply andb_false_iff. lia.
Qed.

Lemma memcpy_inside (b : buffer) (off : Z) (data : list byte) (i : Z) :
  off <= i < off + len data ->
  memcpy b off data i = nth (Z.to_nat (i - off)) data x00.
Proof.
  intros H. unfold memcpy.
  replace ((off <=? i) && (i <? off + len data)) with true; [reflexivity|].
  symmetry. apply andb_true_intro. split; lia.
Qed.

Lemma load_memcpy_outside (b : buffer) (off : Z) (data : list byte) (o n : Z) :
  o + n <= off \/ off + len data <= o ->
  load (memcpy b off data) o n = load b o n.
Proof.
  intros H. apply load_ext. intros i Hi. apply memcpy_outside. lia.
Qed.

Lemma load_app (b : buffer) (off n1 n2 : Z) :
  0 <= n1 -> 0 <= n2 ->
  load b off (n1 + n2) = load b off n1 ++ load b (off + n1) n2.
Proof.
  intros H1 H2. unfold load.
  rewrite Z2Nat.inj_add by assumption.
  rewrite seq_app, map_app. f_equal. cbn [Nat.add].
  generalize (Z.to_nat n2) as m. intros m.
  apply nth_ext with (d := x00) (d' := x00).
  - rewrite !length_map, !length_seq. reflexivity.
  - rewrite length_map, length_seq. intros k Hk.
    set (g1 := fun k : nat => b (off + Z.of_nat k)).
    set (g2 := fun k : nat => b (off + n1 + Z.of_nat k)).
    rewrite (nth_indep _ x00 (g1 O))
      by (rewrite length_map, length_seq; exact Hk).
    rewrite (nth_indep (map g2 _) x00 (g2 O))
      by (rewrite length_map, length_seq; exact Hk).
    rewrite !map_nth, !seq_nth by exact Hk.
    subst g1 g2. cbn beta. f_equal. lia.
Qed.

Lemma load_firstn (b : buffer) (off n m : Z) :
  0 <= n <= m ->
  firstn (Z.to_nat n) (load b off m) = load b off n.
Proof.
  intros H. replace m with (n + (m - n)) by lia.
  rewrite load_app by lia.
  rewrite firstn_app, load_length, Nat.sub_diag, firstn_O, app_nil_r.
  apply firstn_all2. rewrite load_length. lia.
Qed.

(** A word written to the data register reads back as its low 16 bits. *)
Lemma bytes_word_of_word_bytes (value : Z) :
  match word_bytes value with
  | [lo; hi] => bytes_word lo hi = Z.land value 0xffff
  | _ => False
  end.
Proof.
  unfold word_bytes, bytes_word. cbn zeta.
  rewrite !Z_of_byte_of_Z.
  assert (H : 0 <= Z.land value 0xffff < 65536).
  { change 0xffff with (Z.ones 16). rewrite Z.land_ones by lia.
    apply Z.mod_pos_bound. lia. }
  rewrite Z.shiftr_div_pow2 by lia. change (2 ^ 8) with 256.
  rewrite (Z.mod_small (Z.land value 65535 / 256)).
  - pose proof (Z.div_mod (Z.land value 0xffff) 256 ltac:(lia)). lia.
  - split; [apply Z.div_pos; lia|]. apply Z.div_lt_upper_bound; lia.
Qed.

Lemma len_word_bytes (value : Z) : len (word_bytes value) = 2.
Proof. reflexivity. Qed.

Lemma len_flat_map_word_bytes (ws : list Z) :
  len (flat_map word_bytes ws) = 2 * Z.of_nat (length ws).
Proof.
  induction ws as [|w ws IH]; [reflexivity|].
  cbn [flat_map length]. rewrite len_app, IH, len_word_bytes. lia.
Qed.

Lemma memcpy_memcpy (b : buffer) (off : Z) (l1 l2 : list byte) (i : Z) :
  memcpy (memcpy b off l1) (off + len l1) l2 i = memcpy b off (l1 ++ l2) i.
Proof.
  pose proof (len_nonneg l1) as H1. pose proof (len_nonneg l2) as H2.
  destruct (Z_lt_ge_dec i off) as [Hlo|Hlo].
  - rewrite !memcpy_outside by (rewrite ?len_app; lia). reflexivity.
  - destruct (Z_lt_ge_dec i (off + len l1)) as [Hm|Hm].
    + rewrite (memcpy_outside _ (off + len l1)) by lia.
      rewrite !memcpy_inside by (rewrite ?len_app; lia).
      rewrite app_nth1 by (unfold len in *; lia). reflexivity.
    + destruct (Z_lt_ge_dec i (off + len l1 + len l2)) as [Hh|Hh].
      * rewrite !memcpy_inside by (rewrite ?len_app; lia).
        rewrite app_nth2 by (unfold len in *; lia).
        f_equal. unfold len in *. lia.
      * rewrite !memcpy_outside by (rewrite ?len_app; lia). reflexivity.
Qed.

Lemma memcpy_ext (b b' : buffer) (off : Z) (l : list byte) (i : Z) :
  b i = b' i -> memcpy b off l i = memcpy b' off l i.
Proof. intros H. unfold memcpy. destruct (_ && _); [reflexivity|exact H]. Qed.

(** ** Register accesses *)

Section Registers.

Context {T : gd_types}.

(** X1: a data-register read is fatal in the three states that take no
    PIO read (command, packet and SET_MODE reception), a data-register
    write is fatal in the three states that take no PIO write (command,
    PIO delivery, DMA delivery), and a write to the interrupt-reason or
    sector-number register is fatal in every state. *)
Theorem data_register_illegal_states (gd : gdrom) (value : Z) :
  0 <= pio_head gd ->
  pio_head gd + 2 <= sizeof_pio_buffer ->
  (match state gd with
   | STATE_WRITE_SPI_DATA | STATE_WRITE_DMA_DATA => True
   | _ => GD_DATA_r gd = Err Fatal
   end)
  /\ (match state gd with
      | STATE_READ_ATA_DATA | STATE_READ_SPI_DATA => True
      | _ => GD_DATA_w gd value = Err Fatal
      end)
  /\ gd_step gd (op_write_INTREASON value) = Err Fatal
  /\ gd_step gd (op_write_SECTNUM value) = Err Fatal.
Proof.
  intros H0 H1.
  assert (Hb : (0 <=? pio_head gd) && (pio_head gd + 2 <=? sizeof_pio_buffer)
               = true) by (apply andb_true_intro; split; lia).
  repeat split.
  - unfold GD_DATA_r. rewrite Hb, gdrom_event_unfold.
    destruct (state gd) eqn:E; try exact I;
      cbn [state set_pio_head]; rewrite E; reflexivity.
  - unfold GD_DATA_w. rewrite Hb, gdrom_event_unfold.
    destruct (state gd) eqn:E; try exact I;
      cbn [state set_pio_head set_pio_buffer]; rewrite E; reflexivity.
Qed.

(** One word of a command packet that is not its last. *)
Lemma GD_DATA_w_packet_word (g : gdrom) (value : Z) :
  state g = STATE_READ_ATA_DATA ->
  0 <= pio_head g -> pio_head g + 2 < GD_SPI_CMD_SIZE ->
  GD_DATA_w g value =
  Ok (set_pio_head (pio_head g + 2)
        (set_pio_buffer (memcpy (pio_buffer g) (pio_head g) (word_bytes value))
           g)).
Proof.
  intros Hst H0 H1. unfold GD_DATA_w, GD_SPI_CMD_SIZE in *.
  replace ((0 <=? pio_head g) && (pio_head g + 2 <=? sizeof_pio_buffer))
    with true
    by (symmetry; apply andb_true_intro; unfold sizeof_pio_buffer; split; lia).
  rewrite gdrom_event_unfold. cbn [state set_pio_head set_pio_buffer].
  rewrite Hst. cbn [gd_transitions gd_call]. unfold gdrom_pio_write.
  cbn [state pio_head set_pio_head set_pio_buffer]. rewrite Hst.
  cbn [gd_state_eqb andb]. unfold GD_SPI_CMD_SIZE.
  replace (pio_head g + 2 =? 12) with false by (symmetry; lia).
  reflexivity.
Qed.

(** The last word of a command packet. *)
Lemma GD_DATA_w_packet_last (g : gdrom) (value : Z) :
  state g = STATE_READ_ATA_DATA ->
  pio_head g + 2 = GD_SPI_CMD_SIZE ->
  GD_DATA_w g value =
  gdrom_spi_cmd
    (set_pio_head (pio_head g + 2)
       (set_pio_buffer (memcpy (pio_buffer g) (pio_head g) (word_bytes value))
          g)) 0.
Proof.
  intros Hst H1. unfold GD_DATA_w, GD_SPI_CMD_SIZE in *.
  replace ((0 <=? pio_head g) && (pio_head g + 2 <=? sizeof_pio_buffer))
    with true
    by (symmetry; apply andb_true_intro; unfold sizeof_pio_buffer; split; lia).
  rewrite gdrom_event_unfold. cbn [state set_pio_head set_pio_buffer].
  rewrite Hst. cbn [gd_transitions gd_call]. unfold gdrom_pio_write.
  cbn [state pio_head set_pio_head set_pio_buffer]. rewrite Hst.
  cbn [gd_state_eqb andb]. unfold GD_SPI_CMD_SIZE.
  replace (pio_head g + 2 =? 12) with true by (symmetry; lia).
  cbn [gdrom_event_fuel state set_pio_head set_pio_buffer]. rewrite Hst.
  reflexivity.
Qed.

(** Running operations one after the other. *)
Lemma gd_run_app (ops1 ops2 : list gd_op) : forall g : gdrom,
  gd_run g (ops1 ++ ops2) = (g' <- gd_run g ops1 ;; gd_run g' ops2).
Proof.
  induction ops1 as [|op ops1 IH]; intros g; [reflexivity|].
  cbn [app gd_run]. destruct (gd_step g op) as [g1|f]; [|reflexivity].
  cbn [bind]. apply IH.
Qed.

Lemma gd_run_one (g : gdrom) (op : gd_op) : gd_run g [op] = gd_step g op.
Proof. cbn [gd_run]. destruct (gd_step g op); reflexivity. Qed.

(** The packet command: the controller waits for the packet, without
    an interrupt. *)
Lemma gdrom_ata_cmd_packet (gd : gdrom) (v : Z) :
  ata_cmd_of v = Some GD_ATA_PACKET_CMD ->
  exists g : gdrom,
    gdrom_ata_cmd gd v = Ok g
    /\ state g = STATE_READ_ATA_DATA
    /\ pio_head g = 0
    /\ pio_buffer g = pio_buffer gd
    /\ holly g = holly gd
    /\ error g = error_zero
    /\ status g = mk_status false true false false (status_rest (status gd))
    /\ CoD (ireason g) = true /\ IO (ireason g) = false
    /\ disc g = disc gd
    /\ features g = features gd
    /\ cdr_num_sectors g = cdr_num_sectors gd
    /\ dma_head g = dma_head gd /\ dma_size g = dma_size gd
    /\ hw_info g = hw_info gd.
Proof.
  intros Hv. unfold gdrom_ata_cmd. rewrite Hv.
  eexists. split; [reflexivity|]. repeat split.
Qed.

(** The words of a command packet before its last. *)
Lemma packet_words_run (ws : list Z) : forall g : gdrom,
  state g = STATE_READ_ATA_DATA ->
  0 <= pio_head g ->
  pio_head g + 2 * Z.of_nat (length ws) < GD_SPI_CMD_SIZE ->
  exists g' : gdrom,
    gd_run g (map op_write_DATA ws) = Ok g'
    /\ pio_head g' = pio_head g + 2 * Z.of_nat (length ws)
    /\ (forall i, pio_buffer g' i =
                  memcpy (pio_buffer g) (pio_head g) (flat_map word_bytes ws) i)
    /\ pio_frame g g'.
Proof.
  induction ws as [|w ws IH]; intros g Hst H0 H1.
  - exists g. cbn [map gd_run length flat_map].
    split; [reflexivity|]. split; [lia|].
    split; [intros i; rewrite memcpy_outside by (cbn; lia); reflexivity|].
    unfold pio_frame. repeat split.
  - cbn [map gd_run gd_step length] in *.
    rewrite GD_DATA_w_packet_word by (try assumption; lia).
    cbn [bind].
    destruct (IH (set_pio_head (pio_head g + 2)
                    (set_pio_buffer
                       (memcpy (pio_buffer g) (pio_head g) (word_bytes w)) g)))
      as (g' & Hrun & Hh & Hb & Hf).
    + exact Hst.
    + cbn [pio_head set_pio_head set_pio_buffer]. lia.
    + cbn [pio_head set_pio_head set_pio_buffer]. lia.
    + exists g'. split; [exact Hrun|].
      split; [rewrite Hh; cbn [pio_head set_pio_head set_pio_buffer]; lia|].
      split.
      * intros i. rewrite Hb. cbn [pio_buffer pio_head set_pio_head
                                   set_pio_buffer flat_map].
        rewrite <- memcpy_memcpy. rewrite len_word_bytes. reflexivity.
      * unfold pio_frame in *. cbn in Hf. exact Hf.
Qed.

(** The reception of a command packet. *)
Lemma packet_received (gd : gdrom) (v : Z) (ws : list Z) :
  ata_cmd_of v = Some GD_ATA_PACKET_CMD ->
  length ws = 6%nat ->
  exists g : gdrom,
    gd_run gd (op_write_COMMAND v :: map op_write_DATA ws)
    = gdrom_spi_cmd g 0
    /\ load (pio_buffer g) 0 12 = flat_map word_bytes ws
    /\ state g = STATE_READ_ATA_DATA
    /\ pio_head g = 12
    /\ holly g = holly gd
    /\ error g = error_zero
    /\ status g = mk_status false true false false (status_rest (status gd))
    /\ CoD (ireason g) = true /\ IO (ireason g) = false
    /\ disc g = disc gd
    /\ features g = features gd
    /\ cdr_num_sectors g = cdr_num_sectors gd
    /\ dma_head g = dma_head gd /\ dma_size g = dma_size gd
    /\ hw_info g = hw_info gd.
Proof.
  intros Hv Hlen.
  destruct (exists_last (l := ws)) as (ws' & w & ->);
    [intros ->; discriminate|].
  rewrite length_app in Hlen. cbn [length] in Hlen.
  cbn [gd_run gd_step]. unfold GD_STATUS_COMMAND_w.
  rewrite gdrom_event_ata_cmd.
  destruct (gdrom_ata_cmd_packet gd v Hv)
    as (g0 & -> & Hst0 & Hh0 & Hpb0 & Hho0 & He0 & Hs0 & Hc0 & Hi0 & Hd0
        & Hfe0 & Hn0 & Hdh0 & Hds0 & Hhw0).
  cbn [bind].
  destruct (packet_words_run ws' g0) as (g1 & Hrun & Hh & Hb & Hf);
    [exact Hst0|lia|unfold GD_SPI_CMD_SIZE; lia|].
  rewrite map_app, gd_run_app, Hrun. cbn [bind map]. rewrite gd_run_one.
  cbn [gd_step].
  unfold pio_frame in Hf.
  destruct Hf as (Hst & Hhw & Hd & He & Hfe & Hir & Hsn & Hbc & Hs & _ & _ & _
                  & _ & Hn & _ & _ & _ & Hdh & Hds & Hho).
  rewrite GD_DATA_w_packet_last
    by (first [congruence | unfold GD_SPI_CMD_SIZE; lia]).
  eexists. split; [reflexivity|].
  cbn [pio_buffer pio_head state holly error status ireason disc features
       cdr_num_sectors dma_head dma_size hw_info set_pio_head set_pio_buffer].
  split.
  { rewrite <- (load_memcpy_at (pio_buffer gd) 0 (flat_map word_bytes (ws' ++ [w]))).
    rewrite len_flat_map_word_bytes, length_app. cbn [length].
    replace (2 * Z.of_nat (length ws' + 1)) with 12 by lia.
    apply load_ext. intros i Hi.
    rewrite flat_map_app. cbn [flat_map]. rewrite app_nil_r.
    rewrite <- memcpy_memcpy, len_flat_map_word_bytes.
    replace (pio_head g1) with (0 + 2 * Z.of_nat (length ws')) by lia.
    apply memcpy_ext. rewrite Hb, Hh0.
    apply memcpy_ext. rewrite Hpb0. reflexivity. }
  rewrite Hst, Hho, He, Hs, Hir, Hd, Hfe, Hn, Hdh, Hds.
  rewrite Hhw.
  rewrite Hst0, Hho0, He0, Hs0, Hc0, Hi0, Hd0, Hfe0, Hn0, Hdh0, Hds0, Hhw0.
  repeat split. lia.
Qed.

(** X2: from any state, the packet command followed by six data-register
    writes hands the SPI packet processor a state whose PIO buffer starts
    with the twelve bytes written, low byte of each word first; the
    reception raises no interrupt, clears the error register, leaves DRQ
    set and BSY clear, and touches neither the disc, the CD_READ session
    nor the DMA buffer. *)
Theorem packet_reception (gd : gdrom) (v : Z) (ws : list Z) :
  ata_cmd_of v = Some GD_ATA_PACKET_CMD ->
  length ws = 6%nat ->
  exists g : gdrom,
    gd_run gd (op_write_COMMAND v :: map op_write_DATA ws)
    = gdrom_spi_cmd g 0
    /\ load (pio_buffer g) 0 12 = flat_map word_bytes ws
    /\ state g = STATE_READ_ATA_DATA
    /\ pio_head g = 12
    /\ holly g = holly gd
    /\ error g = error_zero
    /\ status g = mk_status false true false false (status_rest (status gd))
    /\ CoD (ireason g) = true /\ IO (ireason g) = false
    /\ disc g = disc gd
    /\ features g = features gd
    /\ cdr_num_sectors g = cdr_num_sectors gd
    /\ dma_head g = dma_head gd /\ dma_size g = dma_size gd.
Proof.
  intros Hv Hlen.
  destruct (packet_received gd v ws Hv Hlen) as (g & H).
  exists g. intuition.
Qed.

End Registers.

(** ** The mode page: SET_MODE and REQ_MODE *)

Section ModePage.

Context {T : gd_types}.

Lemma words_of_word_bytes (ws : list Z) :
  words_of (flat_map word_bytes ws) = map (fun w => Z.land w 0xffff) ws.
Proof.
  induction ws as [|w ws IH]; [reflexivity|].
  cbn [flat_map map]. pose proof (bytes_word_of_word_bytes w) as H.
  unfold word_bytes in *. cbn [app words_of]. rewrite H. f_equal. exact IH.
Qed.

(** One word of a SET_MODE payload that is not its last. *)
Lemma GD_DATA_w_payload_word (g : gdrom) (value : Z) :
  state g = STATE_READ_SPI_DATA ->
  0 <= pio_head g -> pio_head g + 2 <= sizeof_pio_buffer ->
  pio_head g + 2 <> pio_size g ->
  GD_DATA_w g value =
  Ok (set_pio_head (pio_head g + 2)
        (set_pio_buffer (memcpy (pio_buffer g) (pio_head g) (word_bytes value))
           g)).
Proof.
  intros Hst H0 H1 H2. unfold GD_DATA_w.
  replace ((0 <=? pio_head g) && (pio_head g + 2 <=? sizeof_pio_buffer))
    with true by (symmetry; apply andb_true_intro; split; lia).
  rewrite gdrom_event_unfold. cbn [state set_pio_head set_pio_buffer].
  rewrite Hst. cbn [gd_transitions gd_call]. unfold gdrom_pio_write.
  cbn [state pio_head pio_size set_pio_head set_pio_buffer]. rewrite Hst.
  cbn [gd_state_eqb andb].
  replace (pio_head g + 2 =? pio_size g) with false by (symmetry; lia).
  reflexivity.
Qed.

(** The last word of a SET_MODE payload. *)
Lemma GD_DATA_w_payload_last (g : gdrom) (value : Z) :
  state g = STATE_READ_SPI_DATA ->
  0 <= pio_head g -> pio_head g + 2 <= sizeof_pio_buffer ->
  pio_head g + 2 = pio_size g ->
  GD_DATA_w g value =
  gdrom_spi_data
    (set_pio_head (pio_head g + 2)
       (set_pio_buffer (memcpy (pio_buffer g) (pio_head g) (word_bytes value))
          g)) 0.
Proof.
  intros Hst H0 H1 H2. unfold GD_DATA_w.
  replace ((0 <=? pio_head g) && (pio_head g + 2 <=? sizeof_pio_buffer))
    with true by (symmetry; apply andb_true_intro; split; lia).
  rewrite gdrom_event_unfold. cbn [state set_pio_head set_pio_buffer].
  rewrite Hst. cbn [gd_transitions gd_call]. unfold gdrom_pio_write.
  cbn [state pio_head pio_size set_pio_head set_pio_buffer]. rewrite Hst.
  cbn [gd_state_eqb andb].
  replace (pio_head g + 2 =? pio_size g) with true by (symmetry; lia).
  cbn [gdrom_event_fuel state set_pio_head set_pio_buffer]. rewrite Hst.
  reflexivity.
Qed.

Lemma payload_words_run (ws : list Z) : forall g : gdrom,
  state g = STATE_READ_SPI_DATA ->
  0 <= pio_head g ->
  pio_head g + 2 * Z.of_nat (length ws) < pio_size g ->
  pio_size g <= sizeof_pio_buffer ->
  exists g' : gdrom,
    gd_run g (map op_write_DATA ws) = Ok g'
    /\ pio_head g' = pio_head g + 2 * Z.of_nat (length ws)
    /\ (forall i, pio_buffer g' i =
                  memcpy (pio_buffer g) (pio_head g) (flat_map word_bytes ws) i)
    /\ pio_frame g g'.
Proof.
  induction ws as [|w ws IH]; intros g Hst H0 H1 Hcap.
  - exists g. cbn [map gd_run length flat_map].
    split; [reflexivity|]. split; [lia|].
    split; [intros i; rewrite memcpy_outside by (cbn; lia); reflexivity|].
    unfold pio_frame. repeat split.
  - cbn [map gd_run gd_step length] in *.
    rewrite GD_DATA_w_payload_word by (try assumption; lia).
    cbn [bind].
    destruct (IH (set_pio_head (pio_head g + 2)
                    (set_pio_buffer
                       (memcpy (pio_buffer g) (pio_head g) (word_bytes w)) g)))
      as (g' & Hrun & Hh & Hb & Hf).
    + exact Hst.
    + cbn [pio_head set_pio_head set_pio_buffer]. lia.
    + cbn [pio_head pio_size set_pio_head set_pio_buffer]. lia.
    + exact Hcap.
    + exists g'. split; [exact Hrun|].
      split; [rewrite Hh; cbn [pio_head set_pio_head set_pio_buffer]; lia|].
      split.
      * intros i. rewrite Hb. cbn [pio_buffer pio_head set_pio_head
                                   set_pio_buffer flat_map].
        rewrite <- memcpy_memcpy. rewrite len_word_bytes. reflexivity.
      * unfold pio_frame in *. cbn in Hf. exact Hf.
Qed.

(** The payload of a SET_MODE, written word by word, lands in the
    hardware information block. *)
Lemma payload_stored (g : gdrom) (ws : list Z) :
  state g = STATE_READ_SPI_DATA ->
  pio_head g = 0 ->
  pio_size g = 2 * Z.of_nat (length ws) ->
  ws <> [] ->
  0 <= pio_offset g ->
  pio_offset g + pio_size g <= sizeof_hw_info ->
  pio_size g <= sizeof_pio_buffer ->
  exists g' : gdrom,
    gd_run g (map op_write_DATA ws) = Ok g'
    /\ load (hw_info g') (pio_offset g) (pio_size g) = flat_map word_bytes ws
    /\ (forall i, i < pio_offset g \/ pio_offset g + pio_size g <= i ->
                  hw_info g' i = hw_info g i)
    /\ state g' = STATE_READ_ATA_CMD
    /\ holly g' = holly_raise_interrupt :: holly g
    /\ DRQ (status g') = false /\ BSY (status g') = false
    /\ DRDY (status g') = true
    /\ disc g' = disc g
    /\ dma_head g' = dma_head g /\ dma_size g' = dma_size g.
Proof.
  intros Hst Hh Hsz Hne Hoff Hfit Hcap.
  destruct (exists_last Hne) as (ws' & w & ->).
  rewrite length_app in Hsz. cbn [length] in Hsz.
  destruct (payload_words_run ws' g) as (g1 & Hrun & Hh1 & Hb & Hf);
    try assumption; try lia.
  rewrite map_app, gd_run_app, Hrun. cbn [bind map]. rewrite gd_run_one.
  cbn [gd_step].
  unfold pio_frame in Hf.
  destruct Hf as (Hst1 & Hhw & Hd & He & Hfe & Hir & Hsn & Hbc & Hs & _ & _ & _
                  & _ & Hn & Hps & Hpo & _ & Hdh & Hds & Hho).
  rewrite GD_DATA_w_payload_last by (first [congruence | lia]).
  unfold gdrom_spi_data.
  cbn [pio_offset pio_size pio_buffer hw_info set_pio_head set_pio_buffer].
  rewrite Hpo, Hps.
  replace ((0 <=? pio_offset g) && (0 <=? pio_size g)
           && (pio_offset g + pio_size g <=? sizeof_hw_info)
           && (pio_size g <=? sizeof_pio_buffer)) with true
    by (symmetry; repeat (apply andb_true_intro; split); lia).
  eexists. split; [reflexivity|].
  assert (Hbytes : load (memcpy (pio_buffer g1) (pio_head g1) (word_bytes w))
                     0 (pio_size g) = flat_map word_bytes (ws' ++ [w])).
  { rewrite <- (load_memcpy_at (pio_buffer g) 0
                  (flat_map word_bytes (ws' ++ [w]))).
    rewrite len_flat_map_word_bytes, length_app. cbn [length].
    replace (2 * Z.of_nat (length ws' + 1)) with (pio_size g) by lia.
    apply load_ext. intros i Hi.
    rewrite flat_map_app. cbn [flat_map]. rewrite app_nil_r.
    rewrite <- memcpy_memcpy, len_flat_map_word_bytes.
    replace (pio_head g1) with (0 + 2 * Z.of_nat (length ws')) by lia.
    apply memcpy_ext. rewrite Hb, Hh. reflexivity. }
  rewrite Hbytes.
  split.
  { cbn [hw_info gdrom_spi_end set_hw_info set_ireason set_status set_state
         raise_interrupt set_holly].
    rewrite <- (load_memcpy_at (hw_info g1) (pio_offset g)
                  (flat_map word_bytes (ws' ++ [w]))) at 2.
    rewrite len_flat_map_word_bytes, length_app. cbn [length].
    replace (2 * Z.of_nat (length ws' + 1)) with (pio_size g) by lia.
    reflexivity. }
  split.
  { intros i Hi.
    cbn [hw_info gdrom_spi_end set_hw_info set_ireason set_status set_state
         raise_interrupt set_holly].
    rewrite memcpy_outside, Hhw; [reflexivity|].
    rewrite len_flat_map_word_bytes, length_app. cbn [length]. lia. }
  repeat split; cbn; congruence.
Qed.

(** SET_MODE starts the reception of its payload. *)
Lemma gdrom_spi_cmd_set_mode (g : gdrom) (arg : Z) :
  spi_cmd_of (pio_data g 0) = Some GD_SPI_SET_MODE ->
  exists g' : gdrom,
    gdrom_spi_cmd g arg = Ok g'
    /\ state g' = STATE_READ_SPI_DATA
    /\ pio_head g' = 0
    /\ pio_size g' = pio_data g 4
    /\ pio_offset g' = pio_data g 2
    /\ holly g' = holly_raise_interrupt :: holly g
    /\ hw_info g' = hw_info g
    /\ disc g' = disc g
    /\ dma_head g' = dma_head g /\ dma_size g' = dma_size g.
Proof.
  intros Hc. unfold gdrom_spi_cmd. rewrite Hc.
  eexists. split; [reflexivity|]. repeat split.
Qed.

(** REQ_MODE hands out the slice of the hardware information block that
    the packet names. *)
Lemma req_mode_reply (g : gdrom) (arg : Z) :
  spi_cmd_of (pio_data g 0) = Some GD_SPI_REQ_MODE ->
  pio_data g 2 + pio_data g 4 <= sizeof_hw_info ->
  exists g' : gdrom,
    gdrom_spi_cmd g arg = Ok g'
    /\ load (pio_buffer g') 0 (pio_data g 4)
       = load (hw_info g) (pio_data g 2) (pio_data g 4)
    /\ state g' = STATE_WRITE_SPI_DATA
    /\ pio_head g' = 0
    /\ pio_size g' = pio_data g 4
    /\ byte_count g' = pio_data g 4
    /\ cdr_num_sectors g' = 0
    /\ holly g' = holly_raise_interrupt :: holly g
    /\ hw_info g' = hw_info g
    /\ disc g' = disc g.
Proof.
  intros Hc Hfit. unfold gdrom_spi_cmd. rewrite Hc.
  pose proof (Z_of_byte_range (pio_buffer g 2)) as H2.
  pose proof (Z_of_byte_range (pio_buffer g 4)) as H4.
  fold (pio_data g 2) in H2. fold (pio_data g 4) in H4.
  unfold gdrom_spi_write.
  replace (pio_data g 4 <? sizeof_pio_buffer) with true
    by (symmetry; unfold sizeof_pio_buffer; lia).
  cbn [hw_info set_status set_cdr_num_sectors].
  rewrite len_load by lia.
  replace ((0 <=? pio_data g 4)
           && (pio_data g 4 <=? sizeof_hw_info - pio_data g 2)) with true
    by (symmetry; apply andb_true_intro; split; lia).
  eexists. split; [reflexivity|].
  split; [|repeat split].
  cbn [pio_buffer set_state raise_interrupt set_holly set_status set_ireason
       set_byte_count set_pio_head set_pio_size set_pio_buffer].
  rewrite load_firstn by lia.
  assert (Hl : len (load (hw_info g) (pio_data g 2) (pio_data g 4))
               = pio_data g 4) by (apply len_load; lia).
  set (d := load (hw_info g) (pio_data g 2) (pio_data g 4)) in *.
  rewrite <- Hl. apply load_memcpy_at.
Qed.

Lemma load_two (b : buffer) (off n : Z) :
  0 <= n ->
  load b off (2 + n) = b off :: b (off + 1) :: load b (off + 2) n.
Proof.
  intros Hn. rewrite load_app by lia.
  change (load b off 2) with [b (off + 0); b (off + 1)].
  rewrite Z.add_0_r. reflexivity.
Qed.

(** Reading a PIO reply word by word returns its bytes, two to a word,
    and completes the SPI phase. *)
Lemma read_words_core (k : nat) : forall g : gdrom,
  state g = STATE_WRITE_SPI_DATA ->
  cdr_num_sectors g = 0 ->
  0 <= pio_head g ->
  pio_size g = pio_head g + 2 * Z.of_nat (S k) ->
  pio_size g <= sizeof_pio_buffer ->
  read_words (S k) g =
  Ok (words_of (load (pio_buffer g) (pio_head g) (2 * Z.of_nat (S k))),
      gdrom_spi_end (set_pio_head (pio_size g) g)).
Proof.
  induction k as [|k IH]; intros g Hst Hn Hh Hsz Hcap.
  - cbn [read_words]. unfold GD_DATA_r.
    replace ((0 <=? pio_head g) && (pio_head g + 2 <=? sizeof_pio_buffer))
      with true by (symmetry; apply andb_true_intro; split; lia).
    rewrite gdrom_event_unfold. cbn [state set_pio_head].
    rewrite Hst. cbn [gd_transitions gd_call]. unfold gdrom_pio_read.
    cbn [pio_head pio_size cdr_num_sectors set_pio_head].
    replace (pio_head g + 2 =? pio_size g) with true by (symmetry; lia).
    rewrite Hn. cbn [Z.eqb negb bind fst snd].
    replace (pio_head g + 2) with (pio_size g) by lia.
    change (2 * Z.of_nat 1) with (2 + 0). rewrite load_two by lia.
    reflexivity.
  - change (read_words (S (S k)) g)
      with (r <- GD_DATA_r g ;; r' <- read_words (S k) (snd r) ;;
            Ok (fst r :: fst r', snd r')).
    unfold GD_DATA_r.
    replace ((0 <=? pio_head g) && (pio_head g + 2 <=? sizeof_pio_buffer))
      with true by (symmetry; apply andb_true_intro; split; lia).
    rewrite gdrom_event_unfold. cbn [state set_pio_head].
    rewrite Hst. cbn [gd_transitions gd_call]. unfold gdrom_pio_read.
    cbn [pio_head pio_size cdr_num_sectors set_pio_head].
    replace (pio_head g + 2 =? pio_size g) with false by (symmetry; lia).
    cbn [bind fst snd].
    rewrite IH; cbn [state cdr_num_sectors pio_head pio_size pio_buffer
                     set_pio_head]; try assumption; try lia.
    cbn [bind fst snd].
    replace (2 * Z.of_nat (S (S k))) with (2 + 2 * Z.of_nat (S k)) by lia.
    rewrite load_two by lia. reflexivity.
Qed.

(** Byte [k] of a received packet. *)
Lemma pio_data_of_load (g : gdrom) (bytes : list byte) (k : nat) :
  load (pio_buffer g) 0 12 = bytes ->
  (k < 12)%nat ->
  pio_data g (Z.of_nat k) = Z_of_byte (nth k bytes x00).
Proof.
  intros <- Hk. unfold pio_data.
  rewrite load_nth by (change (Z.to_nat 12) with 12%nat; exact Hk).
  reflexivity.
Qed.

(** X3: REQ_MODE with offset [data[2]] and size [data[4]] inside the
    hardware information block starts a PIO transfer of exactly the
    bytes [offset .. offset + size - 1] of the block, announces [size] in
    the byte-count register, raises the interrupt once, and leaves the
    block as it was. *)
Theorem gdrom_spi_cmd_req_mode (g : gdrom) (arg : Z) :
  spi_cmd_of (pio_data g 0) = Some GD_SPI_REQ_MODE ->
  pio_data g 2 + pio_data g 4 <= sizeof_hw_info ->
  exists g' : gdrom,
    gdrom_spi_cmd g arg = Ok g'
    /\ load (pio_buffer g') 0 (pio_data g 4)
       = load (hw_info g) (pio_data g 2) (pio_data g 4)
    /\ state g' = STATE_WRITE_SPI_DATA
    /\ pio_head g' = 0
    /\ pio_size g' = pio_data g 4
    /\ byte_count g' = pio_data g 4
    /\ holly g' = holly_raise_interrupt :: holly g
    /\ hw_info g' = hw_info g.
Proof.
  intros Hc Hfit.
  destruct (req_mode_reply g arg Hc Hfit) as (g' & H).
  exists g'. intuition.
Qed.

(** X4: in the payload phase of a SET_MODE (head 0, an even size
    [2 * length ws > 0], the range [offset .. offset + size - 1] inside
    the hardware information block), writing the words [ws] to the data
    register stores their bytes, low byte first, at that range of the
    block and nowhere else in it; the last write completes the command:
    the interrupt is raised once, DRQ and BSY are clear, DRDY is set and
    the state is [STATE_READ_ATA_CMD]. *)
Theorem set_mode_payload (g : gdrom) (ws : list Z) :
  state g = STATE_READ_SPI_DATA ->
  pio_head g = 0 ->
  pio_size g = 2 * Z.of_nat (length ws) ->
  ws <> [] ->
  0 <= pio_offset g ->
  pio_offset g + pio_size g <= sizeof_hw_info ->
  pio_size g <= sizeof_pio_buffer ->
  exists g' : gdrom,
    gd_run g (map op_write_DATA ws) = Ok g'
    /\ load (hw_info g') (pio_offset g) (pio_size g) = flat_map word_bytes ws
    /\ (forall i, i < pio_offset g \/ pio_offset g + pio_size g <= i ->
                  hw_info g' i = hw_info g i)
    /\ state g' = STATE_READ_ATA_CMD
    /\ holly g' = holly_raise_interrupt :: holly g
    /\ DRQ (status g') = false /\ BSY (status g') = false
    /\ DRDY (status g') = true.
Proof.
  intros Hst Hh Hsz Hne Hoff Hfit Hcap.
  destruct (payload_stored g ws Hst Hh Hsz Hne Hoff Hfit Hcap)
    as (g' & H).
  exists g'. intuition.
Qed.

(** X5: a PIO reply of [2 * (k + 1)] bytes with no CD_READ sectors
    pending is read out by [k + 1] reads of the data register: the
    values are the words of the PIO buffer, low byte first, and the last
    read completes the SPI phase. *)
Theorem read_words_reply (k : nat) (g : gdrom) :
  state g = STATE_WRITE_SPI_DATA ->
  cdr_num_sectors g = 0 ->
  pio_head g = 0 ->
  pio_size g = 2 * Z.of_nat (S k) ->
  pio_size g <= sizeof_pio_buffer ->
  read_words (S k) g =
  Ok (words_of (load (pio_buffer g) 0 (pio_size g)),
      gdrom_spi_end (set_pio_head (pio_size g) g)).
Proof.
  intros Hst Hn Hh Hsz Hcap.
  rewrite read_words_core by (try assumption; lia).
  rewrite Hh, Hsz. reflexivity.
Qed.

(** X6: what the guest stores with SET_MODE it gets back with REQ_MODE.
    From any state: the packet command and a SET_MODE packet for
    [offset] and [size], the payload [payload] of [size] bytes, the
    packet command and a REQ_MODE packet for the same [offset] and
    [size], then [size / 2] reads of the data register return the low 16
    bits of each payload word, in order, and leave the controller in
    [STATE_READ_ATA_CMD]. *)
Theorem mode_page_round_trip
    (gd : gdrom) (v : Z) (p1 p2 payload : list Z) (offset size : Z) :
  ata_cmd_of v = Some GD_ATA_PACKET_CMD ->
  length p1 = 6%nat -> length p2 = 6%nat ->
  spi_cmd_of (Z_of_byte (nth 0 (flat_map word_bytes p1) x00))
    = Some GD_SPI_SET_MODE ->
  spi_cmd_of (Z_of_byte (nth 0 (flat_map word_bytes p2) x00))
    = Some GD_SPI_REQ_MODE ->
  Z_of_byte (nth 2 (flat_map word_bytes p1) x00) = offset ->
  Z_of_byte (nth 2 (flat_map word_bytes p2) x00) = offset ->
  Z_of_byte (nth 4 (flat_map word_bytes p1) x00) = size ->
  Z_of_byte (nth 4 (flat_map word_bytes p2) x00) = size ->
  payload <> [] ->
  size = 2 * Z.of_nat (length payload) ->
  offset + size <= sizeof_hw_info ->
  exists g g' : gdrom,
    gd_run gd
      ((op_write_COMMAND v :: map op_write_DATA p1)
       ++ map op_write_DATA payload
       ++ op_write_COMMAND v :: map op_write_DATA p2) = Ok g
    /\ read_words (length payload) g
       = Ok (map (fun w => Z.land w 0xffff) payload, g')
    /\ state g' = STATE_READ_ATA_CMD.
Proof.
  intros Hv Hl1 Hl2 Hc1 Hc2 Ho1 Ho2 Hs1 Hs2 Hne Hsz Hfit.
  assert (Hsize : 0 <= size < 256).
  { rewrite <- Hs1. apply Z_of_byte_range. }
  assert (Hoffset : 0 <= offset < 256).
  { rewrite <- Ho1. apply Z_of_byte_range. }
  (* the SET_MODE packet *)
  destruct (packet_received gd v p1 Hv Hl1) as (g1 & Hrun1 & Hb1 & _).
  pose proof (pio_data_of_load g1 _ 0 Hb1 ltac:(lia)) as Hd0.
  pose proof (pio_data_of_load g1 _ 2 Hb1 ltac:(lia)) as Hd2.
  pose proof (pio_data_of_load g1 _ 4 Hb1 ltac:(lia)) as Hd4.
  cbn [Z.of_nat Pos.of_succ_nat Pos.succ] in Hd0, Hd2, Hd4.
  rewrite Ho1 in Hd2. rewrite Hs1 in Hd4.
  destruct (gdrom_spi_cmd_set_mode g1 0) as
    (g2 & Hcmd1 & Hst2 & Hh2 & Hsz2 & Hof2 & _ & Hhw2 & _);
    [rewrite Hd0; exact Hc1|].
  rewrite Hd4 in Hsz2. rewrite Hd2 in Hof2.
  (* the payload *)
  destruct (payload_stored g2 payload) as
    (g3 & Hrun3 & Hhw3 & _);
    try assumption; try (rewrite ?Hsz2, ?Hof2; unfold sizeof_pio_buffer; lia).
  rewrite Hsz2, Hof2 in Hhw3.
  (* the REQ_MODE packet *)
  destruct (packet_received g3 v p2 Hv Hl2)
    as (g4 & Hrun4 & Hb4 & _ & _ & _ & _ & _ & _ & _ & _ & _ & _ & _ & _ & Hhw4).
  pose proof (pio_data_of_load g4 _ 0 Hb4 ltac:(lia)) as He0.
  pose proof (pio_data_of_load g4 _ 2 Hb4 ltac:(lia)) as He2.
  pose proof (pio_data_of_load g4 _ 4 Hb4 ltac:(lia)) as He4.
  cbn [Z.of_nat Pos.of_succ_nat Pos.succ] in He0, He2, He4.
  rewrite Ho2 in He2. rewrite Hs2 in He4.
  destruct (req_mode_reply g4 0) as
    (g5 & Hcmd5 & Hb5 & Hst5 & Hh5 & Hsz5 & _ & Hn5 & _);
    [rewrite He0; exact Hc2|rewrite He2, He4; exact Hfit|].
  rewrite He2, He4, Hhw4, Hhw3 in Hb5. rewrite He4 in Hsz5.
  exists g5, (gdrom_spi_end (set_pio_head (pio_size g5) g5)).
  split.
  { rewrite gd_run_app, Hrun1, Hcmd1. cbn [bind].
    rewrite gd_run_app, Hrun3. cbn [bind].
    rewrite Hrun4. exact Hcmd5. }
  split; [|reflexivity].
  destruct payload as [|w payload]; [contradiction|].
  cbn [length] in *.
  rewrite read_words_core
    by (try assumption; unfold sizeof_pio_buffer; lia).
  rewrite Hh5.
  replace (2 * Z.of_nat (S (length payload))) with size by lia.
  rewrite Hb5. rewrite words_of_word_bytes. reflexivity.
Qed.

End ModePage.

(** ** Sector access *)

Section Sectors.

Context {T : gd_types}.

Lemma len_flat_map_nonneg {A : Type} (f : A -> list byte) (l : list A) :
  0 <= len (flat_map f l).
Proof. apply len_nonneg. Qed.

(** The loop of [gdrom_read_sectors] stores every sector or trips the
    size check, according to the total size alone. *)
Lemma read_sectors_loop_total (d : disc_t) (fmt mask dst_size : Z)
    (count : nat) : forall (i : Z) (read : list byte),
  (forall fad, len (disc_read_sector d fad fmt mask) <= DISC_MAX_SECTOR_SIZE) ->
  len read <= dst_size ->
  read_sectors_loop d fmt mask dst_size count i read =
  let all :=
    read ++ flat_map (fun k => disc_read_sector d (i + Z.of_nat k) fmt mask)
              (seq 0 count) in
  if len all <=? dst_size then Ok all else Err Fatal.
Proof.
  induction count as [|count IH]; intros i read Hfit Hread; cbn zeta.
  - cbn [read_sectors_loop seq flat_map]. rewrite app_nil_r.
    replace (len read <=? dst_size) with true by (symmetry; lia).
    reflexivity.
  - cbn [read_sectors_loop seq flat_map].
    pose proof (Hfit i) as Hi.
    replace (len (disc_read_sector d i fmt mask) <=? DISC_MAX_SECTOR_SIZE)
      with true by (symmetry; lia).
    rewrite flat_map_seq_shift, Z.add_0_r.
    set (s := disc_read_sector d i fmt mask) in *.
    set (rest := flat_map
                   (fun k => disc_read_sector d (i + Z.of_nat (S k)) fmt mask)
                   (seq 0 count)).
    pose proof (len_nonneg rest) as Hrest.
    destruct (len read + len s <=? dst_size) eqn:E.
    + rewrite IH by (try assumption; rewrite len_app; lia).
      cbn zeta. rewrite <- app_assoc.
      replace (flat_map
                 (fun k => disc_read_sector d (i + 1 + Z.of_nat k) fmt mask)
                 (seq 0 count)) with rest; [reflexivity|].
      subst rest. apply flat_map_ext. intros k. f_equal. lia.
    + replace (len (read ++ s ++ rest) <=? dst_size) with false;
        [reflexivity|].
      symmetry. rewrite !len_app. lia.
Qed.

(** X7: with a disc whose sectors fit [DISC_MAX_SECTOR_SIZE],
    [gdrom_read_sectors] stores the sectors [fad .. fad + n - 1] one
    after the other when their total size is at most [dst_size], and is
    fatal otherwise; it never stores a part of what was asked. *)
Theorem gdrom_read_sectors_all_or_fatal
    (gd : gdrom) (d : disc_t) (fad fmt mask n dst_size : Z) :
  disc gd = Some d ->
  (forall i, len (disc_read_sector d i fmt mask) <= DISC_MAX_SECTOR_SIZE) ->
  0 <= dst_size ->
  gdrom_read_sectors gd fad fmt mask n dst_size =
  if len (sectors_of d fad fmt mask n) <=? dst_size
  then Ok (sectors_of d fad fmt mask n)
  else Err Fatal.
Proof.
  intros Hd Hfit Hdst. unfold gdrom_read_sectors. rewrite Hd.
  rewrite read_sectors_loop_total by (try assumption; exact Hdst).
  reflexivity.
Qed.

Lemma copy_sectors_loop_all (gd : gdrom) (d : disc_t) (fmt mask : Z)
    (count : nat) : forall (i : Z) (read : list byte),
  disc gd = Some d ->
  (forall fad, len (disc_read_sector d fad fmt mask) <= DISC_MAX_SECTOR_SIZE) ->
  copy_sectors_loop gd fmt mask count i read =
  Ok (read ++ flat_map (fun k => disc_read_sector d (i + Z.of_nat k) fmt mask)
                (seq 0 count)).
Proof.
  induction count as [|count IH]; intros i read Hd Hfit.
  - cbn. rewrite app_nil_r. reflexivity.
  - cbn [copy_sectors_loop].
    unfold gdrom_read_sectors. rewrite Hd.
    change (Z.to_nat 1) with 1%nat. cbn [read_sectors_loop].
    pose proof (Hfit i) as Hi.
    replace (len (disc_read_sector d i fmt mask) <=? DISC_MAX_SECTOR_SIZE)
      with true by (symmetry; lia).
    change (len []) with 0.
    replace (0 + len (disc_read_sector d i fmt mask) <=? DISC_MAX_SECTOR_SIZE)
      with true by (symmetry; lia).
    cbn [bind app]. rewrite IH by assumption.
    cbn [seq flat_map]. rewrite flat_map_seq_shift, Z.add_0_r, <- app_assoc.
    f_equal. f_equal. f_equal.
    apply flat_map_ext. intros k. f_equal. lia.
Qed.

(** X8: with a disc whose sectors fit [DISC_MAX_SECTOR_SIZE],
    [gdrom_copy_sectors] hands the guest the sectors
    [fad .. fad + n - 1] one after the other whatever their total size:
    it agrees with [gdrom_read_sectors] wherever that one succeeds, and
    has no fatal case of its own. *)
Theorem gdrom_copy_sectors_all
    (gd : gdrom) (d : disc_t) (fad fmt mask n : Z) :
  disc gd = Some d ->
  (forall i, len (disc_read_sector d i fmt mask) <= DISC_MAX_SECTOR_SIZE) ->
  gdrom_copy_sectors gd fad fmt mask n = Ok (sectors_of d fad fmt mask n)
  /\ forall (dst_size : Z) (bytes : list byte),
       gdrom_read_sectors gd fad fmt mask n dst_size = Ok bytes ->
       gdrom_copy_sectors gd fad fmt mask n = Ok bytes.
Proof.
  intros Hd Hfit.
  assert (H : gdrom_copy_sectors gd fad fmt mask n
              = Ok (sectors_of d fad fmt mask n)).
  { unfold gdrom_copy_sectors. rewrite Hd.
    rewrite (copy_sectors_loop_all gd d) by assumption. reflexivity. }
  split; [exact H|].
  intros dst_size bytes Hr. rewrite H.
  unfold gdrom_read_sectors in Hr. rewrite Hd in Hr.
  assert (Hb : forall count i read res,
             read_sectors_loop d fmt mask dst_size count i read = Ok res ->
             res = read ++ flat_map
                     (fun k => disc_read_sector d (i + Z.of_nat k) fmt mask)
                     (seq 0 count)).
  { clear. induction count as [|count IH]; intros i read res Hr.
    - cbn in *. injection Hr as <-. rewrite app_nil_r. reflexivity.
    - cbn [read_sectors_loop] in Hr.
      destruct (_ <=? DISC_MAX_SECTOR_SIZE); [|discriminate].
      destruct (_ <=? dst_size); [|discriminate].
      apply IH in Hr. rewrite Hr. cbn [seq flat_map].
      rewrite flat_map_seq_shift, Z.add_0_r, <- app_assoc.
      f_equal. f_equal. apply flat_map_ext. intros k. f_equal. lia. }
  apply Hb in Hr. rewrite Hr. reflexivity.
Qed.

(** X9: with no disc attached, the sector readers store nothing and
    report success, while every SPI command whose reply is built from
    the disc (REQ_STAT, REQ_ERROR, GET_TOC, REQ_SES, GET_SCD) is fatal. *)
Theorem no_disc_behaviour (gd : gdrom) :
  disc gd = None ->
  (forall fad fmt mask n dst_size,
      gdrom_read_sectors gd fad fmt mask n dst_size = Ok [])
  /\ (forall fad fmt mask n, gdrom_copy_sectors gd fad fmt mask n = Ok [])
  /\ (forall (c : gd_spi_cmd) (arg : Z),
         spi_cmd_of (pio_data gd 0) = Some c ->
         needs_disc c = true ->
         gdrom_spi_cmd gd arg = Err Fatal).
Proof.
  intros Hd. split; [|split].
  - intros. unfold gdrom_read_sectors. rewrite Hd. reflexivity.
  - intros. unfold gdrom_copy_sectors. rewrite Hd. reflexivity.
  - intros c arg Hc Hn. unfold gdrom_spi_cmd. rewrite Hc.
    destruct c; try discriminate Hn;
      unfold gdrom_get_status, gdrom_get_error, gdrom_get_toc,
        gdrom_get_session, gdrom_get_subcode;
      cbn [disc set_status]; rewrite Hd; reflexivity.
Qed.

End Sectors.

(** ** Delivery of CD_READ data *)

Section Delivery.

Context {T : gd_types}.

(** One run of the sector reader in DMA mode. *)
Lemma gdrom_spi_cdread_dma (gd : gdrom) :
  cdr_dma gd <> 0 ->
  0 < DISC_MAX_SECTOR_SIZE ->
  sectors_fit gd ->
  let n := Z.min (cdr_num_sectors gd) max_sectors in
  let bytes := disc_sectors gd (cdr_first_sector gd) n in
  exists g : gdrom,
    gdrom_spi_cdread gd = Ok g
    /\ len bytes <= sizeof_dma_buffer
    /\ dma_size g = len bytes
    /\ dma_head g = 0
    /\ load (dma_buffer g) 0 (len bytes) = bytes
    /\ state g = STATE_WRITE_DMA_DATA
    /\ cdr_first_sector g = cdr_first_sector gd + n
    /\ cdr_num_sectors g = cdr_num_sectors gd - n
    /\ holly g = holly gd
    /\ status g = status gd.
Proof.
  intros Hdma Hpos Hfit n bytes.
  pose proof (gdrom_read_sectors_ok gd n Hpos Hfit ltac:(subst n; lia)) as Hr.
  pose proof (gdrom_read_sectors_bound gd _ _ _ _ sizeof_pio_buffer _
                ltac:(unfold sizeof_pio_buffer; lia) Hr) as Hb.
  unfold gdrom_spi_cdread.
  apply Z.eqb_neq in Hdma. rewrite Hdma. cbn [negb].
  change (Z.quot sizeof_dma_buffer DISC_MAX_SECTOR_SIZE) with max_sectors.
  change sizeof_dma_buffer with sizeof_pio_buffer.
  fold n. rewrite Hr. cbn [bind]. fold bytes. fold bytes in Hb.
  eexists. split; [reflexivity|].
  split; [unfold sizeof_pio_buffer in *; lia|].
  cbn. repeat split. apply (load_memcpy_at (dma_buffer gd) 0 bytes).
Qed.

(** One run of the sector reader in PIO mode. *)
Lemma gdrom_spi_cdread_pio (gd : gdrom) :
  cdr_dma gd = 0 ->
  0 < DISC_MAX_SECTOR_SIZE ->
  sectors_fit gd ->
  let n := Z.min (cdr_num_sectors gd) max_sectors in
  let bytes := disc_sectors gd (cdr_first_sector gd) n in
  exists g : gdrom,
    gdrom_spi_cdread gd = Ok g
    /\ len bytes <= sizeof_pio_buffer
    /\ pio_size g = len bytes
    /\ pio_head g = 0
    /\ byte_count g = len bytes
    /\ load (pio_buffer g) 0 (len bytes) = bytes
    /\ state g = STATE_WRITE_SPI_DATA
    /\ cdr_first_sector g = cdr_first_sector gd + n
    /\ cdr_num_sectors g = cdr_num_sectors gd - n
    /\ holly g = holly_raise_interrupt :: holly gd
    /\ DRQ (status g) = true /\ BSY (status g) = false
    /\ IO (ireason g) = true /\ CoD (ireason g) = false
    /\ disc g = disc gd /\ cdr_dma g = 0
    /\ cdr_secfmt g = cdr_secfmt gd /\ cdr_secmask g = cdr_secmask gd.
Proof.
  intros Hdma Hpos Hfit n bytes.
  pose proof (gdrom_read_sectors_ok gd n Hpos Hfit ltac:(subst n; lia)) as Hr.
  pose proof (gdrom_read_sectors_bound gd _ _ _ _ sizeof_pio_buffer _
                ltac:(unfold sizeof_pio_buffer; lia) Hr) as Hb.
  unfold gdrom_spi_cdread.
  rewrite Hdma. cbn [Z.eqb negb].
  change (Z.quot sizeof_pio_buffer DISC_MAX_SECTOR_SIZE) with max_sectors.
  fold n. rewrite Hr. cbn [bind]. fold bytes. fold bytes in Hb.
  eexists. split; [reflexivity|].
  split; [unfold sizeof_pio_buffer in *; lia|].
  cbn. repeat split; try assumption.
  apply (load_memcpy_at (pio_buffer gd) 0 bytes).
Qed.

(** X10: a DMA read that finds the buffer exhausted in a DMA-mode CD_READ
    refills it with the next [min(remaining, max_sectors)] sectors of the
    disc and, asked for at least that much, returns exactly those
    sectors; the first-sector address and the remaining count move by
    that number of sectors, and the step ends with the completion
    sequence. *)
Theorem gdrom_dma_read_delivers_sectors (gd : gdrom) (n : Z) :
  cdr_dma gd <> 0 ->
  dma_head gd >= dma_size gd ->
  0 < DISC_MAX_SECTOR_SIZE ->
  sectors_fit gd ->
  let ns := Z.min (cdr_num_sectors gd) max_sectors in
  let bytes := disc_sectors gd (cdr_first_sector gd) ns in
  0 < len bytes <= n ->
  exists g : gdrom,
    gdrom_dma_read gd n = Ok (len bytes, bytes, g)
    /\ cdr_first_sector g = cdr_first_sector gd + ns
    /\ cdr_num_sectors g = cdr_num_sectors gd - ns
    /\ dma_head g = len bytes /\ dma_size g = len bytes
    /\ state g = STATE_READ_ATA_CMD
    /\ holly g = holly_raise_interrupt :: holly gd.
Proof.
  intros Hdma Hex Hpos Hfit ns bytes Hn.
  destruct (gdrom_spi_cdread_dma gd Hdma Hpos Hfit)
    as (g1 & Hrun & Hcap & Hsz & Hh & Hld & Hst & Hf & Hr & Hho & _).
  fold ns in Hf, Hr. fold ns bytes in Hcap, Hsz, Hld.
  unfold gdrom_dma_read.
  replace (dma_head gd >=? dma_size gd) with true by (symmetry; lia).
  rewrite Hrun. cbn [bind]. rewrite Hsz, Hh, Z.sub_0_r.
  rewrite Z.min_r by lia.
  replace (len bytes >? 0) with true by (symmetry; lia).
  replace ((0 <=? 0) && (0 + len bytes <=? sizeof_dma_buffer)) with true
    by (symmetry; apply andb_true_intro; split; lia).
  rewrite Hld.
  cbn [dma_head dma_size set_dma_head]. rewrite Hsz.
  replace (0 + len bytes >=? len bytes) with true by (symmetry; lia).
  eexists. split; [reflexivity|].
  cbn. rewrite Hf, Hr, Hsz, Hho. repeat split.
Qed.

(** X11: DMA reads compose.  While the first of two reads does not
    exhaust the DMA buffer, reading [n1] and then [n2] bytes returns the
    same bytes, in the same order, and ends in the same state as reading
    [n1 + n2] bytes at once. *)
Theorem gdrom_dma_read_split (gd : gdrom) (n1 n2 : Z) :
  0 <= dma_head gd ->
  dma_head gd + n1 < dma_size gd ->
  dma_size gd <= sizeof_dma_buffer ->
  0 < n1 -> 0 < n2 ->
  exists (d1 d2 : list byte) (k2 : Z) (g1 g2 : gdrom),
    gdrom_dma_read gd n1 = Ok (n1, d1, g1)
    /\ gdrom_dma_read g1 n2 = Ok (k2, d2, g2)
    /\ gdrom_dma_read gd (n1 + n2) = Ok (n1 + k2, d1 ++ d2, g2)
    /\ k2 = Z.min n2 (dma_size gd - dma_head gd - n1)
    /\ len d1 = n1 /\ len d2 = k2.
Proof.
  intros H0 H1 Hcap Hn1 Hn2.
  set (k2 := Z.min n2 (dma_size gd - dma_head gd - n1)).
  assert (Hk2 : 0 < k2 <= dma_size gd - dma_head gd - n1) by (subst k2; lia).
  exists (load (dma_buffer gd) (dma_head gd) n1),
         (load (dma_buffer gd) (dma_head gd + n1) k2), k2.
  assert (Hfirst : gdrom_dma_read gd n1 =
                   Ok (n1, load (dma_buffer gd) (dma_head gd) n1,
                       set_dma_head (dma_head gd + n1) gd)).
  { unfold gdrom_dma_read.
    replace (dma_head gd >=? dma_size gd) with false by (symmetry; lia).
    cbn [bind]. rewrite Z.min_l by lia.
    replace (n1 >? 0) with true by (symmetry; lia).
    replace ((0 <=? dma_head gd) && (dma_head gd + n1 <=? sizeof_dma_buffer))
      with true by (symmetry; apply andb_true_intro; split; lia).
    cbn [dma_head dma_size set_dma_head].
    replace (dma_head gd + n1 >=? dma_size gd) with false by (symmetry; lia).
    reflexivity. }
  eexists. eexists.
  split; [exact Hfirst|].
  split.
  { unfold gdrom_dma_read. cbn [dma_head dma_size dma_buffer set_dma_head].
    replace (dma_head gd + n1 >=? dma_size gd) with false by (symmetry; lia).
    cbn [bind dma_head dma_size dma_buffer set_dma_head].
    replace (Z.min n2 (dma_size gd - (dma_head gd + n1))) with k2
      by (subst k2; lia).
    replace (k2 >? 0) with true by (symmetry; lia).
    replace ((0 <=? dma_head gd + n1)
             && (dma_head gd + n1 + k2 <=? sizeof_dma_buffer))
      with true by (symmetry; apply andb_true_intro; split; lia).
    reflexivity. }
  split.
  { unfold gdrom_dma_read.
    replace (dma_head gd >=? dma_size gd) with false by (symmetry; lia).
    cbn [bind].
    replace (Z.min (n1 + n2) (dma_size gd - dma_head gd)) with (n1 + k2)
      by (subst k2; lia).
    replace (n1 + k2 >? 0) with true by (symmetry; lia).
    replace ((0 <=? dma_head gd)
             && (dma_head gd + (n1 + k2) <=? sizeof_dma_buffer))
      with true by (symmetry; apply andb_true_intro; split; lia).
    rewrite load_app by lia.
    cbn [dma_head dma_size set_dma_head].
    rewrite Z.add_assoc. reflexivity. }
  split; [reflexivity|].
  split; apply len_load; lia.
Qed.

(** Reading a PIO chunk word by word while sectors remain: the last
    read runs the sector reader again. *)
Lemma read_words_refill (k : nat) : forall g : gdrom,
  state g = STATE_WRITE_SPI_DATA ->
  cdr_num_sectors g <> 0 ->
  0 <= pio_head g ->
  pio_size g = pio_head g + 2 * Z.of_nat (S k) ->
  pio_size g <= sizeof_pio_buffer ->
  read_words (S k) g =
  (g' <- gdrom_spi_cdread (set_pio_head (pio_size g) g) ;;
   Ok (words_of (load (pio_buffer g) (pio_head g) (2 * Z.of_nat (S k))), g')).
Proof.
  induction k as [|k IH]; intros g Hst Hn Hh Hsz Hcap.
  - cbn [read_words]. unfold GD_DATA_r.
    replace ((0 <=? pio_head g) && (pio_head g + 2 <=? sizeof_pio_buffer))
      with true by (symmetry; apply andb_true_intro; split; lia).
    rewrite gdrom_event_unfold. cbn [state set_pio_head].
    rewrite Hst. cbn [gd_transitions gd_call]. unfold gdrom_pio_read.
    cbn [pio_head pio_size cdr_num_sectors set_pio_head].
    replace (pio_head g + 2 =? pio_size g) with true by (symmetry; lia).
    apply Z.eqb_neq in Hn. rewrite Hn. cbn [negb].
    replace (pio_head g + 2) with (pio_size g) by lia.
    change (2 * Z.of_nat 1) with (2 + 0). rewrite load_two by lia.
    destruct (gdrom_spi_cdread (set_pio_head (pio_size g) g)); reflexivity.
  - change (read_words (S (S k)) g)
      with (r <- GD_DATA_r g ;; r' <- read_words (S k) (snd r) ;;
            Ok (fst r :: fst r', snd r')).
    unfold GD_DATA_r.
    replace ((0 <=? pio_head g) && (pio_head g + 2 <=? sizeof_pio_buffer))
      with true by (symmetry; apply andb_true_intro; split; lia).
    rewrite gdrom_event_unfold. cbn [state set_pio_head].
    rewrite Hst. cbn [gd_transitions gd_call]. unfold gdrom_pio_read.
    cbn [pio_head pio_size cdr_num_sectors set_pio_head].
    replace (pio_head g + 2 =? pio_size g) with false by (symmetry; lia).
    cbn [bind fst snd].
    rewrite IH; cbn [state cdr_num_sectors pio_head pio_size pio_buffer
                     set_pio_head]; try assumption; try lia.
    replace (2 * Z.of_nat (S (S k))) with (2 + 2 * Z.of_nat (S k)) by lia.
    rewrite load_two by lia.
    change (set_pio_head (pio_size g) (set_pio_head (pio_head g + 2) g))
      with (set_pio_head (pio_size g) g).
    destruct (gdrom_spi_cdread (set_pio_head (pio_size g) g)); reflexivity.
Qed.

(** X12: a chunk of a PIO-mode CD_READ of [2 * (k + 1)] bytes is read out
    by [k + 1] reads of the data register, which return the sectors of
    the disc as words, low byte first.  When no sectors remain the last
    read completes the command: the state is [STATE_READ_ATA_CMD], a
    second interrupt follows the one that announced the chunk, DRQ and
    BSY are clear and DRDY, IO and CoD are set.  Otherwise it leaves the
    next chunk in the PIO buffer, starting where this one ended. *)
Theorem read_words_cdread_chunk (gd : gdrom) (k : nat) :
  cdr_dma gd = 0 ->
  0 < DISC_MAX_SECTOR_SIZE ->
  sectors_fit gd ->
  let ns := Z.min (cdr_num_sectors gd) max_sectors in
  let bytes := disc_sectors gd (cdr_first_sector gd) ns in
  len bytes = 2 * Z.of_nat (S k) ->
  exists g g' : gdrom,
    gdrom_spi_cdread gd = Ok g
    /\ read_words (S k) g = Ok (words_of bytes, g')
    /\ (cdr_num_sectors gd - ns = 0 ->
        g' = gdrom_spi_end (set_pio_head (pio_size g) g)
        /\ state g' = STATE_READ_ATA_CMD
        /\ holly g' =
           holly_raise_interrupt :: holly_raise_interrupt :: holly gd
        /\ DRQ (status g') = false /\ BSY (status g') = false
        /\ DRDY (status g') = true
        /\ IO (ireason g') = true /\ CoD (ireason g') = true
        /\ cdr_num_sectors g' = 0
        /\ cdr_first_sector g' = cdr_first_sector gd + ns)
    /\ (cdr_num_sectors gd - ns <> 0 ->
        let ns' := Z.min (cdr_num_sectors gd - ns) max_sectors in
        state g' = STATE_WRITE_SPI_DATA
        /\ pio_head g' = 0
        /\ load (pio_buffer g') 0 (pio_size g')
           = disc_sectors gd (cdr_first_sector gd + ns) ns'
        /\ cdr_num_sectors g' = cdr_num_sectors gd - ns - ns').
Proof.
  intros Hdma Hpos Hfit ns bytes Hlen.
  destruct (gdrom_spi_cdread_pio gd Hdma Hpos Hfit)
    as (g & Hrun & Hcap & Hsz & Hh & _ & Hld & Hst & Hf & Hr & Hho & _ & _ & _
        & _ & Hd & Hdma' & Hfmt & Hmask).
  fold ns in Hf, Hr. fold ns bytes in Hcap, Hsz, Hld.
  destruct (Z.eq_dec (cdr_num_sectors gd - ns) 0) as [Hz|Hnz].
  - exists g, (gdrom_spi_end (set_pio_head (pio_size g) g)).
    split; [exact Hrun|].
    split; [|split; [|contradiction]].
    + rewrite read_words_core by (try assumption; lia).
      rewrite Hh, <- Hlen, Hld. reflexivity.
    + intros _. split; [reflexivity|].
      cbn [gdrom_spi_end state holly status ireason cdr_first_sector
           cdr_num_sectors DRQ BSY DRDY IO CoD set_state raise_interrupt
           set_holly set_status set_ireason set_DRQ set_BSY set_DRDY set_IO
           set_CoD set_pio_head].
      rewrite Hho. repeat split; [lia|exact Hf].
  - assert (Hfit' : sectors_fit (set_pio_head (pio_size g) g)).
    { unfold sectors_fit in *. cbn [disc cdr_secfmt cdr_secmask set_pio_head].
      rewrite Hd, Hfmt, Hmask. exact Hfit. }
    destruct (gdrom_spi_cdread_pio (set_pio_head (pio_size g) g))
      as (g' & Hrun' & _ & Hsz' & Hh' & _ & Hld' & Hst' & _ & Hr' & _);
      [exact Hdma'|exact Hpos|exact Hfit'|].
    cbn [cdr_num_sectors cdr_first_sector set_pio_head] in Hsz', Hld', Hr'.
    unfold disc_sectors in Hsz', Hld'.
    cbn [disc cdr_secfmt cdr_secmask set_pio_head] in Hsz', Hld'.
    rewrite Hd, Hfmt, Hmask, Hf, Hr in Hsz', Hld'. rewrite Hr in Hr'.
    exists g, g'. split; [exact Hrun|].
    split.
    { rewrite read_words_refill by (try assumption; lia).
      rewrite Hrun'. cbn [bind]. rewrite Hh, <- Hlen, Hld. reflexivity. }
    split; [contradiction|].
    intros _ ns'. subst ns'.
    split; [exact Hst'|]. split; [exact Hh'|].
    split; [|exact Hr'].
    rewrite Hsz'. exact Hld'.
Qed.

End Delivery.

(** ** The table of contents *)

Section Toc.

Context {T : gd_types}.

Lemma length_list_set {A : Type} (l : list A) : forall (i : nat) (v : A),
  length (list_set l i v) = length l.
Proof.
  induction l as [|x l IH]; intros i v; [reflexivity|].
  destruct i; cbn [list_set length]; [reflexivity|]. rewrite IH. reflexivity.
Qed.

Lemma nth_error_list_set {A : Type} (l : list A) :
  forall (i j : nat) (v : A),
    nth_error (list_set l i v) j =
    if (i =? j)%nat && (i <? length l)%nat then Some v else nth_error l j.
Proof.
  induction l as [|x l IH]; intros i j v.
  - cbn [list_set length].
    replace (i <? 0)%nat with false by (symmetry; apply Nat.ltb_ge; lia).
    rewrite andb_false_r. reflexivity.
  - destruct i, j; cbn [list_set nth_error length]; try reflexivity.
    rewrite IH. reflexivity.
Qed.

(** The entries written by the loop and the entries it leaves alone. *)
Lemma toc_entries_loop_entries (d : disc_t) (count : nat) :
  forall (i : Z) (entries : list gd_spi_toc_entry),
    1 <= i ->
    i + Z.of_nat count - 1 <= Z.of_nat (length entries) ->
    (forall k, i <= k < i + Z.of_nat count ->
               exists t, disc_get_track d (k - 1) = Some t) ->
    exists entries' : list gd_spi_toc_entry,
      toc_entries_loop d count i entries = Ok entries'
      /\ length entries' = length entries
      /\ forall j : nat,
           nth_error entries' j =
           if (i <=? Z.of_nat j + 1) && (Z.of_nat j + 1 <? i + Z.of_nat count)
           then option_map toc_entry_of (disc_get_track d (Z.of_nat j))
           else nth_error entries j.
Proof.
  induction count as [|count IH]; intros i entries Hi Hlen Htr.
  - exists entries. split; [reflexivity|]. split; [reflexivity|].
    intros j.
    replace ((i <=? Z.of_nat j + 1) && (Z.of_nat j + 1 <? i + Z.of_nat 0))
      with false; [reflexivity|].
    symmetry. apply andb_false_iff.
    destruct (Z_le_gt_dec i (Z.of_nat j + 1));
      [right; apply Z.ltb_ge|left; apply Z.leb_gt]; lia.
  - cbn [toc_entries_loop].
    destruct (Htr i ltac:(lia)) as (t & Ht). rewrite Ht.
    replace ((0 <=? i - 1) && (i - 1 <? Z.of_nat (length entries)))
      with true by (symmetry; apply andb_true_intro; split; lia).
    destruct (IH (i + 1)
                (list_set entries (Z.to_nat (i - 1))
                   (mk_toc_entry (track_adr t) (track_ctrl t) (track_fad t))))
      as (entries' & Hrun & Hl & Hnth).
    + lia.
    + rewrite length_list_set. lia.
    + intros k Hk. apply Htr. lia.
    + exists entries'. split; [exact Hrun|].
      split; [rewrite Hl; apply length_list_set|].
      intros j. rewrite Hnth, nth_error_list_set.
      destruct (Z.eq_dec (Z.of_nat j + 1) i) as [E|E].
      * replace ((i + 1 <=? Z.of_nat j + 1)
                 && (Z.of_nat j + 1 <? i + 1 + Z.of_nat count)) with false
          by (symmetry; apply andb_false_iff; left; apply Z.leb_gt; lia).
        replace ((Z.to_nat (i - 1) =? j)%nat
                 && (Z.to_nat (i - 1) <? length entries)%nat) with true
          by (symmetry; apply andb_true_intro; split;
              [apply Nat.eqb_eq|apply Nat.ltb_lt]; lia).
        replace ((i <=? Z.of_nat j + 1)
                 && (Z.of_nat j + 1 <? i + Z.of_nat (S count))) with true
          by (symmetry; apply andb_true_intro; split;
              [apply Z.leb_le|apply Z.ltb_lt]; lia).
        replace (Z.of_nat j) with (i - 1) by lia. rewrite Ht. reflexivity.
      * replace ((Z.to_nat (i - 1) =? j)%nat
                 && (Z.to_nat (i - 1) <? length entries)%nat) with false
          by (symmetry; apply andb_false_iff; left; apply Nat.eqb_neq; lia).
        replace ((i <=? Z.of_nat j + 1)
                 && (Z.of_nat j + 1 <? i + Z.of_nat (S count)))
          with ((i + 1 <=? Z.of_nat j + 1)
                && (Z.of_nat j + 1 <? i + 1 + Z.of_nat count));
          [reflexivity|].
        rewrite Nat2Z.inj_succ.
        destruct (i + 1 <=? Z.of_nat j + 1) eqn:E1,
                 (Z.of_nat j + 1 <? i + 1 + Z.of_nat count) eqn:E2,
                 (i <=? Z.of_nat j + 1) eqn:E3,
                 (Z.of_nat j + 1 <? i + Z.succ (Z.of_nat count)) eqn:E4;
          try reflexivity; exfalso;
          rewrite ?Z.leb_le, ?Z.leb_gt, ?Z.ltb_lt, ?Z.ltb_ge in *; lia.
Qed.

(** X13: for a disc that knows every track from the first to the last of
    the area, [gdrom_get_toc] fills the slot of each of these tracks
    with the track's adr, ctrl and frame address and leaves every other
    slot as the all-ones fill made it; the first and last summaries
    carry the adr, ctrl and number of the area's first and last track,
    and the lead-out carries the area's lead-out address. *)
Theorem gdrom_get_toc_entries
    (gd : gdrom) (d : disc_t) (area leadin leadout : Z) (ft lt : track) :
  disc gd = Some d ->
  disc_get_toc d area = (Some ft, Some lt, leadin, leadout) ->
  1 <= track_num ft ->
  track_num lt <= Z.of_nat (length (toc_entries toc_ones)) ->
  (forall k, track_num ft <= k <= track_num lt ->
             exists t, disc_get_track d (k - 1) = Some t) ->
  exists toc : gd_spi_toc,
    gdrom_get_toc gd area = Ok toc
    /\ length (toc_entries toc) = length (toc_entries toc_ones)
    /\ (forall j : nat,
           nth_error (toc_entries toc) j =
           if (track_num ft <=? Z.of_nat j + 1)
              && (Z.of_nat j + 1 <=? track_num lt)
           then option_map toc_entry_of (disc_get_track d (Z.of_nat j))
           else nth_error (toc_entries toc_ones) j)
    /\ toc_first toc =
       mk_toc_track (track_adr ft) (track_ctrl ft) (track_num ft)
         (tt_rest (toc_first toc_ones))
    /\ toc_last toc =
       mk_toc_track (track_adr lt) (track_ctrl lt) (track_num lt)
         (tt_rest (toc_last toc_ones))
    /\ toc_leadout_fad toc = leadout.
Proof.
  intros Hd Htoc H1 Hlast Htr.
  unfold gdrom_get_toc. rewrite Hd, Htoc.
  destruct (Z_le_gt_dec (track_num ft) (track_num lt)) as [Hle|Hgt].
  2:{ replace (Z.to_nat (track_num lt - track_num ft + 1)) with O by lia.
      cbn [toc_entries_loop bind]. eexists. split; [reflexivity|].
      cbn [toc_entries toc_first toc_last toc_leadout_fad].
      split; [reflexivity|]. split; [|repeat split].
      intros j.
      replace ((track_num ft <=? Z.of_nat j + 1)
               && (Z.of_nat j + 1 <=? track_num lt)) with false;
        [reflexivity|].
      symmetry. apply andb_false_iff.
      destruct (Z_le_gt_dec (track_num ft) (Z.of_nat j + 1));
        [right; apply Z.leb_gt|left; apply Z.leb_gt]; lia. }
  destruct (toc_entries_loop_entries d
              (Z.to_nat (track_num lt - track_num ft + 1))
              (track_num ft) (toc_entries toc_ones))
    as (entries & Hrun & Hl & Hnth).
  - exact H1.
  - lia.
  - intros k Hk. apply Htr. lia.
  - rewrite Hrun. cbn [bind]. eexists. split; [reflexivity|].
    cbn [toc_entries toc_first toc_last toc_leadout_fad].
    split; [exact Hl|]. split; [|repeat split].
    intros j. rewrite Hnth.
    replace ((track_num ft <=? Z.of_nat j + 1)
             && (Z.of_nat j + 1 <?
                 track_num ft
                 + Z.of_nat (Z.to_nat (track_num lt - track_num ft + 1))))
      with ((track_num ft <=? Z.of_nat j + 1)
            && (Z.of_nat j + 1 <=? track_num lt)); [reflexivity|].
    destruct (track_num ft <=? Z.of_nat j + 1) eqn:E; [|reflexivity].
    cbn [andb].
    destruct (Z.of_nat j + 1 <=? track_num lt) eqn:E1; symmetry;
      rewrite ?Z.leb_le, ?Z.leb_gt, ?Z.ltb_lt, ?Z.ltb_ge in *; lia.
Qed.

End Toc.

(** ** The status register across operations *)

Section Status.

Context {T : gd_types}.

Ltac not_busy := intros Hbusy; cbn in Hbusy; discriminate Hbusy.

Lemma gdrom_spi_end_busy (gd : gdrom) : busy_only_in_dma (gdrom_spi_end gd).
Proof. not_busy. Qed.

Lemma gdrom_spi_cdread_busy (gd gd' : gdrom) :
  (BSY (status gd) = true -> DRQ (status gd) = false) ->
  gdrom_spi_cdread gd = Ok gd' -> busy_only_in_dma gd'.
Proof.
  intros Hinv H. unfold gdrom_spi_cdread in H.
  destruct (cdr_dma gd =? 0); cbn [negb] in H;
    apply bind_ok in H; destruct H as (data & _ & H); injection H as <-.
  - not_busy.
  - intros Hb. cbn in *. split; [reflexivity|auto].
Qed.

Lemma gdrom_spi_write_busy (gd gd' : gdrom) (data : list byte) (size : Z) :
  gdrom_spi_write gd data size = Ok gd' -> busy_only_in_dma gd'.
Proof.
  unfold gdrom_spi_write.
  destruct (size <? sizeof_pio_buffer); [|discriminate].
  destruct (_ && _); [|discriminate].
  intros H. injection H as <-. not_busy.
Qed.

Lemma gdrom_spi_cmd_busy (gd gd' : gdrom) (arg : Z) :
  gdrom_spi_cmd gd arg = Ok gd' -> busy_only_in_dma gd'.
Proof.
  intros H.
  destruct (spi_cmd_of (pio_data gd 0)) as [c|] eqn:Hc.
  - destruct (data_to_host c) eqn:Hd.
    + destruct (gdrom_spi_cmd_data_to_host gd gd' arg c Hc Hd H)
        as (g & data & size & Hw & _).
      apply (gdrom_spi_write_busy _ _ _ _ Hw).
    + unfold gdrom_spi_cmd in H. rewrite Hc in H.
      destruct c; try discriminate Hd; try discriminate H;
        try (injection H as <-; not_busy).
      apply gdrom_spi_cdread_busy in H; [exact H|].
      cbn. reflexivity.
  - unfold gdrom_spi_cmd in H. rewrite Hc in H. discriminate.
Qed.

Lemma gdrom_set_disc_busy (gd gd' : gdrom) (d : option disc_t) :
  gdrom_set_disc gd d = Ok gd' -> busy_only_in_dma gd'.
Proof.
  intros H. unfold gdrom_set_disc in H.
  apply bind_ok in H. destruct H as (g & _ & H).
  cbn in H. destruct (disc g).
  - destruct d; [|discriminate]. injection H as <-. not_busy.
  - injection H as <-. not_busy.
Qed.

Lemma gdrom_ata_cmd_busy (gd gd' : gdrom) (cmd : Z) :
  gdrom_ata_cmd gd cmd = Ok gd' -> busy_only_in_dma gd'.
Proof.
  intros H. unfold gdrom_ata_cmd in H.
  apply bind_ok in H. destruct H as ([g rd] & _ & H).
  destruct rd; injection H as <-; not_busy.
Qed.

Lemma gdrom_pio_read_busy (gd gd' : gdrom) (arg : Z) :
  busy_only_in_dma gd -> gdrom_pio_read gd arg = Ok gd' ->
  busy_only_in_dma gd'.
Proof.
  intros Hinv H. unfold gdrom_pio_read in H.
  destruct (pio_head gd =? pio_size gd).
  - destruct (negb (cdr_num_sectors gd =? 0)).
    + apply (gdrom_spi_cdread_busy _ _ (fun Hb => proj2 (Hinv Hb)) H).
    + injection H as <-. apply gdrom_spi_end_busy.
  - injection H as <-. exact Hinv.
Qed.

Lemma gdrom_event_fuel_busy (fuel : nat) :
  forall (gd gd' : gdrom) (ev : gd_event) (arg : Z),
    busy_only_in_dma gd -> gdrom_event_fuel fuel gd ev arg = Ok gd' ->
    busy_only_in_dma gd'.
Proof.
  induction fuel as [|fuel IH]; intros gd gd' ev arg Hinv H; [discriminate|].
  cbn [gdrom_event_fuel] in H.
  destruct (gd_transitions (state gd) ev) as [cb|]; [|discriminate].
  destruct cb; cbn [gd_call] in H.
  - apply (gdrom_ata_cmd_busy _ _ _ H).
  - unfold gdrom_pio_write in H.
    destruct (_ && _); [apply (IH _ _ _ _ Hinv H)|].
    destruct (_ && _); [apply (IH _ _ _ _ Hinv H)|].
    injection H as <-. exact Hinv.
  - apply (gdrom_spi_cmd_busy _ _ _ H).
  - apply (gdrom_pio_read_busy _ _ _ Hinv H).
  - unfold gdrom_spi_data in H.
    destruct (_ && _); [|discriminate]. injection H as <-. not_busy.
Qed.

Lemma gdrom_dma_read_busy (gd gd' : gdrom) (n k : Z) (data : list byte) :
  busy_only_in_dma gd -> gdrom_dma_read gd n = Ok (k, data, gd') ->
  busy_only_in_dma gd'.
Proof.
  intros Hinv H. unfold gdrom_dma_read in H.
  apply bind_ok in H. destruct H as (g & Hg & H).
  assert (Hgi : busy_only_in_dma g).
  { destruct (dma_head gd >=? dma_size gd).
    - apply (gdrom_spi_cdread_busy _ _ (fun Hb => proj2 (Hinv Hb)) Hg).
    - injection Hg as <-. exact Hinv. }
  destruct (Z.min n (dma_size g - dma_head g) >? 0); [|discriminate].
  destruct (_ && _); [|discriminate].
  injection H as _ _ <-.
  cbn [dma_head dma_size set_dma_head].
  destruct (dma_head g + Z.min n (dma_size g - dma_head g) >=? dma_size g).
  - not_busy.
  - exact Hgi.
Qed.

Lemma gd_step_busy (gd gd' : gdrom) (op : gd_op) :
  busy_only_in_dma gd -> gd_step gd op = Ok gd' -> busy_only_in_dma gd'.
Proof.
  intros Hinv H.
  destruct op; cbn [gd_step] in H;
    try (injection H as <-; exact Hinv); try discriminate H.
  - apply bind_ok in H. destruct H as ([v g] & Hr & H).
    injection H as <-. unfold GD_DATA_r in Hr.
    destruct (_ && _); [|discriminate].
    apply bind_ok in Hr. destruct Hr as (g1 & Hev & Hr).
    injection Hr as _ <-.
    apply (gdrom_event_fuel_busy _ _ _ _ _) in Hev; [exact Hev|exact Hinv].
  - unfold GD_DATA_w in H.
    destruct (_ && _); [|discriminate].
    apply (gdrom_event_fuel_busy _ _ _ _ _) in H; [exact H|exact Hinv].
  - apply (gdrom_event_fuel_busy _ _ _ _ _ Hinv H).
  - unfold gdrom_dma_begin in H.
    destruct (negb _); [|discriminate]. injection H as <-. exact Hinv.
  - apply bind_ok in H. destruct H as ([[k data] g] & Hr & H).
    injection H as <-. apply (gdrom_dma_read_busy _ _ _ _ _ Hinv Hr).
  - apply (gdrom_set_disc_busy _ _ _ H).
  - apply bind_ok in H. destruct H as (x & _ & H).
    injection H as <-. exact Hinv.
Qed.

(** X14: along every sequence of controller operations that runs to its
    end, the status register shows BSY only while a DMA transfer is
    pending ([STATE_WRITE_DMA_DATA]), and never together with DRQ. *)
Theorem gd_run_busy_only_in_dma (ops : list gd_op) : forall gd gd' : gdrom,
  busy_only_in_dma gd -> gd_run gd ops = Ok gd' -> busy_only_in_dma gd'.
Proof.
  induction ops as [|op ops IH]; intros gd gd' Hinv H.
  - injection H as <-. exact Hinv.
  - cbn [gd_run] in H. apply bind_ok in H. destruct H as (g & Hs & H).
    apply (IH g gd' (gd_step_busy _ _ _ Hinv Hs) H).
Qed.

End Status.

(** ** The CD_READ session across operations *)

Section Session.

Context {T : gd_types}.

Hypothesis sector_size_pos : 0 < DISC_MAX_SECTOR_SIZE.

Lemma gdrom_get_fad_nonneg (a b c : byte) (msf : Z) :
  0 <= gdrom_get_fad a b c msf.
Proof.
  unfold gdrom_get_fad.
  pose proof (Z_of_byte_range a). pose proof (Z_of_byte_range b).
  pose proof (Z_of_byte_range c).
  destruct (negb (msf =? 0)); [lia|].
  apply Z.lor_nonneg. split; [|lia].
  apply Z.lor_nonneg. split; apply Z.shiftl_nonneg; lia.
Qed.

Lemma max_quot_nonneg : 0 <= Z.quot sizeof_pio_buffer DISC_MAX_SECTOR_SIZE.
Proof.
  apply Z.quot_pos; [unfold sizeof_pio_buffer; lia|exact sector_size_pos].
Qed.

Lemma gdrom_spi_cdread_nonneg (gd gd' : gdrom) :
  cdread_nonneg gd -> gdrom_spi_cdread gd = Ok gd' -> cdread_nonneg gd'.
Proof.
  intros [Hn Hf] H. pose proof max_quot_nonneg as Hq.
  unfold gdrom_spi_cdread in H.
  change (Z.quot sizeof_dma_buffer DISC_MAX_SECTOR_SIZE)
    with (Z.quot sizeof_pio_buffer DISC_MAX_SECTOR_SIZE) in H.
  destruct (cdr_dma gd =? 0); cbn [negb] in H;
    apply bind_ok in H; destruct H as (data & _ & H); injection H as <-;
    unfold cdread_nonneg; cbn; lia.
Qed.

Lemma gdrom_spi_cmd_nonneg (gd gd' : gdrom) (arg : Z) :
  cdread_nonneg gd -> gdrom_spi_cmd gd arg = Ok gd' -> cdread_nonneg gd'.
Proof.
  intros Hinv H.
  destruct (spi_cmd_of (pio_data gd 0)) as [c|] eqn:Hc.
  - destruct (data_to_host c) eqn:Hd.
    + destruct (gdrom_spi_cmd_data_to_host gd gd' arg c Hc Hd H)
        as (g & data & size & Hw & _).
      unfold gdrom_spi_cmd in H. rewrite Hc in H.
      assert (Hf : forall g0 data0 size0,
                 gdrom_spi_write g0 data0 size0 = Ok gd' ->
                 cdr_first_sector g0 = cdr_first_sector gd ->
                 cdread_nonneg gd').
      { intros g0 data0 size0 Hw0 Hfs. unfold gdrom_spi_write in Hw0.
        destruct (size0 <? sizeof_pio_buffer); [|discriminate].
        destruct (_ && _); [|discriminate].
        injection Hw0 as <-. unfold cdread_nonneg in *. cbn. lia. }
      destruct c; try discriminate Hd;
        try (apply bind_ok in H; destruct H as (x & _ & H));
        apply (Hf _ _ _ H); reflexivity.
    + unfold gdrom_spi_cmd in H. rewrite Hc in H.
      destruct c; try discriminate Hd; try discriminate H;
        try (injection H as <-; unfold cdread_nonneg in *; cbn;
             try destruct (seek_type_of _) as [[]|]; cbn; lia).
      apply gdrom_spi_cdread_nonneg in H; [exact H|].
      unfold cdread_nonneg.
      cbn [cdr_num_sectors cdr_first_sector set_cdr_num_sectors
           set_cdr_first_sector].
      split.
      * pose proof (Z_of_byte_range (pio_buffer gd 8)).
        pose proof (Z_of_byte_range (pio_buffer gd 9)).
        pose proof (Z_of_byte_range (pio_buffer gd 10)).
        unfold pio_data.
        apply Z.lor_nonneg. split; [|lia].
        apply Z.lor_nonneg. split; apply Z.shiftl_nonneg; lia.
      * apply gdrom_get_fad_nonneg.
  - unfold gdrom_spi_cmd in H. rewrite Hc in H. discriminate.
Qed.

Lemma gdrom_set_disc_nonneg (gd gd' : gdrom) (d : option disc_t) :
  cdread_nonneg gd -> gdrom_set_disc gd d = Ok gd' -> cdread_nonneg gd'.
Proof.
  intros Hinv H. unfold gdrom_set_disc in H.
  apply bind_ok in H. destruct H as (g & Hg & H).
  assert (Hgi : cdread_nonneg g).
  { destruct (negb (same_disc (disc gd) d)).
    - destruct (disc_get_meta_defined _); [|discriminate].
      injection Hg as <-. exact Hinv.
    - injection Hg as <-. exact Hinv. }
  cbn in H. destruct (disc g).
  - destruct d; [|discriminate]. injection H as <-. exact Hgi.
  - injection H as <-. exact Hgi.
Qed.

Lemma gdrom_ata_cmd_nonneg (gd gd' : gdrom) (cmd : Z) :
  cdread_nonneg gd -> gdrom_ata_cmd gd cmd = Ok gd' -> cdread_nonneg gd'.
Proof.
  intros Hinv H. unfold gdrom_ata_cmd in H.
  apply bind_ok in H. destruct H as ([g rd] & Hg & H).
  assert (Hgi : cdread_nonneg g).
  { destruct (ata_cmd_of cmd) as [[]|]; try discriminate Hg;
      try (injection Hg as <- _; exact Hinv).
    apply bind_ok in Hg. destruct Hg as (g1 & Hg1 & Hg).
    injection Hg as <- _.
    eapply gdrom_set_disc_nonneg; [|exact Hg1]. exact Hinv. }
  destruct rd; injection H as <-; exact Hgi.
Qed.

Lemma gdrom_event_fuel_nonneg (fuel : nat) :
  forall (gd gd' : gdrom) (ev : gd_event) (arg : Z),
    cdread_nonneg gd -> gdrom_event_fuel fuel gd ev arg = Ok gd' ->
    cdread_nonneg gd'.
Proof.
  induction fuel as [|fuel IH]; intros gd gd' ev arg Hinv H; [discriminate|].
  cbn [gdrom_event_fuel] in H.
  destruct (gd_transitions (state gd) ev) as [cb|]; [|discriminate].
  destruct cb; cbn [gd_call] in H.
  - apply (gdrom_ata_cmd_nonneg _ _ _ Hinv H).
  - unfold gdrom_pio_write in H.
    destruct (_ && _); [apply (IH _ _ _ _ Hinv H)|].
    destruct (_ && _); [apply (IH _ _ _ _ Hinv H)|].
    injection H as <-. exact Hinv.
  - apply (gdrom_spi_cmd_nonneg _ _ _ Hinv H).
  - unfold gdrom_pio_read in H.
    destruct (pio_head gd =? pio_size gd).
    + destruct (negb (cdr_num_sectors gd =? 0)).
      * apply (gdrom_spi_cdread_nonneg _ _ Hinv H).
      * injection H as <-. exact Hinv.
    + injection H as <-. exact Hinv.
  - unfold gdrom_spi_data in H.
    destruct (_ && _); [|discriminate]. injection H as <-. exact Hinv.
Qed.

Lemma gd_step_nonneg (gd gd' : gdrom) (op : gd_op) :
  cdread_nonneg gd -> gd_step gd op = Ok gd' -> cdread_nonneg gd'.
Proof.
  intros Hinv H.
  destruct op; cbn [gd_step] in H;
    try (injection H as <-; exact Hinv); try discriminate H.
  - apply bind_ok in H. destruct H as ([v g] & Hr & H).
    injection H as <-. unfold GD_DATA_r in Hr.
    destruct (_ && _); [|discriminate].
    apply bind_ok in Hr. destruct Hr as (g1 & Hev & Hr).
    injection Hr as _ <-.
    apply (gdrom_event_fuel_nonneg _ _ _ _ _) in Hev; [exact Hev|exact Hinv].
  - unfold GD_DATA_w in H.
    destruct (_ && _); [|discriminate].
    apply (gdrom_event_fuel_nonneg _ _ _ _ _) in H; [exact H|exact Hinv].
  - apply (gdrom_event_fuel_nonneg _ _ _ _ _ Hinv H).
  - unfold gdrom_dma_begin in H.
    destruct (negb _); [|discriminate]. injection H as <-. exact Hinv.
  - apply bind_ok in H. destruct H as ([[k data] g] & Hr & H).
    injection H as <-. unfold gdrom_dma_read in Hr.
    apply bind_ok in Hr. destruct Hr as (g1 & Hg & Hr).
    assert (Hgi : cdread_nonneg g1).
    { destruct (dma_head gd >=? dma_size gd).
      - apply (gdrom_spi_cdread_nonneg _ _ Hinv Hg).
      - injection Hg as <-. exact Hinv. }
    destruct (Z.min n (dma_size g1 - dma_head g1) >? 0); [|discriminate].
    destruct (_ && _); [|discriminate].
    injection Hr as _ _ <-.
    cbn [dma_head dma_size set_dma_head].
    destruct (dma_head g1 + Z.min n (dma_size g1 - dma_head g1)
              >=? dma_size g1); exact Hgi.
  - apply (gdrom_set_disc_nonneg _ _ _ Hinv H).
  - apply bind_ok in H. destruct H as (x & _ & H).
    injection H as <-. exact Hinv.
Qed.

(** X15: along every sequence of controller operations that runs to its
    end, the number of sectors a CD_READ still owes and its first-sector
    address stay non-negative: the sector reader never takes more
    sectors than remain. *)
Theorem gd_run_cdread_nonneg (ops : list gd_op) : forall gd gd' : gdrom,
  cdread_nonneg gd -> gd_run gd ops = Ok gd' -> cdread_nonneg gd'.
Proof.
  induction ops as [|op ops IH]; intros gd gd' Hinv H.
  - injection H as <-. exact Hinv.
  - cbn [gd_run] in H. apply bind_ok in H. destruct H as (g & Hs & H).
    apply (IH g gd' (gd_step_nonneg _ _ _ Hinv Hs) H).
Qed.

End Session.

(** ** Commands without data, refused commands, the ATA soft reset *)

Section Commands.

Context {T : gd_types}.

(** X16: a non-data SPI command (TEST_UNIT, CD_PLAY, CD_SEEK, CD_SCAN,
    CHK_SECU) needs no disc and completes at once: one interrupt, DRQ
    and BSY clear, DRDY set, state [STATE_READ_ATA_CMD].  It sets the
    drive status as its case says and, unlike the commands that start a
    PIO transfer, leaves the CD_READ session, the PIO buffer bookkeeping
    and the DMA buffer bookkeeping as they were. *)
Theorem gdrom_spi_cmd_non_data (gd : gdrom) (arg : Z) (c : gd_spi_cmd) :
  spi_cmd_of (pio_data gd 0) = Some c ->
  non_data c = true ->
  exists g' : gdrom,
    gdrom_spi_cmd gd arg = Ok g'
    /\ state g' = STATE_READ_ATA_CMD
    /\ holly g' = holly_raise_interrupt :: holly gd
    /\ status g' =
       mk_status (CHECK_ (status gd)) false true false (status_rest (status gd))
    /\ IO (ireason g') = true /\ CoD (ireason g') = true
    /\ sectnum_status (sectnum g') =
       non_data_status c (Z.land (pio_data gd 1) 0xf)
         (sectnum_status (sectnum gd))
    /\ cdr_num_sectors g' = cdr_num_sectors gd
    /\ cdr_first_sector g' = cdr_first_sector gd
    /\ pio_head g' = pio_head gd /\ pio_size g' = pio_size gd
    /\ dma_head g' = dma_head gd /\ dma_size g' = dma_size gd
    /\ byte_count g' = byte_count gd
    /\ error g' = error gd.
Proof.
  intros Hc Hn. unfold gdrom_spi_cmd. rewrite Hc.
  destruct c; try discriminate Hn;
    (eexists; split; [reflexivity|]);
    unfold non_data_status;
    try destruct (seek_type_of _) as [[]|]; repeat split.
Qed.

(** X17: writing the command register with a code of a refused or
    unknown ATA command (EXEC_DIAG, IDENTIFY_DEV, anything outside the
    six cases) is fatal in every state. *)
Theorem ata_unsupported_fatal (gd : gdrom) (v : Z) :
  ata_unsupported (ata_cmd_of v) = true ->
  gd_step gd (op_write_COMMAND v) = Err Fatal.
Proof.
  intros H. cbn [gd_step]. unfold GD_STATUS_COMMAND_w.
  rewrite gdrom_event_ata_cmd. unfold gdrom_ata_cmd.
  destruct (ata_cmd_of v) as [[]|]; try discriminate H; reflexivity.
Qed.

(** X18: a packet whose first byte is the code of a refused or unknown
    SPI command (CD_READ2, CD_OPEN, anything outside the sixteen cases)
    is fatal when its sixth word arrives, from every state. *)
Theorem spi_unsupported_fatal (gd : gdrom) (v : Z) (ws : list Z) :
  ata_cmd_of v = Some GD_ATA_PACKET_CMD ->
  length ws = 6%nat ->
  spi_unsupported
    (spi_cmd_of (Z_of_byte (nth 0 (flat_map word_bytes ws) x00))) = true ->
  gd_run gd (op_write_COMMAND v :: map op_write_DATA ws) = Err Fatal
  /\ exists g : gdrom,
       gd_run gd (op_write_COMMAND v :: map op_write_DATA (removelast ws))
       = Ok g.
Proof.
  intros Hv Hl Hc.
  destruct (packet_received gd v ws Hv Hl) as (g & Hrun & Hb & _).
  split.
  - rewrite Hrun.
    pose proof (pio_data_of_load g _ 0 Hb ltac:(lia)) as Hd0.
    cbn [Z.of_nat] in Hd0.
    unfold gdrom_spi_cmd. rewrite Hd0.
    destruct (spi_cmd_of _) as [[]|]; try discriminate Hc; reflexivity.
  - destruct (exists_last (l := ws)) as (ws' & w & ->);
      [intros ->; discriminate|].
    rewrite removelast_last. rewrite length_app in Hl. cbn [length] in Hl.
    cbn [gd_run gd_step]. unfold GD_STATUS_COMMAND_w.
    rewrite gdrom_event_ata_cmd.
    destruct (gdrom_ata_cmd_packet gd v Hv) as (g0 & -> & Hst0 & Hh0 & _).
    cbn [bind].
    destruct (packet_words_run ws' g0) as (g1 & Hrun1 & _);
      [exact Hst0|lia|unfold GD_SPI_CMD_SIZE; lia|].
    exists g1. exact Hrun1.
Qed.

Lemma same_disc_refl (d : option disc_t) : same_disc d d = true.
Proof. destruct d; cbn; [apply Z.eqb_refl|reflexivity]. Qed.

(** X19: the ATA soft reset succeeds from every state and keeps the disc
    that is attached, without asking the disc collaborator anything but
    the format: it leaves the error register zero, the status register
    with DRDY alone, the drive status PAUSE with the disc's format or
    NO-DISC, raises one interrupt and returns to [STATE_READ_ATA_CMD];
    the byte count, the CD_READ session and both buffers are as before. *)
Theorem ata_soft_reset (gd : gdrom) (v : Z) :
  ata_cmd_of v = Some GD_ATA_SOFT_RESET ->
  exists g' : gdrom,
    gd_step gd (op_write_COMMAND v) = Ok g'
    /\ disc g' = disc gd
    /\ error g' = error_zero
    /\ status g' = mk_status false false true false 0
    /\ sectnum g' =
       match disc gd with
       | Some x => mk_sectnum GD_STATUS_PAUSE (disc_get_format x) 0
       | None => mk_sectnum GD_STATUS_NODISC 0 0
       end
    /\ state g' = STATE_READ_ATA_CMD
    /\ holly g' = holly_raise_interrupt :: holly gd
    /\ byte_count g' = byte_count gd
    /\ cdr_num_sectors g' = cdr_num_sectors gd
    /\ pio_head g' = pio_head gd /\ pio_size g' = pio_size gd
    /\ dma_head g' = dma_head gd /\ dma_size g' = dma_size gd.
Proof.
  intros Hv. cbn [gd_step]. unfold GD_STATUS_COMMAND_w.
  rewrite gdrom_event_ata_cmd. unfold gdrom_ata_cmd. rewrite Hv.
  unfold gdrom_set_disc.
  cbn [disc set_status set_error].
  rewrite same_disc_refl. cbn [negb bind].
  cbn [disc set_status set_error set_sectnum].
  destruct (disc gd) as [x|] eqn:E;
    cbn [bind]; (eexists; split; [reflexivity|]);
    repeat split; cbn; try exact E; reflexivity.
Qed.

(** Reads of the data register that never meet the size: the head moves
    on, nothing else does. *)
Lemma read_DATA_past (k : nat) : forall (g : gdrom) (m : nat),
  state g = STATE_WRITE_SPI_DATA ->
  pio_head g = 2 * Z.of_nat m ->
  Z.odd (pio_size g) = true \/ pio_size g <= 0 ->
  2 * Z.of_nat (m + k) <= sizeof_pio_buffer ->
  exists g' : gdrom,
    gd_run g (repeat op_read_DATA k) = Ok g'
    /\ pio_head g' = 2 * Z.of_nat (m + k)
    /\ pio_buffer g' = pio_buffer g
    /\ pio_frame g g'.
Proof.
  induction k as [|k IH]; intros g m Hst Hh Hsz Hcap.
  - exists g. split; [reflexivity|]. rewrite Nat.add_0_r.
    split; [exact Hh|]. split; [reflexivity|].
    unfold pio_frame. repeat split.
  - cbn [repeat gd_run gd_step]. unfold GD_DATA_r.
    replace ((0 <=? pio_head g) && (pio_head g + 2 <=? sizeof_pio_buffer))
      with true by (symmetry; apply andb_true_intro; split; lia).
    rewrite gdrom_event_unfold. cbn [state set_pio_head].
    rewrite Hst. cbn [gd_transitions gd_call]. unfold gdrom_pio_read.
    cbn [pio_head pio_size set_pio_head].
    assert (Hne : pio_head g + 2 <> pio_size g).
    { destruct Hsz as [Hodd|Hle]; [|lia].
      intros E. rewrite <- E, Hh in Hodd.
      replace (2 * Z.of_nat m + 2) with (2 * (Z.of_nat m + 1)) in Hodd by lia.
      rewrite Z.odd_mul in Hodd. discriminate Hodd. }
    replace (pio_head g + 2 =? pio_size g) with false
      by (symmetry; apply Z.eqb_neq; exact Hne).
    cbn [bind snd].
    destruct (IH (set_pio_head (pio_head g + 2) g) (S m))
      as (g' & Hrun & Hh' & Hb' & Hf').
    + exact Hst.
    + cbn [pio_head set_pio_head]. lia.
    + exact Hsz.
    + replace (S m + k)%nat with (m + S k)%nat by lia. exact Hcap.
    + exists g'. split; [exact Hrun|].
      split; [rewrite Hh'; f_equal; f_equal; lia|].
      split; [exact Hb'|exact Hf'].
Qed.

(** X20: a PIO reply whose size is odd or zero never completes.  The
    data-register handler only tests [head == size]: every read moves
    the head by two, past the size, and raises no interrupt, changes no
    register and leaves the state [STATE_WRITE_SPI_DATA], as long as
    the head stays inside the buffer. *)
Theorem read_DATA_never_completes (k : nat) (g : gdrom) :
  state g = STATE_WRITE_SPI_DATA ->
  pio_head g = 0 ->
  Z.odd (pio_size g) = true \/ pio_size g <= 0 ->
  2 * Z.of_nat k <= sizeof_pio_buffer ->
  exists g' : gdrom,
    gd_run g (repeat op_read_DATA k) = Ok g'
    /\ pio_head g' = 2 * Z.of_nat k
    /\ state g' = STATE_WRITE_SPI_DATA
    /\ holly g' = holly g
    /\ status g' = status g
    /\ ireason g' = ireason g
    /\ pio_size g' = pio_size g.
Proof.
  intros Hst Hh Hsz Hcap.
  destruct (read_DATA_past k g 0 Hst Hh Hsz Hcap) as (g' & Hrun & Hh' & _ & Hf).
  unfold pio_frame in Hf.
  destruct Hf as (Hst' & _ & _ & _ & _ & Hir & _ & _ & Hs & _ & _ & _ & _ & _
                  & Hps & _ & _ & _ & _ & Hho).
  exists g'. split; [exact Hrun|]. split; [exact Hh'|].
  split; [congruence|]. repeat split; assumption.
Qed.

End Commands.

(** ** The CD_READ packet and the subcode reply *)

Section CdRead.

Context {T : gd_types}.

Lemma disc_sectors_sectors_of (gd : gdrom) (d : disc_t) (fad n : Z) :
  disc gd = Some d ->
  disc_sectors gd fad n = sectors_of d fad (cdr_secfmt gd) (cdr_secmask gd) n.
Proof. intros H. unfold disc_sectors, sectors_of. rewrite H. reflexivity. Qed.

(** X21: a CD_READ packet received with a disc attached decodes its
    first sector with [gdrom_get_fad], its sector count from bytes 8 to
    10, its format and mask from byte 1, and stages the first
    [min(count, max_sectors)] sectors.  With the DMA feature bit clear
    they are staged in the PIO buffer and announced to the guest
    (interrupt, DRQ, the byte count); with the bit set they are staged in
    the DMA buffer, no interrupt is raised and the controller waits in
    [STATE_WRITE_DMA_DATA] with BSY set. *)
Theorem gdrom_spi_cmd_cd_read (gd : gdrom) (arg : Z) (d : disc_t) :
  spi_cmd_of (pio_data gd 0) = Some GD_SPI_CD_READ ->
  disc gd = Some d ->
  0 < DISC_MAX_SECTOR_SIZE ->
  (forall fad fmt mask,
      len (disc_read_sector d fad fmt mask) <= DISC_MAX_SECTOR_SIZE) ->
  let fad :=
    gdrom_get_fad (pio_buffer gd 2) (pio_buffer gd 3) (pio_buffer gd 4)
      (Z.land (pio_data gd 1) 0x1) in
  let fmt := Z.shiftr (Z.land (pio_data gd 1) 0xe) 1 in
  let mask := Z.land (Z.shiftr (pio_data gd 1) 4) 0xff in
  let n :=
    Z.lor (Z.lor (Z.shiftl (pio_data gd 8) 16) (Z.shiftl (pio_data gd 9) 8))
      (pio_data gd 10) in
  let k := Z.min n max_sectors in
  let bytes := sectors_of d fad fmt mask k in
  exists g' : gdrom,
    gdrom_spi_cmd gd arg = Ok g'
    /\ cdr_first_sector g' = fad + k
    /\ cdr_num_sectors g' = n - k
    /\ (features_dma (features gd) = 0 ->
        state g' = STATE_WRITE_SPI_DATA
        /\ pio_head g' = 0 /\ pio_size g' = len bytes
        /\ byte_count g' = len bytes
        /\ load (pio_buffer g') 0 (len bytes) = bytes
        /\ holly g' = holly_raise_interrupt :: holly gd
        /\ DRQ (status g') = true /\ BSY (status g') = false)
    /\ (features_dma (features gd) <> 0 ->
        state g' = STATE_WRITE_DMA_DATA
        /\ dma_head g' = 0 /\ dma_size g' = len bytes
        /\ load (dma_buffer g') 0 (len bytes) = bytes
        /\ holly g' = holly gd
        /\ DRQ (status g') = false /\ BSY (status g') = true).
Proof.
  intros Hc Hd Hpos Hfit fad fmt mask n k bytes.
  unfold gdrom_spi_cmd. rewrite Hc.
  set (g0 := set_cdr_num_sectors _ _).
  assert (Hd0 : disc g0 = Some d) by exact Hd.
  assert (Hfit0 : sectors_fit g0).
  { unfold sectors_fit. rewrite Hd0. intros f. apply Hfit. }
  assert (Hb : disc_sectors g0 (cdr_first_sector g0)
                 (Z.min (cdr_num_sectors g0) max_sectors) = bytes).
  { rewrite (disc_sectors_sectors_of g0 d _ _ Hd0). reflexivity. }
  destruct (Z.eq_dec (features_dma (features gd)) 0) as [Hdma|Hdma].
  - destruct (gdrom_spi_cdread_pio g0 Hdma Hpos Hfit0)
      as (g' & Hrun & _ & Hsz & Hh & Hbc & Hl & Hst & Hf & Hn & Hho & Hq & Hy
          & _).
    rewrite Hb in Hsz, Hbc, Hl.
    exists g'. split; [exact Hrun|]. split; [exact Hf|]. split; [exact Hn|].
    split; [|intros Hne; contradiction].
    intros _. repeat split; assumption.
  - destruct (gdrom_spi_cdread_dma g0 Hdma Hpos Hfit0)
      as (g' & Hrun & _ & Hsz & Hh & Hl & Hst & Hf & Hn & Hho & Hs).
    rewrite Hb in Hsz, Hl.
    exists g'. split; [exact Hrun|]. split; [exact Hf|]. split; [exact Hn|].
    split; [intros He; contradiction|].
    intros _. rewrite Hs. repeat split; assumption.
Qed.

Lemma lor16_range (a b : Z) :
  0 <= a < 256 -> 0 <= b < 256 -> 0 <= Z.lor (Z.shiftl a 8) b < 65536.
Proof.
  intros Ha Hb. rewrite Z.shiftl_mul_pow2 by lia.
  change (2 ^ 8) with 256.
  pose proof (Z.add_lor_land (a * 256) b) as H.
  assert (H1 : 0 <= Z.land (a * 256) b) by (apply Z.land_nonneg; lia).
  assert (H2 : 0 <= Z.lor (a * 256) b) by (apply Z.lor_nonneg; lia).
  lia.
Qed.

(** X22: GET_SCD with a disc attached copies [size] bytes, the 16-bit
    value of packet bytes 3 and 4, out of a local array of
    [GD_SPI_SCD_SIZE] bytes.  A size up to [GD_SPI_SCD_SIZE] starts a
    PIO transfer of that many bytes; a larger one always passes the
    check against the PIO buffer and makes [memcpy] read past the end of
    the array. *)
Theorem gdrom_spi_cmd_get_scd_size (gd : gdrom) (arg : Z) :
  spi_cmd_of (pio_data gd 0) = Some GD_SPI_GET_SCD ->
  disc gd <> None ->
  3 < GD_SPI_SCD_SIZE ->
  let size := Z.lor (Z.shiftl (pio_data gd 3) 8) (pio_data gd 4) in
  (GD_SPI_SCD_SIZE < size -> gdrom_spi_cmd gd arg = Err Undefined)
  /\ (size <= GD_SPI_SCD_SIZE ->
      exists g' : gdrom,
        gdrom_spi_cmd gd arg = Ok g'
        /\ state g' = STATE_WRITE_SPI_DATA
        /\ pio_head g' = 0
        /\ pio_size g' = size
        /\ byte_count g' = size
        /\ holly g' = holly_raise_interrupt :: holly gd).
Proof.
  intros Hc Hd Hscd size.
  pose proof (lor16_range (pio_data gd 3) (pio_data gd 4)
                (Z_of_byte_range _) (Z_of_byte_range _)) as Hr.
  fold size in Hr.
  assert (Hsub : exists scd : list byte,
             gdrom_get_subcode
               (set_status (set_BSY true (status
                  (set_status (set_DRQ false (status gd)) gd)))
                  (set_status (set_DRQ false (status gd)) gd))
               (Z.land (pio_data gd 1) 0xf) GD_SPI_SCD_SIZE = Ok scd
             /\ len scd = GD_SPI_SCD_SIZE).
  { unfold gdrom_get_subcode. cbn [disc set_status].
    destruct (disc gd) as [x|]; [|contradiction Hd; reflexivity].
    cbn [bind].
    replace (GD_SPI_SCD_SIZE >=? GD_SPI_SCD_SIZE) with true
      by (symmetry; apply Z.geb_le; lia).
    replace (1 <? GD_SPI_SCD_SIZE) with true
      by (symmetry; apply Z.ltb_lt; lia).
    replace (3 <? GD_SPI_SCD_SIZE) with true
      by (symmetry; apply Z.ltb_lt; lia).
    cbn [bind].
    destruct (_ =? 0); [|destruct (_ =? 1)]; cbn [bind];
      (eexists; split; [reflexivity|apply len_load; lia]). }
  destruct Hsub as (scd & Hsub & Hlen).
  unfold gdrom_spi_cmd. rewrite Hc. fold size.
  cbv zeta. rewrite Hsub. cbn [bind].
  unfold gdrom_spi_write.
  replace (size <? sizeof_pio_buffer) with true
    by (symmetry; apply Z.ltb_lt; unfold sizeof_pio_buffer; lia).
  cbn [bind]. rewrite Hlen.
  replace (0 <=? size) with true by (symmetry; apply Z.leb_le; lia).
  cbn [andb].
  split; intros Hs.
  - replace (size <=? GD_SPI_SCD_SIZE) with false
      by (symmetry; apply Z.leb_gt; lia).
    reflexivity.
  - replace (size <=? GD_SPI_SCD_SIZE) with true
      by (symmetry; apply Z.leb_le; lia).
    cbn [bind]. eexists. split; [reflexivity|]. repeat split.
Qed.

End CdRead.

(** ** A whole CD_READ read through the data register *)

Section WholeRead.

Context {T : gd_types}.

Lemma read_words_app (a b : nat) : forall g : gdrom,
  read_words (a + b) g =
  (r1 <- read_words a g ;;
   r2 <- read_words b (snd r1) ;;
   Ok (fst r1 ++ fst r2, snd r2)).
Proof.
  induction a as [|a IH]; intros g.
  - cbn [Nat.add read_words bind fst snd app].
    destruct (read_words b g) as [[l g']|f]; reflexivity.
  - cbn [Nat.add read_words].
    destruct (GD_DATA_r g) as [[v g1]|f]; cbn [bind fst snd]; [|reflexivity].
    rewrite IH.
    destruct (read_words a g1) as [[l1 g2]|f]; cbn [bind fst snd];
      [|reflexivity].
    destruct (read_words b g2) as [[l2 g3]|f]; reflexivity.
Qed.

Lemma words_of_app (n : nat) : forall l1 l2 : list byte,
  length l1 = (2 * n)%nat ->
  words_of (l1 ++ l2) = words_of l1 ++ words_of l2.
Proof.
  induction n as [|n IH]; intros l1 l2 Hl.
  - destruct l1; [reflexivity|discriminate Hl].
  - destruct l1 as [|lo [|hi l1]]; try (cbn in Hl; lia).
    cbn [app words_of]. rewrite IH by (cbn in Hl; lia). reflexivity.
Qed.

Lemma flat_map_seq_from {A : Type} (f : nat -> list A) (n : nat) :
  forall s : nat,
    flat_map f (seq s n) = flat_map (fun k => f (s + k)%nat) (seq 0 n).
Proof.
  induction n as [|n IH]; intros s; [reflexivity|].
  cbn [seq flat_map]. rewrite Nat.add_0_r. f_equal.
  rewrite IH, flat_map_seq_shift.
  apply flat_map_ext. intros k. f_equal. lia.
Qed.

Lemma sectors_of_app (d : disc_t) (fad fmt mask a b : Z) :
  0 <= a -> 0 <= b ->
  sectors_of d fad fmt mask (a + b)
  = sectors_of d fad fmt mask a ++ sectors_of d (fad + a) fmt mask b.
Proof.
  intros Ha Hb. unfold sectors_of.
  rewrite Z2Nat.inj_add by lia.
  rewrite seq_app, flat_map_app. f_equal.
  rewrite flat_map_seq_from. apply flat_map_ext. intros k.
  f_equal. lia.
Qed.

Lemma len_flat_map_even {A : Type} (f : A -> list byte) (l : list A) :
  (forall x, 0 < len (f x) /\ Z.even (len (f x)) = true) ->
  Z.even (len (flat_map f l)) = true
  /\ (l <> [] -> 0 < len (flat_map f l)).
Proof.
  intros H. induction l as [|x l [IH1 IH2]]; [split; [reflexivity|congruence]|].
  cbn [flat_map]. rewrite len_app. destruct (H x) as [Hp He].
  split.
  - rewrite Z.even_add, He, IH1. reflexivity.
  - intros _. pose proof (len_nonneg (flat_map f l)). lia.
Qed.

Lemma even_half (z : Z) :
  0 < z -> Z.even z = true ->
  exists k : nat, z = 2 * Z.of_nat (S k) /\ Z.to_nat (z / 2) = S k.
Proof.
  intros Hp He. apply Z.even_spec in He. destruct He as [m Hm].
  exists (Z.to_nat (m - 1)). subst z.
  rewrite Z.mul_comm, Z.div_mul by lia.
  split; lia.
Qed.

(** The whole transfer, by induction on the sectors still owed. *)
Lemma cd_read_pio_sectors (m : nat) : forall (gd : gdrom) (d : disc_t),
  (Z.to_nat (cdr_num_sectors gd) <= m)%nat ->
  cdr_dma gd = 0 ->
  disc gd = Some d ->
  0 < DISC_MAX_SECTOR_SIZE <= sizeof_pio_buffer ->
  (forall fad,
      0 < len (disc_read_sector d fad (cdr_secfmt gd) (cdr_secmask gd))
        <= DISC_MAX_SECTOR_SIZE
      /\ Z.even (len (disc_read_sector d fad (cdr_secfmt gd) (cdr_secmask gd)))
         = true) ->
  0 < cdr_num_sectors gd ->
  exists g g' : gdrom,
    gdrom_spi_cdread gd = Ok g
    /\ read_words
         (Z.to_nat
            (len (sectors_of d (cdr_first_sector gd) (cdr_secfmt gd)
                    (cdr_secmask gd) (cdr_num_sectors gd)) / 2)) g
       = Ok (words_of
               (sectors_of d (cdr_first_sector gd) (cdr_secfmt gd)
                  (cdr_secmask gd) (cdr_num_sectors gd)), g')
    /\ state g' = STATE_READ_ATA_CMD
    /\ cdr_num_sectors g' = 0
    /\ cdr_first_sector g' = cdr_first_sector gd + cdr_num_sectors gd
    /\ DRQ (status g') = false /\ BSY (status g') = false
    /\ DRDY (status g') = true.
Proof.
  induction m as [|m IH]; intros gd d Hm Hdma Hd HD Hsec Hn; [lia|].
  assert (HC : 1 <= max_sectors).
  { unfold max_sectors.
    rewrite Z.quot_div_nonneg by (unfold sizeof_pio_buffer; lia).
    apply Z.div_le_lower_bound; lia. }
  assert (Hfit : sectors_fit gd).
  { unfold sectors_fit. rewrite Hd. intros fad. apply Hsec. }
  set (ns := Z.min (cdr_num_sectors gd) max_sectors).
  assert (Hns : 1 <= ns <= cdr_num_sectors gd) by (subst ns; lia).
  destruct (gdrom_spi_cdread_pio gd Hdma (proj1 HD) Hfit)
    as (g & Hrun & Hcap & Hsz & Hh & _ & Hld & Hst & Hf & Hr & _ & _ & _ & _
        & _ & Hd' & Hdma' & Hfmt & Hmask).
  fold ns in Hcap, Hsz, Hld, Hf, Hr.
  rewrite (disc_sectors_sectors_of gd d _ _ Hd) in Hcap, Hsz, Hld.
  set (b1 := sectors_of d (cdr_first_sector gd) (cdr_secfmt gd)
               (cdr_secmask gd) ns) in *.
  assert (Hb1 : 0 < len b1 /\ Z.even (len b1) = true).
  { unfold b1, sectors_of.
    destruct (len_flat_map_even
                (fun k => disc_read_sector d (cdr_first_sector gd + Z.of_nat k)
                            (cdr_secfmt gd) (cdr_secmask gd))
                (seq 0 (Z.to_nat ns))) as [He Hp].
    - intros k. destruct (Hsec (cdr_first_sector gd + Z.of_nat k)) as [H1 H2].
      split; [lia|exact H2].
    - split; [apply Hp|exact He].
      destruct (Z.to_nat ns) eqn:E; [lia|discriminate]. }
  destruct (even_half (len b1) (proj1 Hb1) (proj2 Hb1)) as (k & Hk & Hhalf).
  destruct (Z.eq_dec (cdr_num_sectors gd - ns) 0) as [Hz|Hnz].
  - replace (cdr_num_sectors gd) with ns by lia. fold b1.
    exists g, (gdrom_spi_end (set_pio_head (pio_size g) g)).
    split; [exact Hrun|].
    split.
    { rewrite Hhalf.
      rewrite read_words_core by (try assumption; lia).
      rewrite Hh, <- Hk, Hld. reflexivity. }
    split; [reflexivity|].
    cbn [gdrom_spi_end cdr_num_sectors cdr_first_sector status DRQ BSY DRDY
         set_state raise_interrupt set_holly set_status set_ireason
         set_pio_head set_DRQ set_BSY set_DRDY].
    split; [lia|]. split; [exact Hf|]. repeat split.
  - set (g1 := set_pio_head (pio_size g) g).
    destruct (IH g1 d) as (g2 & g' & Hrun2 & Hread2 & Hst' & Hn' & Hf' & Hs').
    + cbn [g1 cdr_num_sectors set_pio_head]. lia.
    + exact Hdma'.
    + cbn [g1 disc set_pio_head]. congruence.
    + exact HD.
    + cbn [g1 cdr_secfmt cdr_secmask set_pio_head]. rewrite Hfmt, Hmask.
      exact Hsec.
    + cbn [g1 cdr_num_sectors set_pio_head]. lia.
    + cbn [g1 cdr_num_sectors cdr_first_sector cdr_secfmt cdr_secmask
           set_pio_head] in Hread2, Hf'.
      rewrite Hf, Hr, Hfmt, Hmask in Hread2. rewrite Hf, Hr in Hf'.
      set (b2 := sectors_of d (cdr_first_sector gd + ns) (cdr_secfmt gd)
                   (cdr_secmask gd) (cdr_num_sectors gd - ns)) in *.
      assert (Hsplit :
                sectors_of d (cdr_first_sector gd) (cdr_secfmt gd)
                  (cdr_secmask gd) (cdr_num_sectors gd) = b1 ++ b2).
      { replace (cdr_num_sectors gd) with (ns + (cdr_num_sectors gd - ns))
          at 1 by lia.
        apply sectors_of_app; lia. }
      rewrite Hsplit.
      exists g, g'. split; [exact Hrun|].
      split.
      { rewrite len_app.
        replace (Z.to_nat ((len b1 + len b2) / 2))
          with (S k + Z.to_nat (len b2 / 2))%nat.
        - rewrite read_words_app.
          rewrite read_words_refill by (try assumption; lia).
          fold g1. rewrite Hrun2. cbn [bind fst snd].
          rewrite Hread2. cbn [bind fst snd].
          rewrite Hh, <- Hk, Hld.
          rewrite (words_of_app (S k)); [reflexivity|].
          unfold len in Hk. lia.
        - rewrite Hk.
          replace (2 * Z.of_nat (S k) + len b2)
            with (len b2 + Z.of_nat (S k) * 2) by lia.
          rewrite Z.div_add by lia.
          pose proof (len_nonneg b2).
          assert (0 <= len b2 / 2) by (apply Z.div_pos; lia).
          lia. }
      split; [exact Hst'|]. split; [exact Hn'|].
      split; [lia|exact Hs'].
Qed.

(** X23: a PIO-mode CD_READ of [n > 0] sectors, from a disc whose
    sectors are non-empty, of even size and at most
    [DISC_MAX_SECTOR_SIZE <= 0x10000] bytes, is read out whole by the
    data register: once the sector reader has staged the first chunk,
    [total / 2] reads return the sectors [first .. first + n - 1] in
    order as 16-bit words, low byte first, refilling the PIO buffer in
    between as often as needed; the last read completes the command
    (state [STATE_READ_ATA_CMD], DRQ and BSY clear, DRDY set) with no
    sectors owed. *)
Theorem cd_read_pio_all_sectors (gd : gdrom) (d : disc_t) :
  cdr_dma gd = 0 ->
  disc gd = Some d ->
  0 < DISC_MAX_SECTOR_SIZE <= sizeof_pio_buffer ->
  (forall fad,
      0 < len (disc_read_sector d fad (cdr_secfmt gd) (cdr_secmask gd))
        <= DISC_MAX_SECTOR_SIZE
      /\ Z.even (len (disc_read_sector d fad (cdr_secfmt gd) (cdr_secmask gd)))
         = true) ->
  0 < cdr_num_sectors gd ->
  let bytes :=
    sectors_of d (cdr_first_sector gd) (cdr_secfmt gd) (cdr_secmask gd)
      (cdr_num_sectors gd) in
  exists g g' : gdrom,
    gdrom_spi_cdread gd = Ok g
    /\ read_words (Z.to_nat (len bytes / 2)) g = Ok (words_of bytes, g')
    /\ state g' = STATE_READ_ATA_CMD
    /\ cdr_num_sectors g' = 0
    /\ cdr_first_sector g' = cdr_first_sector gd + cdr_num_sectors gd
    /\ DRQ (status g') = false /\ BSY (status g') = false
    /\ DRDY (status g') = true.
Proof.
  intros Hdma Hd HD Hsec Hn bytes.
  exact (cd_read_pio_sectors (Z.to_nat (cdr_num_sectors gd)) gd d
           (Nat.le_refl _) Hdma Hd HD Hsec Hn).
Qed.

End WholeRead.

(** ** The chunks of a CD_READ, as the guest and the DMA engine meet them *)

Section ChunkDelivery.

Context {T : gd_types}.













End ChunkDelivery.

(** ** The disc across operations *)

Section Disc.

Context {T : gd_types}.

Lemma gdrom_spi_cdread_disc (gd gd' : gdrom) :
  gdrom_spi_cdread gd = Ok gd' -> disc gd' = disc gd.
Proof.
  intros H. unfold gdrom_spi_cdread in H.
  destruct (cdr_dma gd =? 0); cbn [negb] in H;
    apply bind_ok in H; destruct H as (data & _ & H); injection H as <-;
    reflexivity.
Qed.

Lemma gdrom_spi_write_disc (gd gd' : gdrom) (data : list byte) (size : Z) :
  gdrom_spi_write gd data size = Ok gd' -> disc gd' = disc gd.
Proof.
  unfold gdrom_spi_write.
  destruct (size <? sizeof_pio_buffer); [|discriminate].
  destruct (_ && _); [|discriminate].
  intros H. injection H as <-. reflexivity.
Qed.

Lemma gdrom_spi_cmd_disc (gd gd' : gdrom) (arg : Z) :
  gdrom_spi_cmd gd arg = Ok gd' -> disc gd' = disc gd.
Proof.
  intros H. unfold gdrom_spi_cmd in H.
  destruct (spi_cmd_of (pio_data gd 0)) as [[]|]; try discriminate H;
    try (apply bind_ok in H; destruct H as (x & _ & H));
    try (apply gdrom_spi_write_disc in H; exact H);
    try (apply gdrom_spi_cdread_disc in H; exact H);
    try (injection H as <-; try destruct (seek_type_of _) as [[]|];
         reflexivity).
Qed.

Lemma gdrom_set_disc_reattach (gd gd' : gdrom) :
  gdrom_set_disc gd (disc gd) = Ok gd' -> disc gd' = disc gd.
Proof.
  unfold gdrom_set_disc. rewrite same_disc_refl. cbn [negb bind].
  cbn [disc set_sectnum set_status set_error].
  destruct (disc gd) eqn:E; intros H; injection H as <-; cbn; exact E.
Qed.

Lemma gdrom_ata_cmd_disc (gd gd' : gdrom) (cmd : Z) :
  gdrom_ata_cmd gd cmd = Ok gd' -> disc gd' = disc gd.
Proof.
  intros H. unfold gdrom_ata_cmd in H.
  apply bind_ok in H. destruct H as ([g rd] & Hg & H).
  assert (Hgi : disc g = disc gd).
  { destruct (ata_cmd_of cmd) as [[]|]; try discriminate Hg;
      try (injection Hg as <- _; reflexivity).
    apply bind_ok in Hg. destruct Hg as (g1 & Hg1 & Hg).
    injection Hg as <- _.
    apply gdrom_set_disc_reattach in Hg1. exact Hg1. }
  destruct rd; injection H as <-; exact Hgi.
Qed.

Lemma gdrom_event_fuel_disc (fuel : nat) :
  forall (gd gd' : gdrom) (ev : gd_event) (arg : Z),
    gdrom_event_fuel fuel gd ev arg = Ok gd' -> disc gd' = disc gd.
Proof.
  induction fuel as [|fuel IH]; intros gd gd' ev arg H; [discriminate|].
  cbn [gdrom_event_fuel] in H.
  destruct (gd_transitions (state gd) ev) as [cb|]; [|discriminate].
  destruct cb; cbn [gd_call] in H.
  - apply (gdrom_ata_cmd_disc _ _ _ H).
  - unfold gdrom_pio_write in H.
    destruct (_ && _); [apply (IH _ _ _ _ H)|].
    destruct (_ && _); [apply (IH _ _ _ _ H)|].
    injection H as <-. reflexivity.
  - apply (gdrom_spi_cmd_disc _ _ _ H).
  - unfold gdrom_pio_read in H.
    destruct (pio_head gd =? pio_size gd).
    + destruct (negb (cdr_num_sectors gd =? 0)).
      * apply (gdrom_spi_cdread_disc _ _ H).
      * injection H as <-. reflexivity.
    + injection H as <-. reflexivity.
  - unfold gdrom_spi_data in H.
    destruct (_ && _); [|discriminate]. injection H as <-. reflexivity.
Qed.

Lemma gd_step_disc (gd gd' : gdrom) (op : gd_op) :
  not_set_disc op = true -> gd_step gd op = Ok gd' -> disc gd' = disc gd.
Proof.
  intros Hop H.
  destruct op; try discriminate Hop; cbn [gd_step] in H;
    try (injection H as <-; reflexivity); try discriminate H.
  - apply bind_ok in H. destruct H as ([v g] & Hr & H).
    injection H as <-. unfold GD_DATA_r in Hr.
    destruct (_ && _); [|discriminate].
    apply bind_ok in Hr. destruct Hr as (g1 & Hev & Hr).
    injection Hr as _ <-.
    apply gdrom_event_fuel_disc in Hev. exact Hev.
  - unfold GD_DATA_w in H.
    destruct (_ && _); [|discriminate].
    apply gdrom_event_fuel_disc in H. exact H.
  - apply (gdrom_event_fuel_disc _ _ _ _ _ H).
  - unfold gdrom_dma_begin in H.
    destruct (negb _); [|discriminate]. injection H as <-. reflexivity.
  - apply bind_ok in H. destruct H as ([[k data] g] & Hr & H).
    injection H as <-. unfold gdrom_dma_read in Hr.
    apply bind_ok in Hr. destruct Hr as (g1 & Hg & Hr).
    assert (Hgi : disc g1 = disc gd).
    { destruct (dma_head gd >=? dma_size gd).
      - apply (gdrom_spi_cdread_disc _ _ Hg).
      - injection Hg as <-. reflexivity. }
    destruct (Z.min n (dma_size g1 - dma_head g1) >? 0); [|discriminate].
    destruct (_ && _); [|discriminate].
    injection Hr as _ _ <-.
    cbn [dma_head dma_size set_dma_head].
    match goal with
    | |- context [if ?c then _ else _] => destruct c
    end; exact Hgi.
  - apply bind_ok in H. destruct H as (x & _ & H).
    injection H as <-. reflexivity.
Qed.

(** X24: the disc changes only through [gdrom_set_disc].  Along every
    sequence of register accesses, DMA steps and the other host calls
    that runs to its end, the attached disc is the one the sequence
    started with; this includes the soft reset, which re-attaches the
    same disc. *)
Theorem gd_run_keeps_disc (ops : list gd_op) : forall gd gd' : gdrom,
  forallb not_set_disc ops = true ->
  gd_run gd ops = Ok gd' ->
  disc gd' = disc gd.
Proof.
  induction ops as [|op ops IH]; intros gd gd' Hops H.
  - injection H as <-. reflexivity.
  - cbn [forallb] in Hops. apply andb_true_iff in Hops.
    destruct Hops as [Hop Hops].
    cbn [gd_run] in H. apply bind_ok in H. destruct H as (g & Hs & H).
    rewrite (IH g gd' Hops H). apply (gd_step_disc _ _ _ Hop Hs).
Qed.

End Disc.

(** * The controller on concrete inputs *)

#[local] Existing Instance example_types.

(** C1 (what the code does): a DMA-mode CD_READ of 28 sectors fills the
    DMA buffer with the first 27 and leaves one sector to go, without an
    interrupt.  The DMA read step that drains the buffer then runs the
    completion sequence all the same: the state is back to
    [STATE_READ_ATA_CMD], DRDY is set and the interrupt is raised while
    the remaining sector count is still 1.  The next step refills the
    buffer and completes a second time. *)
Theorem gdrom_dma_read_completes_with_sectors_left :
  on_ok (gd_run gd_zero example_dma_cdread)
    (fun gd => (state gd, cdr_num_sectors gd, dma_head gd, dma_size gd,
                holly gd))
  = Some (STATE_WRITE_DMA_DATA, 1, 0, 55296, [])
  /\ on_ok (gd_run gd_zero (example_dma_cdread ++ [op_dma_read 55296]))
       (fun gd => (state gd, cdr_num_sectors gd, dma_head gd, dma_size gd,
                   holly gd, DRDY (status gd), IO (ireason gd),
                   CoD (ireason gd)))
     = Some (STATE_READ_ATA_CMD, 1, 55296, 55296, [holly_raise_interrupt],
             true, true, true)
  /\ on_ok (gd_run gd_zero
              (example_dma_cdread ++ [op_dma_read 55296; op_dma_read 2048]))
       (fun gd => (state gd, cdr_num_sectors gd, dma_head gd, dma_size gd,
                   holly gd))
     = Some (STATE_READ_ATA_CMD, 0, 2048, 2048,
             [holly_raise_interrupt; holly_raise_interrupt]).
Proof. repeat split; lazy; reflexivity. Qed.

(** C2 (counterexample): the packet command resets the PIO head and
    leaves the PIO size as it was; the first word of the packet moves the
    head past the size. *)
Lemma pio_head_exceeds_pio_size :
  exists gd0 gd1 : gdrom,
    gd_run gd_zero [op_set_disc None; op_write_COMMAND 0xa0] = Ok gd0
    /\ buffers_ok gd0 /\ pio_head gd0 <= pio_size gd0
    /\ gd_step gd0 (op_write_DATA 0x0011) = Ok gd1
    /\ pio_head gd1 = 2 /\ pio_size gd1 = 0
    /\ ~ (0 <= pio_head gd1 <= pio_size gd1
          /\ pio_size gd1 <= sizeof_pio_buffer).
Proof.
  eexists. eexists.
  split; [lazy; reflexivity|].
  split; [lazy; intuition discriminate|].
  split; [lazy; discriminate|].
  split; [lazy; reflexivity|].
  split; [reflexivity|]. split; [reflexivity|].
  lazy. intros [[_ H] _]. apply H. reflexivity.
Qed.

(** C2 (witness): the buffers stay within bounds along a CD_READ read by
    DMA. *)
Lemma gd_run_buffers_ok_witness :
  buffers_ok gd_zero
  /\ exists gd' : gdrom,
       gd_run gd_zero (example_dma_cdread ++ [op_dma_read 55296]) = Ok gd'
       /\ buffers_ok gd'.
Proof.
  assert (H0 : buffers_ok gd_zero) by (lazy; intuition discriminate).
  split; [exact H0|].
  destruct (gd_run gd_zero (example_dma_cdread ++ [op_dma_read 55296]))
    as [gd'|f] eqn:E.
  - exists gd'. split; [reflexivity|].
    exact (gd_run_buffers_ok _ gd_zero gd' H0 E).
  - exfalso.
    assert (H : on_ok (gd_run gd_zero (example_dma_cdread ++ [op_dma_read 55296]))
                  state = Some STATE_READ_ATA_CMD) by (lazy; reflexivity).
    rewrite E in H. discriminate H.
Defined.

(** C3 (counterexample): a soft reset with no disc leaves the byte count
    the guest had written. *)
Lemma gdrom_set_disc_keeps_byte_count :
  exists gd0 gd1 : gdrom,
    gd_run gd_zero [op_write_BYCTLHI 0x08] = Ok gd0
    /\ gdrom_set_disc gd0 None = Ok gd1
    /\ disc gd1 = None
    /\ sectnum_status (sectnum gd1) = GD_STATUS_NODISC
    /\ byte_count gd1 = 0x800
    /\ byte_count gd1 <> 0.
Proof.
  eexists. eexists.
  split; [lazy; reflexivity|].
  split; [lazy; reflexivity|].
  repeat split. discriminate.
Qed.

(** C3 (witness). *)
Lemma gdrom_set_disc_soft_reset_witness :
  (same_disc (disc gd_zero) (Some example_disc) = true
   \/ disc_get_meta_defined (Some example_disc) = true)
  /\ exists gd' : gdrom,
       gdrom_set_disc gd_zero (Some example_disc) = Ok gd'
       /\ sectnum_status (sectnum gd') = 1
       /\ sectnum_format (sectnum gd') = 8.
Proof.
  split; [right; reflexivity|].
  destruct (gdrom_set_disc_soft_reset gd_zero (Some example_disc))
    as (gd' & H & Hs & Hf); [right; reflexivity|].
  exists gd'. split; [exact H|]. split; [exact Hs|exact Hf].
Defined.

(** C6 (what the code does): a REQ_SES packet whose byte 4 asks for 2
    bytes starts a transfer of [sizeof(ses)] bytes, 6 with the example
    layout; before its last word arrives the packet sits in the PIO
    buffer with the command in byte 0 and the size in byte 4. *)
Theorem gdrom_spi_cmd_req_ses_ignores_size :
  on_ok (gd_run gd_zero example_req_ses)
    (fun gd => (state gd, pio_size gd, byte_count gd))
  = Some (STATE_WRITE_SPI_DATA, 6, 6)
  /\ on_ok (gd_run gd_zero (removelast example_req_ses))
       (fun gd => (state gd, pio_head gd, spi_cmd_of (pio_data gd 0),
                   pio_data gd 4))
     = Some (STATE_READ_ATA_DATA, 10, Some GD_SPI_REQ_SES, 2).
Proof. split; lazy; reflexivity. Qed.

(** C8 (witness). *)
Lemma gdrom_ata_cmd_nop_witness :
  ata_cmd_of 0 = Some GD_ATA_NOP
  /\ exists gd' : gdrom,
       gdrom_event example_req_mode EVENT_ATA_CMD 0 = Ok gd'
       /\ ABRT (error gd') = true
       /\ state gd' = STATE_READ_ATA_CMD.
Proof.
  split; [reflexivity|].
  destruct (gdrom_ata_cmd_nop (T := example_types) example_req_mode 0 eq_refl)
    as (gd' & H & _ & _ & _ & He & _ & _ & _ & _ & Hs).
  exists gd'. split; [exact H|]. rewrite He. split; [reflexivity|exact Hs].
Defined.

(** C9 (witness): REQ_MODE arriving with 5 sectors of a CD_READ to go. *)
Lemma gdrom_spi_cmd_abandons_cdread_witness :
  spi_cmd_of (pio_data example_req_mode 0) = Some GD_SPI_REQ_MODE
  /\ starts_pio_transfer GD_SPI_REQ_MODE = true
  /\ cdr_num_sectors example_req_mode = 5
  /\ exists gd' g' : gdrom,
       gdrom_spi_cmd example_req_mode 0 = Ok gd'
       /\ cdr_num_sectors gd' = 0
       /\ gd_run gd' [op_read_DATA; op_read_DATA] = Ok g'
       /\ state g' = STATE_READ_ATA_CMD
       /\ holly g' = holly_raise_interrupt :: holly gd'
       /\ cdr_num_sectors g' = 0.
Proof.
  split; [reflexivity|]. split; [reflexivity|]. split; [reflexivity|].
  destruct (gdrom_spi_cmd example_req_mode 0) as [gd'|f] eqn:E.
  - destruct (gdrom_spi_cmd_abandons_cdread (T := example_types)
                example_req_mode gd' 0 GD_SPI_REQ_MODE eq_refl eq_refl E)
      as (Hn & _ & _ & _ & Hread).
    destruct (Hread 1%nat eq_refl) as (g' & Hrun & _ & Hst & Hho & _ & _ & _
                                       & _ & _ & _ & _ & _ & Hz).
    { assert (H : on_ok (gdrom_spi_cmd example_req_mode 0) pio_size = Some 4)
        by (lazy; reflexivity).
      rewrite E in H. injection H as ->. reflexivity. }
    exists gd', g'. split; [reflexivity|]. split; [exact Hn|].
    split; [exact Hrun|]. split; [exact Hst|]. split; [exact Hho|exact Hz].
  - exfalso.
    assert (H : on_ok (gdrom_spi_cmd example_req_mode 0) pio_size = Some 4)
      by (lazy; reflexivity).
    rewrite E in H. discriminate H.
Defined.

(** C10 (witness): a DMA read with nothing buffered and no sectors to
    read. *)
Lemma gdrom_dma_read_nothing_is_fatal_witness :
  dma_head (set_cdr_dma 1 gd_zero) >= dma_size (set_cdr_dma 1 gd_zero)
  /\ (exists gd' : gdrom,
         gdrom_spi_cdread (set_cdr_dma 1 gd_zero) = Ok gd'
         /\ dma_size gd' - dma_head gd' <= 0)
  /\ gdrom_dma_read (set_cdr_dma 1 gd_zero) 2048 = Err Fatal.
Proof.
  assert (H1 : dma_head (set_cdr_dma 1 gd_zero) >= dma_size (set_cdr_dma 1 gd_zero))
    by (lazy; discriminate).
  assert (H2 : exists gd' : gdrom,
             gdrom_spi_cdread (set_cdr_dma 1 gd_zero) = Ok gd'
             /\ dma_size gd' - dma_head gd' <= 0).
  { eexists. split; [lazy; reflexivity|]. lazy. discriminate. }
  split; [exact H1|]. split; [exact H2|].
  exact (gdrom_dma_read_nothing_is_fatal (set_cdr_dma 1 gd_zero) 2048 H1 H2).
Defined.


(** ** The further properties on concrete inputs *)

(** X1 (witness): the zeroed controller waits for an ATA command. *)
Lemma data_register_illegal_states_witness :
  0 <= pio_head gd_zero
  /\ pio_head gd_zero + 2 <= sizeof_pio_buffer
  /\ GD_DATA_r gd_zero = Err Fatal
  /\ GD_DATA_w gd_zero 0x1234 = Err Fatal
  /\ gd_step gd_zero (op_write_INTREASON 0x1234) = Err Fatal
  /\ gd_step gd_zero (op_write_SECTNUM 0x1234) = Err Fatal.
Proof.
  assert (H1 : 0 <= pio_head gd_zero) by (lazy; discriminate).
  assert (H2 : pio_head gd_zero + 2 <= sizeof_pio_buffer)
    by (lazy; discriminate).
  split; [exact H1|]. split; [exact H2|].
  exact (data_register_illegal_states gd_zero 0x1234 H1 H2).
Defined.

(** X2 (witness): a REQ_MODE packet sent to the zeroed controller. *)
Lemma packet_reception_witness :
  ata_cmd_of 0xa0 = Some GD_ATA_PACKET_CMD
  /\ length example_req_mode_packet = 6%nat
  /\ exists g : gdrom,
       gd_run gd_zero
         (op_write_COMMAND 0xa0
          :: map op_write_DATA example_req_mode_packet)
       = gdrom_spi_cmd g 0
       /\ load (pio_buffer g) 0 12
          = [x11; x00; x0a; x00; x04; x00; x00; x00; x00; x00; x00; x00]
       /\ holly g = [].
Proof.
  split; [reflexivity|]. split; [reflexivity|].
  destruct (packet_reception (T := example_types) gd_zero 0xa0
              example_req_mode_packet eq_refl eq_refl)
    as (g & Hrun & Hl & _ & _ & Hh & _).
  exists g. split; [exact Hrun|]. split; [exact Hl|exact Hh].
Defined.

(** X3 (witness): REQ_MODE for the first 4 bytes of the block. *)
Lemma gdrom_spi_cmd_req_mode_witness :
  spi_cmd_of (pio_data example_req_mode 0) = Some GD_SPI_REQ_MODE
  /\ pio_data example_req_mode 2 + pio_data example_req_mode 4
     <= sizeof_hw_info
  /\ exists g' : gdrom,
       gdrom_spi_cmd example_req_mode 0 = Ok g'
       /\ pio_size g' = 4
       /\ byte_count g' = 4.
Proof.
  assert (H2 : pio_data example_req_mode 2 + pio_data example_req_mode 4
               <= sizeof_hw_info) by (lazy; discriminate).
  split; [reflexivity|]. split; [exact H2|].
  destruct (gdrom_spi_cmd_req_mode (T := example_types) example_req_mode 0
              eq_refl H2)
    as (g' & Hrun & _ & _ & _ & Hs & Hb & _).
  exists g'. split; [exact Hrun|]. split; [exact Hs|exact Hb].
Defined.

(** X4 (witness): a SET_MODE payload of two words for bytes 10 to 13 of
    the block. *)
Lemma set_mode_payload_witness :
  state example_set_mode = STATE_READ_SPI_DATA
  /\ pio_head example_set_mode = 0
  /\ pio_size example_set_mode = 2 * Z.of_nat (length [0x0201; 0x0403])
  /\ [0x0201; 0x0403] <> []
  /\ 0 <= pio_offset example_set_mode
  /\ pio_offset example_set_mode + pio_size example_set_mode <= sizeof_hw_info
  /\ pio_size example_set_mode <= sizeof_pio_buffer
  /\ exists g' : gdrom,
       gd_run example_set_mode (map op_write_DATA [0x0201; 0x0403]) = Ok g'
       /\ load (hw_info g') 10 4 = [x01; x02; x03; x04]
       /\ state g' = STATE_READ_ATA_CMD.
Proof.
  assert (H4 : [0x0201; 0x0403] <> []) by discriminate.
  assert (H5 : 0 <= pio_offset example_set_mode) by (lazy; discriminate).
  assert (H6 : pio_offset example_set_mode + pio_size example_set_mode
               <= sizeof_hw_info) by (lazy; discriminate).
  assert (H7 : pio_size example_set_mode <= sizeof_pio_buffer)
    by (lazy; discriminate).
  split; [reflexivity|]. split; [reflexivity|]. split; [reflexivity|].
  split; [exact H4|]. split; [exact H5|]. split; [exact H6|].
  split; [exact H7|].
  destruct (set_mode_payload (T := example_types) example_set_mode
              [0x0201; 0x0403] eq_refl eq_refl eq_refl H4 H5 H6 H7)
    as (g' & Hrun & Hl & _ & Hs & _).
  exists g'. split; [exact Hrun|]. split; [exact Hl|exact Hs].
Defined.

(** X5 (witness): a reply of 4 bytes is read out by 2 reads. *)
Lemma read_words_reply_witness :
  state example_reply = STATE_WRITE_SPI_DATA
  /\ cdr_num_sectors example_reply = 0
  /\ pio_head example_reply = 0
  /\ pio_size example_reply = 2 * Z.of_nat 2
  /\ pio_size example_reply <= sizeof_pio_buffer
  /\ read_words 2 example_reply =
     Ok (words_of (load (pio_buffer example_reply) 0 (pio_size example_reply)),
         gdrom_spi_end (set_pio_head (pio_size example_reply) example_reply)).
Proof.
  assert (H5 : pio_size example_reply <= sizeof_pio_buffer)
    by (lazy; discriminate).
  split; [reflexivity|]. split; [reflexivity|]. split; [reflexivity|].
  split; [reflexivity|]. split; [exact H5|].
  exact (read_words_reply (T := example_types) 1 example_reply
           eq_refl eq_refl eq_refl eq_refl H5).
Defined.

(** X6 (witness): two words stored at bytes 10 to 13 of the block and
    read back. *)
Lemma mode_page_round_trip_witness :
  ata_cmd_of 0xa0 = Some GD_ATA_PACKET_CMD
  /\ length example_set_mode_packet = 6%nat
  /\ length example_req_mode_packet = 6%nat
  /\ spi_cmd_of
       (Z_of_byte (nth 0 (flat_map word_bytes example_set_mode_packet) x00))
     = Some GD_SPI_SET_MODE
  /\ spi_cmd_of
       (Z_of_byte (nth 0 (flat_map word_bytes example_req_mode_packet) x00))
     = Some GD_SPI_REQ_MODE
  /\ Z_of_byte (nth 2 (flat_map word_bytes example_set_mode_packet) x00) = 10
  /\ Z_of_byte (nth 2 (flat_map word_bytes example_req_mode_packet) x00) = 10
  /\ Z_of_byte (nth 4 (flat_map word_bytes example_set_mode_packet) x00) = 4
  /\ Z_of_byte (nth 4 (flat_map word_bytes example_req_mode_packet) x00) = 4
  /\ [0x0201; 0x0403] <> []
  /\ 4 = 2 * Z.of_nat (length [0x0201; 0x0403])
  /\ 10 + 4 <= sizeof_hw_info
  /\ exists g g' : gdrom,
       gd_run gd_zero
         ((op_write_COMMAND 0xa0 :: map op_write_DATA example_set_mode_packet)
          ++ map op_write_DATA [0x0201; 0x0403]
          ++ op_write_COMMAND 0xa0
             :: map op_write_DATA example_req_mode_packet) = Ok g
       /\ read_words 2 g = Ok ([0x0201; 0x0403], g')
       /\ state g' = STATE_READ_ATA_CMD.
Proof.
  assert (Hp : [0x0201; 0x0403] <> []) by discriminate.
  assert (Hs : 10 + 4 <= sizeof_hw_info) by (lazy; discriminate).
  repeat (split; [reflexivity|]).
  split; [exact Hp|]. split; [reflexivity|]. split; [exact Hs|].
  exact (mode_page_round_trip (T := example_types) gd_zero 0xa0
           example_set_mode_packet example_req_mode_packet
           [0x0201; 0x0403] 10 4
           eq_refl eq_refl eq_refl eq_refl eq_refl eq_refl eq_refl eq_refl
           eq_refl Hp eq_refl Hs).
Defined.

(** The sectors of the example disc are 2048 bytes long. *)
Lemma example_disc_fits (fmt mask : Z) :
  forall i, len (disc_read_sector example_disc i fmt mask)
            <= DISC_MAX_SECTOR_SIZE.
Proof.
  intros i. unfold len. cbn [disc_read_sector example_disc].
  rewrite repeat_length. lazy. discriminate.
Defined.

(** X7 (witness): two sectors of the example disc fit 4096 bytes and do
    not fit 4095. *)
Lemma gdrom_read_sectors_all_or_fatal_witness :
  disc example_cdread = Some example_disc
  /\ (forall i, len (disc_read_sector example_disc i 0 0)
                <= DISC_MAX_SECTOR_SIZE)
  /\ 0 <= 4095
  /\ gdrom_read_sectors example_cdread 150 0 0 2 4095 = Err Fatal.
Proof.
  assert (H3 : 0 <= 4095) by discriminate.
  split; [reflexivity|]. split; [exact (example_disc_fits 0 0)|].
  split; [exact H3|].
  rewrite (gdrom_read_sectors_all_or_fatal (T := example_types)
             example_cdread example_disc 150 0 0 2 4095
             eq_refl (example_disc_fits 0 0) H3).
  lazy. reflexivity.
Defined.

(** X8 (witness). *)
Lemma gdrom_copy_sectors_all_witness :
  disc example_cdread = Some example_disc
  /\ (forall i, len (disc_read_sector example_disc i 0 0)
                <= DISC_MAX_SECTOR_SIZE)
  /\ gdrom_copy_sectors example_cdread 150 0 0 40
     = Ok (sectors_of example_disc 150 0 0 40).
Proof.
  split; [reflexivity|]. split; [exact (example_disc_fits 0 0)|].
  exact (proj1 (gdrom_copy_sectors_all (T := example_types)
                  example_cdread example_disc 150 0 0 40
                  eq_refl (example_disc_fits 0 0))).
Defined.

(** X9 (witness): GET_TOC sent to the zeroed controller, which has no
    disc. *)
Lemma no_disc_behaviour_witness :
  disc gd_zero = None
  /\ gdrom_read_sectors gd_zero 150 0 0 2 4096 = Ok []
  /\ gdrom_copy_sectors gd_zero 150 0 0 2 = Ok []
  /\ gdrom_spi_cmd (set_pio_buffer (fun _ => x14) gd_zero) 0 = Err Fatal.
Proof.
  split; [reflexivity|].
  split;
    [exact (proj1 (no_disc_behaviour (T := example_types) gd_zero eq_refl)
              150 0 0 2 4096)|].
  split;
    [exact (proj1 (proj2 (no_disc_behaviour (T := example_types) gd_zero
                            eq_refl)) 150 0 0 2)|].
  exact (proj2 (proj2 (no_disc_behaviour (T := example_types)
                         (set_pio_buffer (fun _ => x14) gd_zero) eq_refl))
           GD_SPI_GET_TOC 0 eq_refl eq_refl).
Defined.

Lemma example_disc_sectors_fit (gd : gdrom) :
  disc gd = Some example_disc -> sectors_fit gd.
Proof.
  intros H. unfold sectors_fit. rewrite H. intros fad. unfold len.
  cbn [disc_read_sector example_disc].
  rewrite repeat_length. lazy. discriminate.
Defined.

(** X10 (witness): the first DMA read of a CD_READ of 28 sectors delivers
    27 of them. *)
Lemma gdrom_dma_read_delivers_sectors_witness :
  cdr_dma example_dma <> 0
  /\ dma_head example_dma >= dma_size example_dma
  /\ 0 < DISC_MAX_SECTOR_SIZE
  /\ sectors_fit example_dma
  /\ 0 < len (disc_sectors example_dma 150 27) <= 55296
  /\ exists g : gdrom,
       gdrom_dma_read example_dma 55296
       = Ok (len (disc_sectors example_dma 150 27),
             disc_sectors example_dma 150 27, g)
       /\ cdr_num_sectors g = 1
       /\ state g = STATE_READ_ATA_CMD.
Proof.
  assert (H1 : cdr_dma example_dma <> 0) by (lazy; discriminate).
  assert (H2 : dma_head example_dma >= dma_size example_dma)
    by (lazy; discriminate).
  assert (H3 : 0 < DISC_MAX_SECTOR_SIZE) by reflexivity.
  assert (H4 : sectors_fit example_dma)
    by exact (example_disc_sectors_fit example_dma eq_refl).
  assert (H5 : 0 < len (disc_sectors example_dma 150 27) <= 55296)
    by (lazy; split; [reflexivity|discriminate]).
  split; [exact H1|]. split; [exact H2|]. split; [exact H3|].
  split; [exact H4|]. split; [exact H5|].
  destruct (gdrom_dma_read_delivers_sectors (T := example_types)
              example_dma 55296 H1 H2 H3 H4 H5)
    as (g & Hrun & _ & Hn & _ & _ & Hs & _).
  exists g. split; [exact Hrun|]. split; [exact Hn|exact Hs].
Defined.

(** X11 (witness): 2 and then 4 of the 8 bytes left in the DMA buffer. *)
Lemma gdrom_dma_read_split_witness :
  0 <= dma_head example_dma_left
  /\ dma_head example_dma_left + 2 < dma_size example_dma_left
  /\ dma_size example_dma_left <= sizeof_dma_buffer
  /\ 0 < 2 /\ 0 < 4
  /\ exists (d1 d2 : list byte) (k2 : Z) (g1 g2 : gdrom),
       gdrom_dma_read example_dma_left 2 = Ok (2, d1, g1)
       /\ gdrom_dma_read g1 4 = Ok (k2, d2, g2)
       /\ gdrom_dma_read example_dma_left (2 + 4) = Ok (2 + k2, d1 ++ d2, g2)
       /\ k2 = 4.
Proof.
  assert (H1 : 0 <= dma_head example_dma_left) by (lazy; discriminate).
  assert (H2 : dma_head example_dma_left + 2 < dma_size example_dma_left)
    by reflexivity.
  assert (H3 : dma_size example_dma_left <= sizeof_dma_buffer)
    by (lazy; discriminate).
  assert (H4 : 0 < 2) by reflexivity.
  assert (H5 : 0 < 4) by reflexivity.
  split; [exact H1|]. split; [exact H2|]. split; [exact H3|].
  split; [exact H4|]. split; [exact H5|].
  destruct (gdrom_dma_read_split (T := example_types) example_dma_left 2 4
              H1 H2 H3 H4 H5)
    as (d1 & d2 & k2 & g1 & g2 & Ha & Hb & Hc & Hk & _).
  exists d1, d2, k2, g1, g2.
  split; [exact Ha|]. split; [exact Hb|]. split; [exact Hc|exact Hk].
Defined.

(** X12 (witness): a CD_READ of one sector of 2048 bytes is read out by
    1024 reads, the last of which completes the command. *)
Lemma read_words_cdread_chunk_witness :
  cdr_dma example_pio_one = 0
  /\ 0 < DISC_MAX_SECTOR_SIZE
  /\ sectors_fit example_pio_one
  /\ len (disc_sectors example_pio_one 150 1) = 2 * Z.of_nat 1024
  /\ exists g g' : gdrom,
       gdrom_spi_cdread example_pio_one = Ok g
       /\ read_words 1024 g
          = Ok (words_of (disc_sectors example_pio_one 150 1), g')
       /\ g' = gdrom_spi_end (set_pio_head (pio_size g) g)
       /\ state g' = STATE_READ_ATA_CMD
       /\ holly g' = [holly_raise_interrupt; holly_raise_interrupt].
Proof.
  assert (H2 : 0 < DISC_MAX_SECTOR_SIZE) by reflexivity.
  assert (H3 : sectors_fit example_pio_one)
    by exact (example_disc_sectors_fit example_pio_one eq_refl).
  assert (H4 : len (disc_sectors example_pio_one 150 1) = 2 * Z.of_nat 1024)
    by (lazy; reflexivity).
  split; [reflexivity|]. split; [exact H2|]. split; [exact H3|].
  split; [exact H4|].
  destruct (read_words_cdread_chunk (T := example_types) example_pio_one 1023
              eq_refl H2 H3 H4)
    as (g & g' & Hrun & Hread & Hend & _).
  destruct (Hend eq_refl) as (Heq & Hst & Hho & _).
  exists g, g'. split; [exact Hrun|]. split; [exact Hread|].
  split; [exact Heq|]. split; [exact Hst|exact Hho].
Defined.

(** X13 (witness): the example disc has one track, number 1. *)
Lemma gdrom_get_toc_entries_witness :
  disc example_cdread = Some example_disc
  /\ disc_get_toc example_disc 0
     = (Some example_track, Some example_track, 0, 1000)
  /\ 1 <= track_num example_track
  /\ track_num example_track <= Z.of_nat (length (toc_entries toc_ones))
  /\ (forall k, track_num example_track <= k <= track_num example_track ->
                exists t, disc_get_track example_disc (k - 1) = Some t)
  /\ exists toc : gd_spi_toc,
       gdrom_get_toc example_cdread 0 = Ok toc
       /\ nth_error (toc_entries toc) 0 = Some (toc_entry_of example_track)
       /\ nth_error (toc_entries toc) 1 = Some (mk_toc_entry 0xf 0xf 0xffffff)
       /\ toc_leadout_fad toc = 1000.
Proof.
  assert (H3 : 1 <= track_num example_track) by (lazy; discriminate).
  assert (H4 : track_num example_track
               <= Z.of_nat (length (toc_entries toc_ones)))
    by (lazy; discriminate).
  assert (H5 : forall k,
             track_num example_track <= k <= track_num example_track ->
             exists t, disc_get_track example_disc (k - 1) = Some t).
  { intros k Hk. assert (Hk1 : k = 1).
    { change (track_num example_track) with 1 in Hk. lia. }
    rewrite Hk1. exists example_track. reflexivity. }
  split; [reflexivity|]. split; [reflexivity|]. split; [exact H3|].
  split; [exact H4|]. split; [exact H5|].
  destruct (gdrom_get_toc_entries (T := example_types) example_cdread
              example_disc 0 0 1000 example_track example_track
              eq_refl eq_refl H3 H4 H5)
    as (toc & Hrun & _ & Hent & _ & _ & Hlo).
  exists toc. split; [exact Hrun|].
  split; [exact (Hent 0%nat)|]. split; [exact (Hent 1%nat)|exact Hlo].
Defined.

(** X14 (witness): along a CD_READ read by DMA. *)
Lemma gd_run_busy_only_in_dma_witness :
  busy_only_in_dma gd_zero
  /\ exists gd' : gdrom,
       gd_run gd_zero (example_dma_cdread ++ [op_dma_read 55296]) = Ok gd'
       /\ busy_only_in_dma gd'.
Proof.
  assert (H0 : busy_only_in_dma gd_zero)
    by (intros H; lazy in H; discriminate H).
  split; [exact H0|].
  destruct (gd_run gd_zero (example_dma_cdread ++ [op_dma_read 55296]))
    as [gd'|f] eqn:E.
  - exists gd'. split; [reflexivity|].
    exact (gd_run_busy_only_in_dma _ gd_zero gd' H0 E).
  - exfalso.
    assert (H : on_ok (gd_run gd_zero (example_dma_cdread ++ [op_dma_read 55296]))
                  state = Some STATE_READ_ATA_CMD) by (lazy; reflexivity).
    rewrite E in H. discriminate H.
Defined.

(** X15 (witness): along a CD_READ read by DMA. *)
Lemma gd_run_cdread_nonneg_witness :
  0 < DISC_MAX_SECTOR_SIZE
  /\ cdread_nonneg gd_zero
  /\ exists gd' : gdrom,
       gd_run gd_zero (example_dma_cdread ++ [op_dma_read 55296]) = Ok gd'
       /\ cdread_nonneg gd'.
Proof.
  assert (HD : 0 < DISC_MAX_SECTOR_SIZE) by reflexivity.
  assert (H0 : cdread_nonneg gd_zero) by (lazy; split; discriminate).
  split; [exact HD|]. split; [exact H0|].
  destruct (gd_run gd_zero (example_dma_cdread ++ [op_dma_read 55296]))
    as [gd'|f] eqn:E.
  - exists gd'. split; [reflexivity|].
    exact (gd_run_cdread_nonneg (T := example_types) HD _ gd_zero gd' H0 E).
  - exfalso.
    assert (H : on_ok (gd_run gd_zero (example_dma_cdread ++ [op_dma_read 55296]))
                  state = Some STATE_READ_ATA_CMD) by (lazy; reflexivity).
    rewrite E in H. discriminate H.
Defined.

(** X16 (witness): CD_SEEK of type STOP while a CD_READ has 5 sectors to
    go. *)
Lemma gdrom_spi_cmd_non_data_witness :
  spi_cmd_of (pio_data example_cd_seek 0) = Some GD_SPI_CD_SEEK
  /\ non_data GD_SPI_CD_SEEK = true
  /\ exists g' : gdrom,
       gdrom_spi_cmd example_cd_seek 0 = Ok g'
       /\ state g' = STATE_READ_ATA_CMD
       /\ sectnum_status (sectnum g') = GD_STATUS_STANDBY
       /\ cdr_num_sectors g' = 5.
Proof.
  split; [reflexivity|]. split; [reflexivity|].
  destruct (gdrom_spi_cmd_non_data (T := example_types) example_cd_seek 0
              GD_SPI_CD_SEEK eq_refl eq_refl)
    as (g' & Hrun & Hs & _ & _ & _ & _ & Hst & Hn & _).
  exists g'. split; [exact Hrun|]. split; [exact Hs|].
  split; [exact Hst|exact Hn].
Defined.

(** X17 (witness): EXEC_DIAG. *)
Lemma ata_unsupported_fatal_witness :
  ata_unsupported (ata_cmd_of 0x90) = true
  /\ gd_step gd_zero (op_write_COMMAND 0x90) = Err Fatal.
Proof.
  split; [reflexivity|].
  exact (ata_unsupported_fatal (T := example_types) gd_zero 0x90 eq_refl).
Defined.

(** X18 (witness): CD_OPEN. *)
Lemma spi_unsupported_fatal_witness :
  ata_cmd_of 0xa0 = Some GD_ATA_PACKET_CMD
  /\ length example_cd_open_packet = 6%nat
  /\ spi_unsupported
       (spi_cmd_of
          (Z_of_byte (nth 0 (flat_map word_bytes example_cd_open_packet) x00)))
     = true
  /\ gd_run gd_zero
       (op_write_COMMAND 0xa0 :: map op_write_DATA example_cd_open_packet)
     = Err Fatal.
Proof.
  split; [reflexivity|]. split; [reflexivity|]. split; [reflexivity|].
  exact (proj1 (spi_unsupported_fatal (T := example_types) gd_zero 0xa0
                  example_cd_open_packet eq_refl eq_refl eq_refl)).
Defined.

(** X19 (witness): a soft reset while a CD_READ has 28 sectors to go. *)
Lemma ata_soft_reset_witness :
  ata_cmd_of 0x08 = Some GD_ATA_SOFT_RESET
  /\ exists g' : gdrom,
       gd_step example_cdread (op_write_COMMAND 0x08) = Ok g'
       /\ disc g' = Some example_disc
       /\ sectnum g' = mk_sectnum 1 8 0
       /\ cdr_num_sectors g' = 28.
Proof.
  split; [reflexivity|].
  destruct (ata_soft_reset (T := example_types) example_cdread 0x08 eq_refl)
    as (g' & Hrun & Hd & _ & _ & Hs & _ & _ & _ & Hn & _).
  exists g'. split; [exact Hrun|]. split; [exact Hd|].
  split; [exact Hs|exact Hn].
Defined.

(** X20 (witness): three reads of a reply of 3 bytes. *)
Lemma read_DATA_never_completes_witness :
  state example_odd_reply = STATE_WRITE_SPI_DATA
  /\ pio_head example_odd_reply = 0
  /\ (Z.odd (pio_size example_odd_reply) = true
      \/ pio_size example_odd_reply <= 0)
  /\ 2 * Z.of_nat 3 <= sizeof_pio_buffer
  /\ exists g' : gdrom,
       gd_run example_odd_reply (repeat op_read_DATA 3) = Ok g'
       /\ pio_head g' = 6
       /\ state g' = STATE_WRITE_SPI_DATA
       /\ holly g' = [].
Proof.
  assert (H3 : Z.odd (pio_size example_odd_reply) = true
               \/ pio_size example_odd_reply <= 0) by (left; reflexivity).
  assert (H4 : 2 * Z.of_nat 3 <= sizeof_pio_buffer) by (lazy; discriminate).
  split; [reflexivity|]. split; [reflexivity|]. split; [exact H3|].
  split; [exact H4|].
  destruct (read_DATA_never_completes (T := example_types) 3 example_odd_reply
              eq_refl eq_refl H3 H4)
    as (g' & Hrun & Hh & Hs & Hho & _).
  exists g'. split; [exact Hrun|]. split; [exact Hh|].
  split; [exact Hs|exact Hho].
Defined.

(** X21 (witness): a CD_READ in PIO mode of 28 sectors from frame 150
    stages 27 of them. *)
Lemma gdrom_spi_cmd_cd_read_witness :
  spi_cmd_of (pio_data example_cd_read 0) = Some GD_SPI_CD_READ
  /\ disc example_cd_read = Some example_disc
  /\ 0 < DISC_MAX_SECTOR_SIZE
  /\ (forall fad fmt mask,
         len (disc_read_sector example_disc fad fmt mask)
         <= DISC_MAX_SECTOR_SIZE)
  /\ exists g' : gdrom,
       gdrom_spi_cmd example_cd_read 0 = Ok g'
       /\ cdr_first_sector g' = 177
       /\ cdr_num_sectors g' = 1
       /\ state g' = STATE_WRITE_SPI_DATA
       /\ pio_size g' = 55296.
Proof.
  assert (H3 : 0 < DISC_MAX_SECTOR_SIZE) by reflexivity.
  assert (H4 : forall fad fmt mask,
             len (disc_read_sector example_disc fad fmt mask)
             <= DISC_MAX_SECTOR_SIZE)
    by exact (fun fad fmt mask => example_disc_fits fmt mask fad).
  split; [reflexivity|]. split; [reflexivity|]. split; [exact H3|].
  split; [exact H4|].
  destruct (gdrom_spi_cmd_cd_read (T := example_types) example_cd_read 0
              example_disc eq_refl eq_refl H3 H4)
    as (g' & Hrun & Hf & Hn & Hpio & _).
  destruct (Hpio eq_refl) as (Hst & _ & Hsz & _).
  exists g'. split; [exact Hrun|]. split; [exact Hf|]. split; [exact Hn|].
  split; [exact Hst|]. rewrite Hsz. lazy. reflexivity.
Defined.

(** X22 (witness): GET_SCD asking for 512 bytes of the 100-byte array. *)
Lemma gdrom_spi_cmd_get_scd_size_witness :
  spi_cmd_of (pio_data example_get_scd 0) = Some GD_SPI_GET_SCD
  /\ disc example_get_scd <> None
  /\ 3 < GD_SPI_SCD_SIZE
  /\ GD_SPI_SCD_SIZE
     < Z.lor (Z.shiftl (pio_data example_get_scd 3) 8)
         (pio_data example_get_scd 4)
  /\ gdrom_spi_cmd example_get_scd 0 = Err Undefined.
Proof.
  assert (H2 : disc example_get_scd <> None) by discriminate.
  assert (H3 : 3 < GD_SPI_SCD_SIZE) by reflexivity.
  assert (H4 : GD_SPI_SCD_SIZE
               < Z.lor (Z.shiftl (pio_data example_get_scd 3) 8)
                   (pio_data example_get_scd 4)) by reflexivity.
  split; [reflexivity|]. split; [exact H2|]. split; [exact H3|].
  split; [exact H4|].
  exact (proj1 (gdrom_spi_cmd_get_scd_size (T := example_types)
                  example_get_scd 0 eq_refl H2 H3) H4).
Defined.

(** X23 (witness): the 28 sectors of the example CD_READ. *)
Lemma cd_read_pio_all_sectors_witness :
  cdr_dma example_cdread = 0
  /\ disc example_cdread = Some example_disc
  /\ 0 < DISC_MAX_SECTOR_SIZE <= sizeof_pio_buffer
  /\ (forall fad,
         0 < len (disc_read_sector example_disc fad
                    (cdr_secfmt example_cdread) (cdr_secmask example_cdread))
           <= DISC_MAX_SECTOR_SIZE
         /\ Z.even
              (len (disc_read_sector example_disc fad
                      (cdr_secfmt example_cdread)
                      (cdr_secmask example_cdread))) = true)
  /\ 0 < cdr_num_sectors example_cdread
  /\ exists g g' : gdrom,
       gdrom_spi_cdread example_cdread = Ok g
       /\ read_words
            (Z.to_nat (len (sectors_of example_disc 150 0 0 28) / 2)) g
          = Ok (words_of (sectors_of example_disc 150 0 0 28), g')
       /\ state g' = STATE_READ_ATA_CMD
       /\ cdr_num_sectors g' = 0.
Proof.
  assert (H3 : 0 < DISC_MAX_SECTOR_SIZE <= sizeof_pio_buffer)
    by (lazy; intuition discriminate).
  assert (H4 : forall fad,
             0 < len (disc_read_sector example_disc fad
                        (cdr_secfmt example_cdread)
                        (cdr_secmask example_cdread))
               <= DISC_MAX_SECTOR_SIZE
             /\ Z.even
                  (len (disc_read_sector example_disc fad
                          (cdr_secfmt example_cdread)
                          (cdr_secmask example_cdread))) = true).
  { intros fad. unfold len. cbn [disc_read_sector example_disc].
    rewrite repeat_length.
    split; [split; [reflexivity|lazy; discriminate]|reflexivity]. }
  assert (H5 : 0 < cdr_num_sectors example_cdread) by reflexivity.
  split; [reflexivity|]. split; [reflexivity|]. split; [exact H3|].
  split; [exact H4|]. split; [exact H5|].
  destruct (cd_read_pio_all_sectors (T := example_types) example_cdread
              example_disc eq_refl eq_refl H3 H4 H5)
    as (g & g' & Hrun & Hread & Hst & Hn & _).
  exists g, g'. split; [exact Hrun|]. split; [exact Hread|].
  split; [exact Hst|exact Hn].
Defined.

(** X24 (witness): a CD_READ sent to the controller with the example
    disc. *)
Lemma gd_run_keeps_disc_witness :
  forallb not_set_disc example_guest_cdread = true
  /\ exists gd' : gdrom,
       gd_run example_cdread example_guest_cdread = Ok gd'
       /\ disc gd' = Some example_disc.
Proof.
  split; [reflexivity|].
  destruct (gd_run example_cdread example_guest_cdread) as [gd'|f] eqn:E.
  - exists gd'. split; [reflexivity|].
    exact (gd_run_keeps_disc (T := example_types) example_guest_cdread
             example_cdread gd' eq_refl E).
  - exfalso.
    assert (H : on_ok (gd_run example_cdread example_guest_cdread) state
                = Some STATE_WRITE_SPI_DATA) by (lazy; reflexivity).
    rewrite E in H. discriminate H.
Defined.
